(** * Resilient fetch orchestration: a shallow embedding of the scraper core

  The development follows the TypeScript sources of the scraper module:
  - [AntiBypass]   : [AntiBypassService.isContentBlocked] (the block detector);
  - [CreditTracker]: [CreditTrackerService] (the monthly credit ledger);
  - [Orchestrator] : [ScrapingOrchestratorService] (retry loop, paid fallback);
  - [Md5], [BrowserEngine] : [BrowserEngineService] (the session registry).
  The definitions come first; the modules named [...Facts] after them hold
  the properties, one module per service.

  JavaScript numbers that count things (credits, attempts, milliseconds of
  the clock) are integers [Z]; derived fractions (percentages, delays with
  jitter) are exact rationals [Q].  A string holds its text in UTF-8, the
  encoding of the literals of this file and the one in which the session
  key is hashed; its [length] is the number of UTF-16 code units of that
  text, as in JavaScript.  Searching for an ASCII needle gives the same
  answer on the bytes as on the code units.  [toLowerCase] acts on the
  ASCII letters and keeps the bytes of other characters: the needles of
  the detector are ASCII, and the two characters outside ASCII that
  JavaScript lower-cases to an ASCII letter (U+212A to k, U+0130 to i
  followed by U+0307) cannot complete a needle that is able to match,
  none of which contains k or ends in i. *)

From Stdlib Require Import ZArith QArith Qround Qpower Lqa Lia List Bool Ascii String Sorted.
From stdpp Require Import gmap strings pretty.

Local Open Scope string_scope.
Local Open Scope list_scope.
Local Open Scope Z_scope.

(** ** JavaScript string primitives used by the services *)

Module JsString.

Definition lower_ascii (c : ascii) : ascii :=
  let n := N_of_ascii c in
  if ((65 <=? n) && (n <=? 90))%N then ascii_of_N (n + 32) else c.

(** [String.prototype.toLowerCase], as far as the ASCII letters go. *)
Fixpoint toLowerCase (s : string) : string :=
  match s with
  | EmptyString => EmptyString
  | String c r => String (lower_ascii c) (toLowerCase r)
  end.

(** [s.startsWith(p)]. *)
Fixpoint startsWith (s p : string) {struct p} : bool :=
  match p, s with
  | EmptyString, _ => true
  | String _ _, EmptyString => false
  | String a p', String b s' => if Ascii.eqb a b then startsWith s' p' else false
  end.

(** [hay.includes(needle)]: the needle occurs at some offset of [hay]. *)
Fixpoint includes (hay needle : string) : bool :=
  startsWith hay needle ||
  match hay with
  | EmptyString => false
  | String _ r => includes r needle
  end.

(** The UTF-16 code units that one byte of UTF-8 text accounts for: one
    for an ASCII byte and for the lead byte of a sequence of two or three
    bytes, two (a surrogate pair) for the lead byte of a sequence of four,
    none for a continuation byte. *)
Definition utf16Units (c : ascii) : Z :=
  let n := N_of_ascii c in
  if (n <? 128)%N then 1
  else if (n <? 192)%N then 0
  else if (n <? 240)%N then 1
  else 2.

(** [s.length]: the number of UTF-16 code units of the text. *)
Fixpoint jsLength (s : string) : Z :=
  match s with
  | EmptyString => 0
  | String c r => utf16Units c + jsLength r
  end.

(** A string is falsy exactly when it is empty. *)
Definition truthy (s : string) : bool :=
  match s with EmptyString => false | _ => true end.

(** [s.repeat(n)]. *)
Fixpoint repeatText (n : nat) (s : string) : string :=
  match n with
  | O => EmptyString
  | S k => s +:+ repeatText k s
  end.

(** [n] copies of the character [c]. *)
Fixpoint repeatChar (n : nat) (c : ascii) : string :=
  match n with
  | O => EmptyString
  | S k => String c (repeatChar k c)
  end.

(** [needle] occurs in [text] up to the case of letters. *)
Definition occursNoCase (text needle : string) : Prop :=
  exists pre word suf, text = pre +:+ word +:+ suf /\ toLowerCase word = needle.

End JsString.

(** ** The block detector: [AntiBypassService.isContentBlocked] *)

Module AntiBypass.
Import JsString.

(** The literal indicator list of the source, in source order. *)
Definition blockingIndicators : list string :=
  [ "datadome.co/captcha";
    "dd.captcha-delivery.com/captcha";
    "geo.captcha-delivery.com/captcha";
    "ct.captcha-delivery.com";
    "captcha-delivery.com/interstitial";
    "captcha-delivery.com/captcha";
    "DataDome Captcha";
    "DataDome CAPTCHA";
    "DataDome Device Check";
    "Just a moment";
    "Verifying your browser";
    "Challenge solved";
    "DataDome protection";
    "Please complete the security check";
    "Access Denied";
    "Please verify you are a human";
    "Security Check";
    "Bot Protection";
    "Please wait while we check your browser";
    "forbidden";
    "rate limit exceeded" ].

(** [htmlLower.includes('mdc-card') && (job || position || vacancy)]. *)
Definition hasJobContent (html : string) : bool :=
  let htmlLower := toLowerCase html in
  includes htmlLower "mdc-card" &&
  (includes htmlLower "job" || includes htmlLower "position"
   || includes htmlLower "vacancy").

(** [blockingIndicators.some(indicator => htmlLower.includes(indicator))]. *)
Definition hasBlockingIndicator (html : string) : bool :=
  let htmlLower := toLowerCase html in
  existsb (fun indicator => includes htmlLower indicator) blockingIndicators.

(** [html.length < 500]. *)
Definition hasMinimalContent (html : string) : bool := (jsLength html <? 500)%Z.

Definition isContentBlocked (html : string) : bool :=
  if hasJobContent html && (50000 <? jsLength html)%Z then false
  else hasBlockingIndicator html || hasMinimalContent html.

(** The detector as the specification words it: blocked iff a listed
    marker occurs (read here as generously as possible: in any case), or
    the page is small and lacks the positive content markers. *)
Definition markerOccurs (html : string) : bool :=
  existsb (fun indicator => includes (toLowerCase html) (toLowerCase indicator))
          blockingIndicators.

Definition claimedBlocked (html : string) : bool :=
  markerOccurs html || (hasMinimalContent html && negb (hasJobContent html)).

(** A page of [n] filler characters around a fragment. *)
Definition paddedPage (n : Z) (fragment : string) : string :=
  fragment +:+ repeatChar (Z.to_nat n) "x"%char.

End AntiBypass.

(** ** JavaScript values shared by the services *)

Module Js.

(** [o || d] on numbers: [undefined] and [0] are falsy. *)
Definition orNum (o : option Z) (d : Z) : Z :=
  match o with
  | Some v => if v =? 0 then d else v
  | None => d
  end.

(** [o || d] on strings: [undefined] and the empty string are falsy. *)
Definition orStr (o : option string) (d : string) : string :=
  match o with
  | Some s => if JsString.truthy s then s else d
  | None => d
  end.

(** The three getters of [Date] that the ledger reads. *)
Record Date := mkDate {
  getFullYear : Z;
  getMonth : Z;      (* 0 .. 11 *)
  getDate : Z        (* 1 .. 31 *)
}.

(** Template rendering of [string | null]. *)
Definition showNullable (o : option string) : string :=
  match o with Some s => s | None => "null" end.

Definition showBool (b : bool) : string := if b then "true" else "false".

(** [x.toFixed(1)]: the nearest tenth, ties towards the larger magnitude. *)
Definition toFixed1 (x : Q) : string :=
  let tenths (y : Q) : string :=
    let n := Qfloor (y * 10 + (1 # 2))%Q in
    pretty (n / 10) +:+ "." +:+ pretty (n mod 10) in
  if Qle_bool 0 x then tenths x else "-" +:+ tenths (- x)%Q.

(** A promise that has settled. *)
Inductive outcome (A : Type) : Type :=
| Resolved (value : A)
| Rejected (message : string).
Arguments Resolved {A} value.
Arguments Rejected {A} message.

End Js.

(** ** Configuration: [paid-services.config.ts] as read through [ConfigService] *)

Module Config.

Record ScraperApi := mkScraperApi {
  freeMonthlyLimit : option Z;
  creditsPerRequest : option (gmap string Z)
}.

Record ScrapingDog := mkScrapingDog {
  freeTrialLimit : option Z
}.

Record Retry := mkRetry {
  maxAttempts : Z;
  baseDelayMs : Q;
  exponentialBase : Q;
  jitterMs : Q
}.

Record PaidServices := mkPaidServices {
  scraperapi : option ScraperApi;
  scrapingdog : option ScrapingDog;
  persistToDb : bool;
  retry : option Retry
}.

(** The values of the repository's configuration file. *)
Definition shipped : PaidServices :=
  {| scraperapi := Some {| freeMonthlyLimit := Some 1000;
                           creditsPerRequest :=
                             Some (<["jobs.bg" := 10]> (<["default" := 1]> ∅)) |};
     scrapingdog := Some {| freeTrialLimit := Some 1000 |};
     persistToDb := true;
     retry := Some {| maxAttempts := 3; baseDelayMs := 10000;
                      exponentialBase := 3; jitterMs := 2000 |} |}.

End Config.

(** ** The credit ledger: [CreditTrackerService] *)

Module CreditTracker.
Import Js.

Record CreditUsage := mkCreditUsage {
  service : string;
  site : string;
  credits : Z;
  url : string;
  successful : bool
}.

Record ScraperApiLimits := mkScraperApiLimits {
  monthly : Z;
  daily : Z;
  remaining : Z
}.

Record ScrapingDogLimits := mkScrapingDogLimits {
  trial : Z;
  used : Z;
  dogRemaining : Z
}.

Record ServiceLimits := mkServiceLimits {
  scraperapi : ScraperApiLimits;
  scrapingdog : ScrapingDogLimits
}.

(** The two private fields of the service. *)
Record Tracker := mkTracker {
  monthlyUsage : gmap string Z;
  lastReset : Date
}.

(** [`${service}_${now.getFullYear()}_${now.getMonth()}`]. *)
Definition usageKey (service : string) (now : Date) : string :=
  service +:+ "_" +:+ pretty (getFullYear now) +:+ "_" +:+ pretty (getMonth now).

(** [this.monthlyUsage.get(key) || 0]. *)
Definition usageOf (t : Tracker) (key : string) : Z :=
  orNum (monthlyUsage t !! key) 0.

Definition scraperApiLimit (cfg : Config.PaidServices) : Z :=
  orNum (Config.scraperapi cfg ≫= Config.freeMonthlyLimit) 1000.

Definition scrapingDogLimit (cfg : Config.PaidServices) : Z :=
  orNum (Config.scrapingdog cfg ≫= Config.freeTrialLimit) 1000.

Definition getServiceLimits (cfg : Config.PaidServices) (now : Date) (t : Tracker)
  : ServiceLimits :=
  let scraperAPIUsage := usageOf t (usageKey "scraperapi" now) in
  let scrapingDogUsage := usageOf t (usageKey "scrapingdog" now) in
  {| scraperapi :=
       {| monthly := scraperApiLimit cfg;
          daily := scraperApiLimit cfg / 30;
          remaining := Z.max 0 (scraperApiLimit cfg - scraperAPIUsage) |};
     scrapingdog :=
       {| trial := scrapingDogLimit cfg;
          used := scrapingDogUsage;
          dogRemaining := Z.max 0 (scrapingDogLimit cfg - scrapingDogUsage) |} |}.

Definition hasAvailableCredits (cfg : Config.PaidServices) (now : Date) (t : Tracker)
    (service : string) (requiredCredits : Z) : bool :=
  let limits := getServiceLimits cfg now t in
  if String.eqb service "scraperapi" then
    requiredCredits <=? remaining (scraperapi limits)
  else if String.eqb service "scrapingdog" then
    requiredCredits <=? dogRemaining (scrapingdog limits)
  else false.

Definition getUsagePercentage (cfg : Config.PaidServices) (now : Date) (t : Tracker)
    (service : string) : Q :=
  let limits := getServiceLimits cfg now t in
  if String.eqb service "scraperapi" then
    let used := monthly (scraperapi limits) - remaining (scraperapi limits) in
    (inject_Z used / inject_Z (monthly (scraperapi limits)) * 100)%Q
  else if String.eqb service "scrapingdog" then
    (inject_Z (used (scrapingdog limits)) / inject_Z (trial (scrapingdog limits)) * 100)%Q
  else 0%Q.

(** [trackUsage]: add the credits to the month's counter.  Persisting and
    alerting only write to the log. *)
Definition trackUsage (now : Date) (usage : CreditUsage) (t : Tracker) : Tracker :=
  let key := usageKey (service usage) now in
  let currentUsage := usageOf t key in
  {| monthlyUsage := <[key := currentUsage + credits usage]> (monthlyUsage t);
     lastReset := lastReset t |}.

Definition resetMonthlyUsage (now : Date) (t : Tracker) : Tracker :=
  if (getDate now =? 1) && negb (getMonth now =? getMonth (lastReset t)) then
    {| monthlyUsage := ∅; lastReset := now |}
  else t.

(** [config?.creditsPerRequest?.[siteName] || config?.creditsPerRequest?.default || 1]. *)
Definition getCreditCost (cfg : Config.PaidServices) (siteName service : string) : Z :=
  if String.eqb service "scraperapi" then
    let table := Config.scraperapi cfg ≫= Config.creditsPerRequest in
    orNum (table ≫= (.!! siteName)) (orNum (table ≫= (.!! "default")) 1)
  else 1.

(** The state the constructor leaves: an empty cache, reset stamped now. *)
Definition initial (now : Date) : Tracker :=
  {| monthlyUsage := ∅; lastReset := now |}.

(** Counters are sums of charged credits: never negative. *)
Definition countersNonNegative (t : Tracker) : Prop :=
  forall key v, monthlyUsage t !! key = Some v -> 0 <= v.

End CreditTracker.

(** ** The fetch orchestrator: [ScrapingOrchestratorService] *)

Module Orchestrator.
Import Js.

Record ScrapingContext := mkContext {
  url : string;
  siteName : string;
  page : Z;
  startTime : Z;
  totalRequestCount : Z;
  lastError : option string
}.

Record ResponseMetadata := mkResponseMetadata {
  service : string;
  creditsUsed : Z;
  fallbackReason : option string
}.

Record BrowserScrapingResponse := mkResponse {
  html : string;
  finalUrl : string;
  status : Z;
  headers : list (string * string);
  success : bool;
  error : option string;
  loadTime : Z;
  cookies : list string;
  metadata : option ResponseMetadata
}.

Record PaidScrapingOptions := mkPaidOptions {
  optUrl : string;
  optSiteName : string;
  render : bool;
  premium : bool;
  countryCode : string;
  timeout : Z
}.

Record PaidMetadata := mkPaidMetadata {
  paidFinalUrl : string;
  statusCode : Z;
  responseHeaders : option (list (string * string))
}.

Record PaidScrapingResponse := mkPaidResponse {
  paidHtml : string;
  paidSuccess : bool;
  paidCredits : Z;
  processingTime : Z;
  paidError : option string;
  paidMetadata : option PaidMetadata
}.

(** [ScrapingStrategy.execute]: what one invocation settles to.  The
    context it receives carries the request counter, so the answer may
    differ from one attempt to the next. *)
Definition ScrapingStrategy : Type :=
  ScrapingContext -> outcome BrowserScrapingResponse.

Record Options := mkOptions {
  retryConfig : option Config.Retry;
  enablePaidFallback : option bool;
  isBlockedChecker : option (string -> bool)
}.

(** What the orchestrator reaches outside itself. *)
Record Env := mkEnv {
  config : Config.PaidServices;
  now : Date;
  random : Z -> Q;       (* [Math.random()] drawn after attempt [n] *)
  scrapeWithScraperAPI : PaidScrapingOptions -> outcome PaidScrapingResponse
}.

(** The externally visible steps of one call, oldest first. *)
Inductive Event : Type :=
| FreeAttempt (attempt : Z) (context : ScrapingContext)
| Slept (delay : Q)
| PaidRequest (options : PaidScrapingOptions)
| Tracked (usage : CreditTracker.CreditUsage).

Record World := mkWorld {
  tracker : CreditTracker.Tracker;
  events : list Event
}.

(** Asynchronous code over the world: side effects made before a
    rejection stay made. *)
Definition M (A : Type) : Type := World -> outcome A * World.

Definition ret {A} (a : A) : M A := fun w => (Resolved a, w).

Definition throw {A} (message : string) : M A := fun w => (Rejected message, w).

Definition bind {A B} (m : M A) (k : A -> M B) : M B :=
  fun w =>
    match m w with
    | (Resolved a, w') => k a w'
    | (Rejected message, w') => (Rejected message, w')
    end.

Definition tryCatch {A} (body : M A) (handler : string -> M A) : M A :=
  fun w =>
    match body w with
    | (Resolved a, w') => (Resolved a, w')
    | (Rejected message, w') => handler message w'
    end.

Definition settle {A} (o : outcome A) : M A := fun w => (o, w).

Definition emit (e : Event) : M unit :=
  fun w => (Resolved tt, {| tracker := tracker w; events := events w ++ [e] |}).

Definition readTracker : M CreditTracker.Tracker :=
  fun w => (Resolved (tracker w), w).

Notation "'let!' x := m 'in' k" := (bind m (fun x => k))
  (at level 10, x name, m at level 100, k at level 200).
Notation "'do!' m 'in' k" := (bind m (fun _ => k))
  (at level 10, m at level 100, k at level 200).

Definition awaitTrackUsage (env : Env) (usage : CreditTracker.CreditUsage) : M unit :=
  fun w =>
    (Resolved tt,
     {| tracker := CreditTracker.trackUsage (now env) usage (tracker w);
        events := events w ++ [Tracked usage] |}).

Definition sleep (delay : Q) : M unit := emit (Slept delay).

Definition defaultRetryConfig : Config.Retry :=
  {| Config.maxAttempts := 3; Config.baseDelayMs := 10000;
     Config.exponentialBase := 3; Config.jitterMs := 2000 |}.

(** [configService.get('paidServices.retry', {...})]. *)
Definition getDefaultRetryConfig (env : Env) : Config.Retry :=
  match Config.retry (config env) with
  | Some rc => rc
  | None => defaultRetryConfig
  end.

(** [baseDelayMs * Math.pow(exponentialBase, attempt - 1) + Math.random() * jitterMs]. *)
Definition retryDelay (rc : Config.Retry) (attempt : Z) (rnd : Q) : Q :=
  (Config.baseDelayMs rc * Config.exponentialBase rc ^ (attempt - 1)
   + rnd * Config.jitterMs rc)%Q.

(** How the body of the [try] block of one attempt ends. *)
Inductive AttemptResult : Type :=
| Succeeded (response : BrowserScrapingResponse)
| Blocked.

Definition blockedMessage : string := "Blocking detected - requires premium service".

Definition attemptBody (strategy : ScrapingStrategy)
    (checker : option (string -> bool)) (ctx : ScrapingContext)
  : M AttemptResult :=
  let! response := settle (strategy ctx) in
  if negb (success response) || negb (JsString.truthy (html response)) then
    throw (orStr (error response) "No content received")
  else
    match checker with
    | Some isBlocked =>
        if isBlocked (html response) then ret Blocked else ret (Succeeded response)
    | None => ret (Succeeded response)
    end.

(** [context.totalRequestCount++]. *)
Definition countRequest (ctx : ScrapingContext) : ScrapingContext :=
  {| url := url ctx; siteName := siteName ctx; page := page ctx;
     startTime := startTime ctx;
     totalRequestCount := totalRequestCount ctx + 1;
     lastError := lastError ctx |}.

(** How the [for] loop is left. *)
Inductive FreeOutcome : Type :=
| FreeSucceeded (response : BrowserScrapingResponse)
| FreeGaveUp (context : ScrapingContext) (lastError : option string).

(** The loop [for (attempt = 1; attempt <= maxAttempts; attempt++)], by
    recursion on the number of iterations still allowed. *)
Fixpoint freeLoop (env : Env) (strategy : ScrapingStrategy)
    (checker : option (string -> bool)) (rc : Config.Retry)
    (iterations : nat) (attempt : Z) (ctx : ScrapingContext)
    (lastErr : option string) : M FreeOutcome :=
  match iterations with
  | O => ret (FreeGaveUp ctx lastErr)
  | S rest =>
      let ctx' := countRequest ctx in
      do! emit (FreeAttempt attempt ctx') in
      tryCatch
        (let! result := attemptBody strategy checker ctx' in
         match result with
         | Blocked => ret (FreeGaveUp ctx' (Some blockedMessage))
         | Succeeded response => ret (FreeSucceeded response)
         end)
        (fun message =>
           do! (if attempt <? Config.maxAttempts rc
                then sleep (retryDelay rc attempt (random env attempt))
                else ret tt) in
           freeLoop env strategy checker rc rest (attempt + 1) ctx' (Some message))
  end.

Definition insufficientCreditsMessage (usagePercentage : Q) (requiredCredits : Z)
  : string :=
  "Insufficient ScraperAPI credits. Current usage: " +:+ toFixed1 usagePercentage
  +:+ "%. Required: " +:+ pretty requiredCredits +:+ " credits.".

Definition paidOptionsFor (ctx : ScrapingContext) : PaidScrapingOptions :=
  {| optUrl := url ctx;
     optSiteName := siteName ctx;
     render := true;
     premium := true;
     countryCode := if JsString.includes (siteName ctx) ".bg" then "bg" else "us";
     timeout := 180000 |}.

Definition paidToBrowserResponse (ctx : ScrapingContext) (lastErr : option string)
    (paidResponse : PaidScrapingResponse) : BrowserScrapingResponse :=
  {| html := paidHtml paidResponse;
     finalUrl := orStr (paidFinalUrl <$> paidMetadata paidResponse) (url ctx);
     status := orNum (statusCode <$> paidMetadata paidResponse) 200;
     headers := default [] (paidMetadata paidResponse ≫= responseHeaders);
     success := true;
     error := None;
     loadTime := processingTime paidResponse;
     cookies := [];
     metadata := Some {| service := "scraperapi";
                         creditsUsed := paidCredits paidResponse;
                         fallbackReason := lastErr |} |}.

Definition executeWithPaidService (env : Env) (ctx : ScrapingContext)
    (lastErr : option string) : M BrowserScrapingResponse :=
  let requiredCredits :=
    CreditTracker.getCreditCost (config env) (siteName ctx) "scraperapi" in
  let! t := readTracker in
  let hasCredits :=
    CreditTracker.hasAvailableCredits (config env) (now env) t
      "scraperapi" requiredCredits in
  if negb hasCredits then
    let usagePercentage :=
      CreditTracker.getUsagePercentage (config env) (now env) t "scraperapi" in
    throw (insufficientCreditsMessage usagePercentage requiredCredits)
  else
    tryCatch
      (let paidOptions := paidOptionsFor ctx in
       do! emit (PaidRequest paidOptions) in
       let! paidResponse := settle (scrapeWithScraperAPI env paidOptions) in
       if negb (paidSuccess paidResponse)
          || negb (JsString.truthy (paidHtml paidResponse)) then
         throw ("ScraperAPI failed: "
                +:+ orStr (paidError paidResponse) "No content received")
       else
         do! awaitTrackUsage env
               {| CreditTracker.service := "scraperapi";
                  CreditTracker.site := siteName ctx;
                  CreditTracker.credits := paidCredits paidResponse;
                  CreditTracker.url := url ctx;
                  CreditTracker.successful := true |} in
         ret (paidToBrowserResponse ctx lastErr paidResponse))
      (fun message =>
         do! awaitTrackUsage env
               {| CreditTracker.service := "scraperapi";
                  CreditTracker.site := siteName ctx;
                  CreditTracker.credits := 0;
                  CreditTracker.url := url ctx;
                  CreditTracker.successful := false |} in
         throw message).

Definition freeFailureResponse (ctx : ScrapingContext) (rc : Config.Retry)
    (lastErr : option string) : BrowserScrapingResponse :=
  {| html := "";
     finalUrl := url ctx;
     status := 0;
     headers := [];
     success := false;
     error := Some ("Free scraping failed after " +:+ pretty (Config.maxAttempts rc)
                    +:+ " attempts: " +:+ showNullable lastErr);
     loadTime := 0;
     cookies := [];
     metadata := None |}.

Definition retryConfigOf (env : Env) (options : Options) : Config.Retry :=
  default (getDefaultRetryConfig env) (retryConfig options).

Definition freePhase (env : Env) (context : ScrapingContext)
    (freeStrategy : ScrapingStrategy) (options : Options) : M FreeOutcome :=
  let rc := retryConfigOf env options in
  freeLoop env freeStrategy (isBlockedChecker options) rc
    (Z.to_nat (Config.maxAttempts rc)) 1 context None.

Definition executeWithFallback (env : Env) (context : ScrapingContext)
    (freeStrategy : ScrapingStrategy) (options : Options)
  : M BrowserScrapingResponse :=
  let rc := retryConfigOf env options in
  let! free := freePhase env context freeStrategy options in
  match free with
  | FreeSucceeded response => ret response
  | FreeGaveUp ctx lastErr =>
      if default true (enablePaidFallback options) then
        executeWithPaidService env ctx lastErr
      else
        ret (freeFailureResponse ctx rc lastErr)
  end.

(** *** Reading a trace *)

Definition freeAttempts (trace : list Event) : list Z :=
  flat_map (fun e => match e with FreeAttempt n _ => [n] | _ => [] end) trace.

Definition sleeps (trace : list Event) : list Q :=
  flat_map (fun e => match e with Slept d => [d] | _ => [] end) trace.

Definition trackedUsages (trace : list Event) : list CreditTracker.CreditUsage :=
  flat_map (fun e => match e with Tracked u => [u] | _ => [] end) trace.

Definition paidRequests (trace : list Event) : list PaidScrapingOptions :=
  flat_map (fun e => match e with PaidRequest o => [o] | _ => [] end) trace.

Definition isFreeEvent (e : Event) : bool :=
  match e with FreeAttempt _ _ | Slept _ => true | _ => false end.

(** The attempt numbers of [iterations] consecutive iterations. *)
Fixpoint attemptNumbers (iterations : nat) (attempt : Z) : list Z :=
  match iterations with
  | O => []
  | S rest => attempt :: attemptNumbers rest (attempt + 1)
  end.

(** The delays slept when every one of those iterations fails. *)
Definition delaysAfter (env : Env) (rc : Config.Retry) (attempts : list Z) : list Q :=
  flat_map (fun n => if n <? Config.maxAttempts rc
                     then [retryDelay rc n (random env n)] else []) attempts.

(** [Math.random()] yields a number in [0, 1). *)
Definition randomInUnitInterval (env : Env) : Prop :=
  forall n, (0 <= random env n < 1)%Q.

(** The policies whose growth from one attempt to the next exceeds the
    largest jitter. *)
Definition growthExceedsJitter (rc : Config.Retry) : Prop :=
  (1 <= Config.exponentialBase rc)%Q /\
  (0 <= Config.jitterMs rc)%Q /\
  (Config.jitterMs rc < Config.baseDelayMs rc * (Config.exponentialBase rc - 1))%Q.

(** A strategy whose every invocation ends in the [catch] block. *)
Definition attemptFails (o : outcome BrowserScrapingResponse) : Prop :=
  match o with
  | Rejected _ => True
  | Resolved r => success r = false \/ html r = ""
  end.

Definition alwaysFails (strategy : ScrapingStrategy) : Prop :=
  forall ctx, attemptFails (strategy ctx).

(** A paid call that completes unsuccessfully. *)
Definition paidFails (o : outcome PaidScrapingResponse) : Prop :=
  match o with
  | Rejected _ => True
  | Resolved r => paidSuccess r = false \/ paidHtml r = ""
  end.

(** The strategy hands the attempt made with [ctx] a document that the
    checker classifies as blocked. *)
Definition returnsBlockedDocument (strategy : ScrapingStrategy)
    (isBlocked : string -> bool) (ctx : ScrapingContext) : Prop :=
  exists response,
    strategy ctx = Resolved response /\
    success response = true /\
    JsString.truthy (html response) = true /\
    isBlocked (html response) = true.

(** The message the [catch] block of the paid path rethrows. *)
Definition paidFailureMessage (o : outcome PaidScrapingResponse) : string :=
  match o with
  | Rejected message => message
  | Resolved r => "ScraperAPI failed: " +:+ orStr (paidError r) "No content received"
  end.

Definition failedUsage (ctx : ScrapingContext) : CreditTracker.CreditUsage :=
  {| CreditTracker.service := "scraperapi";
     CreditTracker.site := siteName ctx;
     CreditTracker.credits := 0;
     CreditTracker.url := url ctx;
     CreditTracker.successful := false |}.

(** The world after the events [trace] have been appended. *)
Definition extend (w : World) (trace : list Event) : World :=
  {| tracker := tracker w; events := events w ++ trace |}.

Definition freshWorld (t : CreditTracker.Tracker) : World :=
  {| tracker := t; events := [] |}.

End Orchestrator.

(** ** MD5, the digest behind the session ids ([crypto.createHash('md5')]) *)

Module Md5.

Definition mask32 : Z := 0xffffffff.

Definition add32 (x y : Z) : Z := Z.land (x + y) mask32.

Definition rotl32 (x s : Z) : Z :=
  Z.land (Z.lor (Z.shiftl x s) (Z.shiftr x (32 - s))) mask32.

Definition not32 (x : Z) : Z := Z.lxor x mask32.

(** Per-round left rotations. *)
Definition shifts : list Z :=
  [ 7; 12; 17; 22; 7; 12; 17; 22; 7; 12; 17; 22; 7; 12; 17; 22;
    5; 9; 14; 20; 5; 9; 14; 20; 5; 9; 14; 20; 5; 9; 14; 20;
    4; 11; 16; 23; 4; 11; 16; 23; 4; 11; 16; 23; 4; 11; 16; 23;
    6; 10; 15; 21; 6; 10; 15; 21; 6; 10; 15; 21; 6; 10; 15; 21 ].

(** [floor (2^32 * |sin (i + 1)|)] for [i = 0 .. 63]. *)
Definition sines : list Z :=
  [
    0xd76aa478; 0xe8c7b756; 0x242070db; 0xc1bdceee;
    0xf57c0faf; 0x4787c62a; 0xa8304613; 0xfd469501;
    0x698098d8; 0x8b44f7af; 0xffff5bb1; 0x895cd7be;
    0x6b901122; 0xfd987193; 0xa679438e; 0x49b40821;
    0xf61e2562; 0xc040b340; 0x265e5a51; 0xe9b6c7aa;
    0xd62f105d; 0x02441453; 0xd8a1e681; 0xe7d3fbc8;
    0x21e1cde6; 0xc33707d6; 0xf4d50d87; 0x455a14ed;
    0xa9e3e905; 0xfcefa3f8; 0x676f02d9; 0x8d2a4c8a;
    0xfffa3942; 0x8771f681; 0x6d9d6122; 0xfde5380c;
    0xa4beea44; 0x4bdecfa9; 0xf6bb4b60; 0xbebfbc70;
    0x289b7ec6; 0xeaa127fa; 0xd4ef3085; 0x04881d05;
    0xd9d4d039; 0xe6db99e5; 0x1fa27cf8; 0xc4ac5665;
    0xf4292244; 0x432aff97; 0xab9423a7; 0xfc93a039;
    0x655b59c3; 0x8f0ccc92; 0xffeff47d; 0x85845dd1;
    0x6fa87e4f; 0xfe2ce6e0; 0xa3014314; 0x4e0811a1;
    0xf7537e82; 0xbd3af235; 0x2ad7d2bb; 0xeb86d391 ].

Definition bytesOf (s : string) : list Z :=
  map (fun c => Z.of_N (N_of_ascii c)) (list_ascii_of_string s).

(** [n] as [k] little-endian bytes. *)
Fixpoint littleEndian (k : nat) (n : Z) : list Z :=
  match k with
  | O => []
  | S k' => Z.land n 0xff :: littleEndian k' (Z.shiftr n 8)
  end.

(** The message, a 1 bit, zeros up to 56 mod 64, and the bit length. *)
Definition pad (message : list Z) : list Z :=
  let len := Z.of_nat (length message) in
  let zeros := Z.to_nat ((55 - len) mod 64) in
  message ++ [0x80] ++ repeat 0 zeros ++ littleEndian 8 (8 * len).

(** A little-endian 32-bit word from four bytes. *)
Definition wordOf (bs : list Z) : Z :=
  fold_right (fun b acc => b + 256 * acc) 0 bs.

Fixpoint wordsOf (count : nat) (bs : list Z) : list Z :=
  match count with
  | O => []
  | S k => wordOf (firstn 4 bs) :: wordsOf k (skipn 4 bs)
  end.

Definition State : Type := (Z * Z * Z * Z)%type.

Definition initialState : State :=
  (0x67452301, 0xefcdab89, 0x98badcfe, 0x10325476).

Definition step (block : list Z) (st : State) (i : nat) : State :=
  let '(a, b, c, d) := st in
  let iz := Z.of_nat i in
  let '(f, g) :=
    if iz <? 16 then (Z.lor (Z.land b c) (Z.land (not32 b) d), iz)
    else if iz <? 32 then
      (Z.lor (Z.land d b) (Z.land (not32 d) c), (5 * iz + 1) mod 16)
    else if iz <? 48 then (Z.lxor b (Z.lxor c d), (3 * iz + 5) mod 16)
    else (Z.lxor c (Z.lor b (not32 d)), (7 * iz) mod 16) in
  let f' := add32 (add32 (add32 f a) (nth i sines 0)) (nth (Z.to_nat g) block 0) in
  (d, add32 b (rotl32 f' (nth i shifts 0)), b, c).

Definition compress (st : State) (block : list Z) : State :=
  let '(a, b, c, d) := st in
  let '(a', b', c', d') := fold_left (step block) (seq 0 64) st in
  (add32 a a', add32 b b', add32 c c', add32 d d').

Fixpoint absorb (blocks : nat) (bs : list Z) (st : State) : State :=
  match blocks with
  | O => st
  | S k => absorb k (skipn 64 bs) (compress st (wordsOf 16 (firstn 64 bs)))
  end.

Definition hexDigit (n : Z) : ascii :=
  if n <? 10 then ascii_of_N (Z.to_N (48 + n)) else ascii_of_N (Z.to_N (87 + n)).

Definition hexByte (b : Z) : string :=
  String (hexDigit (b / 16)) (String (hexDigit (b mod 16)) EmptyString).

Definition hexOfBytes (bs : list Z) : string :=
  fold_right (fun b acc => hexByte b +:+ acc) EmptyString bs.

(** [createHash('md5').update(s).digest('hex')]. *)
Definition digestHex (s : string) : string :=
  let padded := pad (bytesOf s) in
  let '(a, b, c, d) := absorb (length padded / 64) padded initialState in
  hexOfBytes (littleEndian 4 a ++ littleEndian 4 b
              ++ littleEndian 4 c ++ littleEndian 4 d).

End Md5.

(** ** The session registry: [BrowserEngineService] *)

Module BrowserEngine.
Import Js.

Record BrowserSessionConfig := mkSessionConfig {
  siteName : string;
  headless : option bool;
  stealth : option bool;
  userAgent : option string;
  loadImages : option bool;
  timeout : option Z
}.

(** [IBrowserSession]; the browsing context and its page are a handle. *)
Record Session := mkSession {
  id : string;
  config : BrowserSessionConfig;
  createdAt : Z;
  lastActivity : Z;
  requestCount : Z;
  context : nat
}.

(** The fields of the service that sessions depend on.  Contexts are
    numbered in order of creation. *)
Record Engine := mkEngine {
  browser : bool;
  sessions : gmap string Session;
  contextsCreated : nat;
  contextsClosed : list nat
}.

(** What one call observes of the outside: the clock, the random source
    (as [Math.random()] renders in a template) and whether the browser
    library raises. *)
Record Env := mkEnv {
  now : Z;
  randomText : string;
  launchError : option string;
  contextError : option string;
  closeError : option string
}.

Definition emptyEngine : Engine :=
  {| browser := false; sessions := ∅; contextsCreated := 0; contextsClosed := [] |}.

(** [`${config.headless}`]. *)
Definition showHeadless (h : option bool) : string :=
  match h with Some b => showBool b | None => "undefined" end.

Definition baseStr (config : BrowserSessionConfig) : string :=
  siteName config +:+ "-" +:+ orStr (userAgent config) "default" +:+ "-"
  +:+ showHeadless (headless config) +:+ "-"
  +:+ showBool (default false (stealth config)).

Definition generateSessionId (env : Env) (config : BrowserSessionConfig)
    (forceNew : bool) : string :=
  if forceNew then
    String.substring 0 8
      (Md5.digestHex (baseStr config +:+ "-" +:+ pretty (now env) +:+ "-"
                      +:+ randomText env))
  else
    String.substring 0 8 (Md5.digestHex (baseStr config)).

Definition launchFailureMessage (config : BrowserSessionConfig) (reason : string)
  : string :=
  "Browser initialization failed for " +:+ siteName config +:+ ": " +:+ reason
  +:+ ". Browser automation is not available.".

Definition createNewSession (env : Env) (config : BrowserSessionConfig)
    (sessionId : option string) (e : Engine) : outcome Session * Engine :=
  let id := orStr sessionId (generateSessionId env config false) in
  match (if browser e then None else launchError env) with
  | Some reason => (Rejected (launchFailureMessage config reason), e)
  | None =>
      let launched :=
        {| browser := true; sessions := sessions e;
           contextsCreated := contextsCreated e;
           contextsClosed := contextsClosed e |} in
      match contextError env with
      | Some reason => (Rejected reason, launched)
      | None =>
          let session :=
            {| id := id; config := config; createdAt := now env;
               lastActivity := now env; requestCount := 0;
               context := contextsCreated e |} in
          (Resolved session,
           {| browser := true;
              sessions := <[id := session]> (sessions e);
              contextsCreated := S (contextsCreated e);
              contextsClosed := contextsClosed e |})
      end
  end.

Definition touch (env : Env) (s : Session) : Session :=
  {| id := id s; config := config s; createdAt := createdAt s;
     lastActivity := now env; requestCount := requestCount s;
     context := context s |}.

Definition getSession (env : Env) (config : BrowserSessionConfig) (e : Engine)
  : outcome Session * Engine :=
  let sessionId := generateSessionId env config false in
  match sessions e !! sessionId with
  | Some session =>
      let session' := touch env session in
      (Resolved session',
       {| browser := browser e;
          sessions := <[sessionId := session']> (sessions e);
          contextsCreated := contextsCreated e;
          contextsClosed := contextsClosed e |})
  | None => createNewSession env config (Some sessionId) e
  end.

(** [closeSession]: a failing [context.close()] is logged and the entry
    stays registered. *)
Definition closeSession (env : Env) (sessionId : string) (e : Engine) : Engine :=
  match sessions e !! sessionId with
  | Some session =>
      match closeError env with
      | None =>
          {| browser := browser e;
             sessions := delete sessionId (sessions e);
             contextsCreated := contextsCreated e;
             contextsClosed := context session :: contextsClosed e |}
      | Some _ => e
      end
  | None => e
  end.

Definition rotateSession (env : Env) (sessionId : string) (e : Engine)
  : outcome Session * Engine :=
  match sessions e !! sessionId with
  | None => (Rejected ("Session " +:+ sessionId +:+ " not found"), e)
  | Some currentSession =>
      let config := config currentSession in
      let e' := closeSession env sessionId e in
      let newSessionId := generateSessionId env config true in
      createNewSession env config (Some newSessionId) e'
  end.

(** Every entry of the registry is filed under its own id. *)
Definition registryConsistent (e : Engine) : Prop :=
  map_Forall (fun key session => id session = key) (sessions e).

(** The reading of the idle window in the specification: a registered
    session idle for longer than [idleTimeout] is not handed out again. *)
Definition idleTimeoutHonoured (idleTimeout : Z) : Prop :=
  forall env config e session session' e',
    sessions e !! generateSessionId env config false = Some session ->
    idleTimeout < now env - lastActivity session ->
    getSession env config e = (Resolved session', e') ->
    context session' <> context session.

Definition jobsBgConfig : BrowserSessionConfig :=
  {| siteName := "jobs.bg"; headless := Some false; stealth := Some true;
     userAgent := None; loadImages := Some true; timeout := Some 120000 |}.

End BrowserEngine.

(** ** Concrete requests, strategies and ledgers used in the examples *)

Module Scenarios.
Import Js Orchestrator.

Definition midJanuary : Date := mkDate 2025 0 15.

Definition jobsBgContext : ScrapingContext :=
  {| url := "https://www.jobs.bg/front_job_search.php";
     siteName := "jobs.bg"; page := 1; startTime := 0;
     totalRequestCount := 0; lastError := None |}.

Definition exampleContext : ScrapingContext :=
  {| url := "https://example.com/jobs";
     siteName := "example"; page := 1; startTime := 0;
     totalRequestCount := 0; lastError := None |}.

(** A free strategy whose navigation fails every time. *)
Definition offlineStrategy : ScrapingStrategy :=
  fun _ => Rejected "net::ERR_CONNECTION_RESET".

Definition challengePage : BrowserScrapingResponse :=
  {| html := "<title>geo.captcha-delivery.com/captcha</title>";
     finalUrl := "https://www.jobs.bg/front_job_search.php";
     status := 403; headers := []; success := true; error := None;
     loadTime := 1200; cookies := []; metadata := None |}.

(** A free strategy that is served the challenge page. *)
Definition challengedStrategy : ScrapingStrategy :=
  fun _ => Resolved challengePage.

Definition ledgerAt (used : Z) : CreditTracker.Tracker :=
  {| CreditTracker.monthlyUsage := <["scraperapi_2025_0" := used]> ∅;
     CreditTracker.lastReset := mkDate 2025 0 1 |}.

(** The provider answers, but without content. *)
Definition emptyPaidResponse : PaidScrapingResponse :=
  {| paidHtml := ""; paidSuccess := false; paidCredits := 0;
     processingTime := 900; paidError := Some "Request failed with status code 500";
     paidMetadata := None |}.

Definition envWith (cfg : Config.PaidServices) (draw : Z -> Q)
    (paid : outcome PaidScrapingResponse) : Env :=
  {| config := cfg; now := midJanuary; random := draw;
     scrapeWithScraperAPI := fun _ => paid |}.

Definition halfDraw : Z -> Q := fun _ => (1 # 2)%Q.

(** A large draw after the first attempt, a small one after the second. *)
Definition fallingDraw : Z -> Q :=
  fun n => if n =? 1 then (9 # 10)%Q else (1 # 10)%Q.

(** A policy whose jitter bound exceeds the growth of the first delay. *)
Definition wideJitterPolicy : Config.Retry :=
  {| Config.maxAttempts := 3; Config.baseDelayMs := 1000;
     Config.exponentialBase := 2; Config.jitterMs := 5000 |}.

(** A configuration in which a request for the site "example" costs 2. *)
Definition twoCreditConfig : Config.PaidServices :=
  {| Config.scraperapi :=
       Some {| Config.freeMonthlyLimit := Some 1000;
               Config.creditsPerRequest :=
                 Some (<["example" := 2]> (<["default" := 1]> ∅)) |};
     Config.scrapingdog := None;
     Config.persistToDb := false;
     Config.retry := None |}.

Definition defaultOptions : Options :=
  {| retryConfig := None; enablePaidFallback := None; isBlockedChecker := None |}.

Definition detectorOptions (paidFallback : bool) : Options :=
  {| retryConfig := None; enablePaidFallback := Some paidFallback;
     isBlockedChecker := Some AntiBypass.isContentBlocked |}.

(** *** The session registry *)

Definition quietEnv (clock : Z) (draw : string) : BrowserEngine.Env :=
  {| BrowserEngine.now := clock; BrowserEngine.randomText := draw;
     BrowserEngine.launchError := None; BrowserEngine.contextError := None;
     BrowserEngine.closeError := None |}.

(** A session for [jobsBgConfig] that was last used at time 0. *)
Definition oldSession : BrowserEngine.Session :=
  {| BrowserEngine.id :=
       BrowserEngine.generateSessionId (quietEnv 0 "0.5")
         BrowserEngine.jobsBgConfig false;
     BrowserEngine.config := BrowserEngine.jobsBgConfig;
     BrowserEngine.createdAt := 0; BrowserEngine.lastActivity := 0;
     BrowserEngine.requestCount := 4; BrowserEngine.context := 0 |}.

Definition engineWithOldSession : BrowserEngine.Engine :=
  {| BrowserEngine.browser := true;
     BrowserEngine.sessions := {[ BrowserEngine.id oldSession := oldSession ]};
     BrowserEngine.contextsCreated := 1;
     BrowserEngine.contextsClosed := [] |}.

End Scenarios.

(** ** More of the credit ledger: statistics and cost estimates *)

Module LedgerReports.
Import Js CreditTracker.

(** A series of [trackUsage] calls made at one time. *)
Definition trackAll (now : Date) (usages : list CreditUsage) (t : Tracker) : Tracker :=
  fold_left (fun acc usage => trackUsage now usage acc) usages t.

(** The credits that a series of usages records for one service. *)
Definition creditsFor (serviceName : string) (usages : list CreditUsage) : Z :=
  foldr (fun usage acc =>
           if String.eqb (service usage) serviceName then credits usage + acc else acc)
        0 usages.

(** [Array.from(this.monthlyUsage.values()).reduce((sum, c) => sum + c, 0)]. *)
Definition totalCredits (t : Tracker) : Z :=
  map_fold (fun _ value sum => sum + value) 0 (monthlyUsage t).

(** The fields of [getUsageStats] that are computed. *)
Record UsageStats := mkUsageStats {
  statsTotalCredits : Z;
  averageCreditsPerRequest : Z;
  scraperapiCredits : Z;
  scrapingdogCredits : Z
}.

Definition getUsageStats (now : Date) (t : Tracker) : UsageStats :=
  let total := totalCredits t in
  {| statsTotalCredits := total;
     averageCreditsPerRequest := if 0 <? total then total / 1 else 0;
     scraperapiCredits := usageOf t (usageKey "scraperapi" now);
     scrapingdogCredits := usageOf t (usageKey "scrapingdog" now) |}.

Record CostEstimate := mkCostEstimate {
  freeCreditsUsed : Z;
  paidCreditsNeeded : Z;
  estimatedCost : Q
}.

(** The loop over [Object.entries(requestsPerSite)]. *)
Definition totalCreditsNeeded (cfg : Config.PaidServices)
    (requestsPerSite : list (string * Z)) : Z :=
  fold_left (fun total entry =>
               total + entry.2 * getCreditCost cfg entry.1 "scraperapi")
            requestsPerSite 0.

Definition estimateMonthlyCost (cfg : Config.PaidServices)
    (requestsPerSite : list (string * Z)) : CostEstimate :=
  let totalNeeded := totalCreditsNeeded cfg requestsPerSite in
  let freeLimit := scraperApiLimit cfg in
  let paid := Z.max 0 (totalNeeded - freeLimit) in
  {| freeCreditsUsed := Z.min totalNeeded freeLimit;
     paidCreditsNeeded := paid;
     estimatedCost := (inject_Z paid * (49 # 100000))%Q |}.

(** The character [c] does not occur in the string. *)
Fixpoint freeOf (c : ascii) (s : string) : Prop :=
  match s with
  | EmptyString => True
  | String a rest => a <> c /\ freeOf c rest
  end.

(** Every configured credit cost is a non-negative number. *)
Definition costsNonNegative (cfg : Config.PaidServices) : Prop :=
  forall api table site cost,
    Config.scraperapi cfg = Some api ->
    Config.creditsPerRequest api = Some table ->
    table !! site = Some cost -> 0 <= cost.

Definition scraperapiUsage (siteName : string) (amount : Z) : CreditUsage :=
  {| service := "scraperapi"; site := siteName; credits := amount;
     url := ""; successful := true |}.

End LedgerReports.

(** ** The monitoring endpoints: [ScraperMonitoringController] *)

Module Monitoring.
Import Js CreditTracker.

Definition upper_ascii (c : ascii) : ascii :=
  let n := N_of_ascii c in
  if ((97 <=? n) && (n <=? 122))%N then ascii_of_N (n - 32) else c.

(** [String.prototype.toUpperCase], as far as the ASCII letters go; the
    service names it is applied to are ASCII. *)
Fixpoint toUpperCase (s : string) : string :=
  match s with
  | EmptyString => EmptyString
  | String c r => String (upper_ascii c) (toUpperCase r)
  end.

Inductive UsageStatus : Type := Low | Medium | High | Critical.

Definition getUsageStatus (percentage : Q) : UsageStatus :=
  if Qle_bool 95 percentage then Critical
  else if Qle_bool 80 percentage then High
  else if Qle_bool 50 percentage then Medium
  else Low.

Record ServiceUsage := mkServiceUsage {
  percentage : Q;
  status : UsageStatus
}.

(** The object with the fields [scraperapi] and [scrapingdog], as
    [Object.entries] lists it. *)
Definition getUsagePercentagesInternal (cfg : Config.PaidServices) (now : Date)
    (t : Tracker) : list (string * ServiceUsage) :=
  let scraperAPIUsage := getUsagePercentage cfg now t "scraperapi" in
  let scrapingDogUsage := getUsagePercentage cfg now t "scrapingdog" in
  [ ("scraperapi", {| percentage := scraperAPIUsage;
                      status := getUsageStatus scraperAPIUsage |});
    ("scrapingdog", {| percentage := scrapingDogUsage;
                       status := getUsageStatus scrapingDogUsage |}) ].

Inductive Severity : Type := Info | Warning | Error.

Record Alert := mkAlert {
  alertType : string;
  message : string;
  severity : Severity
}.

(** The body of the [forEach] callback. *)
Definition alertsFor (entry : string * ServiceUsage) : list Alert :=
  let '(serviceName, data) := entry in
  match status data with
  | Critical =>
      [ {| alertType := "credit_usage";
           message := toUpperCase serviceName +:+ " usage is critical ("
                      +:+ toFixed1 (percentage data)
                      +:+ "%). Consider monitoring closely.";
           severity := Error |} ]
  | High =>
      [ {| alertType := "credit_usage";
           message := toUpperCase serviceName +:+ " usage is high ("
                      +:+ toFixed1 (percentage data)
                      +:+ "%). Monitor usage carefully.";
           severity := Warning |} ]
  | _ => []
  end.

Definition allClear : Alert :=
  {| alertType := "credit_usage";
     message := "All services are operating within normal usage limits.";
     severity := Info |}.

Definition generateAlerts (usage : list (string * ServiceUsage)) : list Alert :=
  let alerts := flat_map alertsFor usage in
  match alerts with
  | [] => [allClear]
  | _ => alerts
  end.

Definition isUrgent (entry : string * ServiceUsage) : bool :=
  match status entry.2 with Critical | High => true | _ => false end.

Definition severityOf (entry : string * ServiceUsage) : Severity :=
  match status entry.2 with Critical => Error | _ => Warning end.

(** What an endpoint answers. *)
Record Reply := mkReply {
  replySuccess : bool;
  replyMessage : option string;
  replyError : option string
}.

(** [resetUsage]: the reset never throws, so the [catch] branch is not
    taken. *)
Definition resetUsage (now : Date) (t : Tracker) : Reply * Tracker :=
  ({| replySuccess := true;
      replyMessage := Some "Usage counters reset successfully";
      replyError := None |},
   resetMonthlyUsage now t).

End Monitoring.

(** ** The paid provider front: [PaidScraperService] *)

Module PaidScraper.
Import Js.

(** The two fields of a service's configuration that decide whether it
    is available. *)
Record Credentials := mkCredentials {
  enabled : option bool;
  apiKey : option string
}.

(** [config?.enabled && !!config?.apiKey], as a condition. *)
Definition isAvailable (c : option Credentials) : bool :=
  match c with
  | Some c => default false (enabled c) && JsString.truthy (default "" (apiKey c))
  | None => false
  end.

Definition getAvailableServices (api dog : option Credentials) : list string :=
  (if isAvailable api then ["scraperapi"] else [])
  ++ (if isAvailable dog then ["scrapingdog"] else []).

Definition exhaustedMessage : string :=
  "All paid scraping services exhausted or unavailable".

(** [scrapeWithFallback], with the two provider calls as what they
    settle to; the second component lists the providers called. *)
Definition scrapeWithFallback (api dog : option Credentials)
    (scraperApiCall dogCall : outcome Orchestrator.PaidScrapingResponse)
  : outcome Orchestrator.PaidScrapingResponse * list string :=
  let tryDog (called : list string) :=
    if isAvailable dog then
      match dogCall with
      | Resolved response => (Resolved response, called ++ ["scrapingdog"])
      | Rejected _ => (Rejected exhaustedMessage, called ++ ["scrapingdog"])
      end
    else (Rejected exhaustedMessage, called) in
  if isAvailable api then
    match scraperApiCall with
    | Resolved response => (Resolved response, ["scraperapi"])
    | Rejected _ => tryDog ["scraperapi"]
    end
  else tryDog [].

(** [calculateCredits]: [config?.creditsPerRequest[siteName]] raises a
    [TypeError] when the configuration has no cost table. *)
Definition calculateCredits (cfg : Config.PaidServices) (siteName service : string)
  : outcome Z :=
  if String.eqb service "scraperapi" then
    match Config.scraperapi cfg with
    | None => Resolved 1
    | Some api =>
        match Config.creditsPerRequest api with
        | None =>
            Rejected ("Cannot read properties of undefined (reading '"
                      +:+ siteName +:+ "')")
        | Some table =>
            Resolved (orNum (table !! siteName) (orNum (table !! "default") 1))
        end
    end
  else Resolved 1.

(** [testService]: every failure inside is reported as [false]. *)
Definition testService (serviceName : string)
    (scraperApiCall dogCall : outcome Orchestrator.PaidScrapingResponse)
  : outcome bool :=
  let check (call : outcome Orchestrator.PaidScrapingResponse) : outcome bool :=
    match call with
    | Resolved result =>
        Resolved (Orchestrator.paidSuccess result
                  && JsString.includes (Orchestrator.paidHtml result) "html")
    | Rejected message => Rejected message
    end in
  let body :=
    if String.eqb serviceName "scraperapi" then check scraperApiCall
    else if String.eqb serviceName "scrapingdog" then check dogCall
    else Rejected ("Unknown service: " +:+ serviceName) in
  match body with
  | Resolved verdict => Resolved verdict
  | Rejected _ => Resolved false
  end.

Inductive Health : Type := Healthy | Unhealthy | HealthError (reason : string).

(** The loop of [testServicesInternal] over the available services. *)
Definition testServicesInternal (api dog : option Credentials)
    (scraperApiCall dogCall : outcome Orchestrator.PaidScrapingResponse)
  : list (string * Health) :=
  map (fun serviceName =>
         (serviceName,
          match testService serviceName scraperApiCall dogCall with
          | Resolved true => Healthy
          | Resolved false => Unhealthy
          | Rejected reason => HealthError reason
          end))
      (getAvailableServices api dog).

End PaidScraper.

(** ** Descriptions of runs of the orchestrator *)

Module OrchestratorRuns.
Import Js Orchestrator.

(** The context that the [i]-th attempt of a call hands to the strategy:
    the caller's context after [i] increments of the request counter. *)
Fixpoint attemptContext (ctx : ScrapingContext) (i : nat) : ScrapingContext :=
  match i with
  | O => ctx
  | S k => attemptContext (countRequest ctx) k
  end.

(** The attempt made with [ctx] returns a document that passes the
    checks of the loop. *)
Definition succeedsWith (strategy : ScrapingStrategy)
    (checker : option (string -> bool)) (ctx : ScrapingContext)
    (response : BrowserScrapingResponse) : Prop :=
  strategy ctx = Resolved response /\
  success response = true /\
  JsString.truthy (html response) = true /\
  forall isBlocked, checker = Some isBlocked -> isBlocked (html response) = false.

(** A free part that consists of attempts numbered from [attempt] on,
    with the retry delay of the attempt before slept between any two of
    them, and nothing after the last attempt. *)
Fixpoint pacedFrom (env : Env) (rc : Config.Retry) (attempt : Z)
    (trace : list Event) : Prop :=
  match trace with
  | [FreeAttempt n _] => n = attempt
  | FreeAttempt n _ :: Slept delay :: rest =>
      n = attempt /\
      delay = retryDelay rc n (random env n) /\
      pacedFrom env rc (attempt + 1) rest
  | _ => False
  end.

(** A free strategy that fails for the first [failures] attempts of a
    call and then returns [page]. *)
Definition recoveringStrategy (failures : Z) (page : BrowserScrapingResponse)
  : ScrapingStrategy :=
  fun ctx =>
    if totalRequestCount ctx <=? failures
    then Rejected "net::ERR_CONNECTION_RESET"
    else Resolved page.

Definition listingPage : BrowserScrapingResponse :=
  {| html := AntiBypass.paddedPage 600
               "<ul><li class=mdc-card>Java developer job</li></ul>";
     finalUrl := "https://example.com/jobs";
     status := 200; headers := []; success := true; error := None;
     loadTime := 800; cookies := []; metadata := None |}.

Definition paidPage : PaidScrapingResponse :=
  {| paidHtml := AntiBypass.paddedPage 600
                   "<ul><li class=mdc-card>Java developer job</li></ul>";
     paidSuccess := true; paidCredits := 10; processingTime := 4000;
     paidError := None; paidMetadata := None |}.

End OrchestratorRuns.

(** ** More of the session registry: shutdown, and sequences of calls *)

Module EnginePool.
Import Js BrowserEngine.

(** The part of the environment that [closeSession] looks at. *)
Definition closingEnv (failure : option string) : Env :=
  {| now := 0; randomText := ""; launchError := None; contextError := None;
     closeError := failure |}.

(** [closeAllSessions]: [closeSession] for every registered id;
    [closeFailure] tells for which ids [context.close()] raises. *)
Definition closeAllSessions (closeFailure : string -> option string) (e : Engine)
  : Engine :=
  foldr (fun sessionId acc => closeSession (closingEnv (closeFailure sessionId))
                                sessionId acc)
        e (map fst (map_to_list (sessions e))).

(** [getStats().activeSessions]. *)
Definition activeSessions (e : Engine) : nat := size (sessions e).

(** One public call on the registry; results are dropped, the registry
    is kept. *)
Inductive Call : Type :=
| Acquire (env : Env) (config : BrowserSessionConfig)
| Close (env : Env) (sessionId : string)
| Rotate (env : Env) (sessionId : string)
| CloseAll (closeFailure : string -> option string).

Definition perform (e : Engine) (call : Call) : Engine :=
  match call with
  | Acquire env config => (getSession env config e).2
  | Close env sessionId => closeSession env sessionId e
  | Rotate env sessionId => (rotateSession env sessionId e).2
  | CloseAll closeFailure => closeAllSessions closeFailure e
  end.

Definition performAll (calls : list Call) (e : Engine) : Engine :=
  fold_left perform calls e.

(** Registered sessions sit on contexts that exist, are open, and are
    not shared; contexts are closed at most once. *)
Record poolSound (e : Engine) : Prop := mkPoolSound {
  soundIds : registryConsistent e;
  soundLive : forall key session,
      sessions e !! key = Some session ->
      (context session < contextsCreated e)%nat /\
      ~ In (context session) (contextsClosed e);
  soundApart : forall key1 key2 session1 session2,
      sessions e !! key1 = Some session1 ->
      sessions e !! key2 = Some session2 ->
      context session1 = context session2 -> key1 = key2;
  soundClosed : NoDup (contextsClosed e) /\
                forall c, In c (contextsClosed e) -> (c < contextsCreated e)%nat
}.

Definition isHexDigit (c : ascii) : bool :=
  let n := N_of_ascii c in
  (((48 <=? n) && (n <=? 57)) || ((97 <=? n) && (n <=? 102)))%N.

Fixpoint allHex (s : string) : bool :=
  match s with
  | EmptyString => true
  | String c rest => isHexDigit c && allHex rest
  end.

(** The fields of a configuration that the session key is made of. *)
Definition sameKeyFields (a b : BrowserSessionConfig) : Prop :=
  siteName a = siteName b /\
  orStr (userAgent a) "default" = orStr (userAgent b) "default" /\
  headless a = headless b /\
  default false (stealth a) = default false (stealth b).

Definition lightConfig : BrowserSessionConfig :=
  {| siteName := "jobs.bg"; headless := Some false; stealth := Some true;
     userAgent := Some ""; loadImages := Some false; timeout := Some 5000 |}.

End EnginePool.

(** ** Scrolling a listing page: [BrowserEngineService.performInfiniteScroll] *)

Module InfiniteScroll.
Import Js.

(** The operations the function performs on the page.  Waiting times and
    pointer coordinates are random and do not steer the loop; only the
    scroll target is kept. *)
Inductive PageOp : Type :=
| ReadHeight
| SmoothScroll (target : Q)
| WaitForTimeout
| ScrollToBottom
| MouseMove
| ScrollToTop.

(** The page as the function meets it: the height its k-th reading of
    [document.body.scrollHeight] reports, and whether the k-th operation
    performed on it raises. *)
Record Page := mkPage {
  scrollHeight : nat -> Z;
  pageError : nat -> option string
}.

(** Operations run in order and are recorded, oldest first; a raising
    operation rejects the whole call, which has no handler. *)
Definition P (A : Type) : Type := list PageOp -> outcome A * list PageOp.

Definition ret {A} (a : A) : P A := fun trace => (Resolved a, trace).

Definition bind {A B} (m : P A) (k : A -> P B) : P B :=
  fun trace =>
    match m trace with
    | (Resolved a, trace') => k a trace'
    | (Rejected message, trace') => (Rejected message, trace')
    end.

Notation "'let!' x := m 'in' k" := (bind m (fun x => k))
  (at level 10, x name, m at level 100, k at level 200).
Notation "'do!' m 'in' k" := (bind m (fun _ => k))
  (at level 10, m at level 100, k at level 200).

Definition isRead (op : PageOp) : bool :=
  match op with ReadHeight => true | _ => false end.

Definition isBottom (op : PageOp) : bool :=
  match op with ScrollToBottom => true | _ => false end.

Definition isMouseMove (op : PageOp) : bool :=
  match op with MouseMove => true | _ => false end.

Definition countOps (f : PageOp -> bool) (trace : list PageOp) : nat :=
  length (List.filter f trace).

Definition perform (page : Page) (op : PageOp) : P unit :=
  fun trace =>
    match pageError page (length trace) with
    | Some message => (Rejected message, trace ++ [op])
    | None => (Resolved tt, trace ++ [op])
    end.

Definition readHeight (page : Page) : P Z :=
  fun trace =>
    match pageError page (length trace) with
    | Some message => (Rejected message, trace ++ [ReadHeight])
    | None => (Resolved (scrollHeight page (countOps isRead trace)),
               trace ++ [ReadHeight])
    end.

Definition maxAttempts : nat := 15.

(** [currentHeight * scrollStep] with [scrollStep = 0.8]. *)
Definition targetHeight (currentHeight : Z) : Q := (inject_Z currentHeight * (4 # 5))%Q.

(** The loop [while (previousHeight !== currentHeight && attempts <
    maxAttempts)], by recursion on [maxAttempts - attempts]. *)
Fixpoint scrollLoop (page : Page) (remaining : nat)
    (previousHeight currentHeight : Z) (attempts : nat) : P nat :=
  if previousHeight =? currentHeight then ret attempts
  else
    match remaining with
    | O => ret attempts
    | S rest =>
        do! perform page (SmoothScroll (targetHeight currentHeight)) in
        do! perform page WaitForTimeout in
        do! perform page ScrollToBottom in
        do! perform page WaitForTimeout in
        let! newHeight := readHeight page in
        let attempts' := S attempts in
        do! (if (attempts' mod 3 =? 0)%nat then perform page MouseMove else ret tt) in
        scrollLoop page rest currentHeight newHeight attempts'
    end.

Definition performInfiniteScroll (page : Page) : P unit :=
  let! currentHeight := readHeight page in
  let! attempts := scrollLoop page maxAttempts 0 currentHeight 0 in
  do! perform page ScrollToTop in
  perform page WaitForTimeout.

(** The height the loop compares the k-th later reading with: 0 before the
    first pass, the reading before it afterwards. *)
Definition previousOf (page : Page) (k : nat) : Z :=
  match k with
  | O => 0
  | S j => scrollHeight page j
  end.

(** A page on which nothing raises. *)
Definition steady (heights : nat -> Z) : Page :=
  {| scrollHeight := heights; pageError := fun _ => None |}.

End InfiniteScroll.

(** ** Fetching a page: [BrowserEngineService.fetchPage] and [getStats] *)

Module PageFetch.
Import Js BrowserEngine.

(** [this.stats]. *)
Record Stats := mkStats {
  totalRequests : Z;
  totalLoadTime : Z;
  successfulRequests : Z
}.

Definition noStats : Stats :=
  {| totalRequests := 0; totalLoadTime := 0; successfulRequests := 0 |}.

Record FetchOptions := mkFetchOptions {
  infiniteScroll : option bool;
  stealthMode : option bool;
  warmup : option bool
}.

(** What [page.goto] resolves to, when it is not [null]. *)
Record Navigation := mkNavigation {
  navStatus : Z;
  navHeaders : list (string * string)
}.

(** What one call observes of the page and the clock: the four readings
    of the clock in the order the call takes them, and the settlement of
    each awaited page operation.  Cookies are carried as the copies the
    response holds. *)
Record PageRun := mkPageRun {
  clock : nat -> Z;
  stealthPrelude : outcome unit;
  waited : outcome unit;
  navigated : outcome (option Navigation);
  loadState : outcome unit;
  mouseMoved : outcome unit;
  selectorFound : outcome unit;
  scrollPage : InfiniteScroll.Page;
  content : outcome string;
  pageUrl : string;
  cookiesRead : outcome (list string)
}.

Definition andThen {A B} (o : outcome A) (k : A -> outcome B) : outcome B :=
  match o with
  | Resolved a => k a
  | Rejected message => Rejected message
  end.

(** [try { await operation } catch { }]. *)
Definition swallowed (operation : outcome unit) : outcome unit :=
  match operation with
  | Resolved _ | Rejected _ => Resolved tt
  end.

Definition isTrue (o : option bool) : bool := default false o.

(** The statements of the [try] block up to the reading of the cookies. *)
Definition tryBlock (run : PageRun) (session : Session) (options : FetchOptions)
  : outcome (Navigation * string * list string) :=
  andThen (waited run) (fun _ =>
  andThen (navigated run) (fun response =>
  match response with
  | None => Rejected "No response received from page navigation"
  | Some response =>
      andThen (loadState run) (fun _ =>
      andThen (mouseMoved run) (fun _ =>
      andThen (if String.eqb (siteName (config session)) "jobs.bg"
               then swallowed (selectorFound run) else Resolved tt) (fun _ =>
      andThen (if isTrue (infiniteScroll options)
               then (InfiniteScroll.performInfiniteScroll (scrollPage run) []).1
               else Resolved tt) (fun _ =>
      andThen (content run) (fun html =>
      andThen (cookiesRead run) (fun cookies =>
      Resolved (response, html, cookies)))))))
  end)).

Definition fetchFailure (url message : string) (loadTime : Z)
  : Orchestrator.BrowserScrapingResponse :=
  {| Orchestrator.html := ""; Orchestrator.finalUrl := url;
     Orchestrator.status := 0; Orchestrator.headers := [];
     Orchestrator.success := false; Orchestrator.error := Some message;
     Orchestrator.loadTime := loadTime; Orchestrator.cookies := [];
     Orchestrator.metadata := None |}.

(** [fetchPage]: the response, the session object as the call leaves it,
    and the statistics.  The stealth prelude runs inside its own handler
    and leaves nothing behind; the activity stamp written at the start of
    the [try] block (the clock's reading 1) is overwritten by the one of
    the [finally] block (reading 3). *)
Definition fetchPage (run : PageRun) (url : string) (session : Session)
    (options : FetchOptions) (stats : Stats)
  : Orchestrator.BrowserScrapingResponse * Session * Stats :=
  let _ := if isTrue (stealthMode options) then swallowed (stealthPrelude run)
           else Resolved tt in
  let startTime := clock run 0%nat in
  let session' :=
    {| id := id session; config := config session; createdAt := createdAt session;
       lastActivity := clock run 3%nat;
       requestCount := requestCount session + 1;
       context := context session |} in
  let loadTime := clock run 2%nat - startTime in
  match tryBlock run session options with
  | Resolved (response, html, cookies) =>
      ({| Orchestrator.html := html; Orchestrator.finalUrl := pageUrl run;
          Orchestrator.status := navStatus response;
          Orchestrator.headers := navHeaders response;
          Orchestrator.success := true; Orchestrator.error := None;
          Orchestrator.loadTime := loadTime; Orchestrator.cookies := cookies;
          Orchestrator.metadata := None |},
       session',
       {| totalRequests := totalRequests stats + 1;
          totalLoadTime := totalLoadTime stats + loadTime;
          successfulRequests := successfulRequests stats + 1 |})
  | Rejected message =>
      (fetchFailure url message loadTime,
       session',
       {| totalRequests := totalRequests stats + 1;
          totalLoadTime := totalLoadTime stats + loadTime;
          successfulRequests := successfulRequests stats |})
  end.

(** [Math.round]: the nearest integer, ties upwards. *)
Definition mathRound (x : Q) : Z := Qfloor (x + (1 # 2))%Q.

Record StatsReport := mkStatsReport {
  activeSessions : nat;
  reportedRequests : Z;
  averageLoadTime : Z;
  successRate : Q
}.

Definition getStats (e : Engine) (stats : Stats) : StatsReport :=
  let average :=
    if 0 <? totalRequests stats
    then (inject_Z (totalLoadTime stats) / inject_Z (totalRequests stats))%Q
    else 0%Q in
  let rate :=
    if 0 <? totalRequests stats
    then (inject_Z (successfulRequests stats) / inject_Z (totalRequests stats))%Q
    else 0%Q in
  {| activeSessions := EnginePool.activeSessions e;
     reportedRequests := totalRequests stats;
     averageLoadTime := mathRound average;
     successRate := (inject_Z (mathRound (rate * 100)) / 100)%Q |}.

(** One fetch as the statistics see it. *)
Record Fetch := mkFetch {
  fetchRun : PageRun;
  fetchUrl : string;
  fetchSession : Session;
  fetchOptions : FetchOptions
}.

Definition statsAfter (fetches : list Fetch) (stats : Stats) : Stats :=
  fold_left (fun acc f =>
               (fetchPage (fetchRun f) (fetchUrl f) (fetchSession f)
                  (fetchOptions f) acc).2)
            fetches stats.

Definition responseOf (f : Fetch) : Orchestrator.BrowserScrapingResponse :=
  (fetchPage (fetchRun f) (fetchUrl f) (fetchSession f) (fetchOptions f) noStats).1.1.

(** The time between the first and the third reading of the clock. *)
Definition elapsed (f : Fetch) : Z :=
  clock (fetchRun f) 2%nat - clock (fetchRun f) 0%nat.

Definition successes (fetches : list Fetch) : Z :=
  Z.of_nat (length (List.filter (fun f => Orchestrator.success (responseOf f)) fetches)).

Definition sumZ (l : list Z) : Z := fold_right Z.add 0 l.

(** The run in which waiting for the job cards and the stealth prelude
    settle as given. *)
Definition withSideSteps (run : PageRun) (prelude selector : outcome unit) : PageRun :=
  {| clock := clock run; stealthPrelude := prelude; waited := waited run;
     navigated := navigated run; loadState := loadState run;
     mouseMoved := mouseMoved run; selectorFound := selector;
     scrollPage := scrollPage run; content := content run;
     pageUrl := pageUrl run; cookiesRead := cookiesRead run |}.

End PageFetch.

(** ** The jobs.bg strategy: [AntiBypassService.executeJobsBgBypass] *)

Module Bypass.
Import Js JsString BrowserEngine PageFetch.

(** The engine service as the bypass uses it: the registry and the
    statistics. *)
Record Service := mkService {
  engine : Engine;
  stats : Stats
}.

(** What one run observes: the environment variable, the environment of
    the session lookup, for each of the four guarded page operations
    whether the page is closed and how the operation settles, and the two
    fetches. *)
Record BypassRun := mkBypassRun {
  forceHeadless : bool;
  sessionEnv : Env;
  pageClosed : nat -> bool;
  pageOperation : nat -> outcome unit;
  homepageRun : PageRun;
  targetRun : PageRun
}.

Record BypassOptions := mkBypassOptions {
  wantInfiniteScroll : option bool;
  wantWarmup : option bool
}.

Definition desktopUserAgent : string :=
  "Mozilla/5.0 (Macintosh; Intel Mac OS X 10_15_7) AppleWebKit/537.36 (KHTML, like Gecko) Chrome/91.0.4472.124 Safari/537.36".

Definition bypassConfig (forceHeadless : bool) : BrowserSessionConfig :=
  {| siteName := "jobs.bg";
     headless := Some (if forceHeadless then true else false);
     stealth := Some true;
     userAgent := Some desktopUserAgent;
     loadImages := Some true;
     timeout := Some 120000 |}.

Definition isConnectionError (message : string) : bool :=
  includes message "Target page, context or browser has been closed"
  || includes message "browser has been closed"
  || includes message "context has been closed".

(** [safePageOperation]: [None] is the [null] it returns when the page is
    gone. *)
Definition safePageOperation {T} (closed : bool) (operation : outcome T)
  : outcome (option T) :=
  if closed then Resolved None
  else
    match operation with
    | Resolved value => Resolved (Some value)
    | Rejected message =>
        if isConnectionError message then Resolved None else Rejected message
    end.

Definition guarded (run : BypassRun) (k : nat) : outcome (option unit) :=
  safePageOperation (pageClosed run k) (pageOperation run k).

(** The session object handed to [fetchPage] is the one the registry
    holds: what the fetch writes to it shows in the registry entry. *)
Definition shareSession (session : Session) (e : Engine) : Engine :=
  match sessions e !! id session with
  | Some _ =>
      {| browser := browser e;
         sessions := <[id session := session]> (sessions e);
         contextsCreated := contextsCreated e;
         contextsClosed := contextsClosed e |}
  | None => e
  end.

Definition fetchShared (run : PageRun) (url : string) (session : Session)
    (options : FetchOptions) (svc : Service)
  : Orchestrator.BrowserScrapingResponse * Session * Service :=
  let '(response, session', stats') :=
    fetchPage run url session options (stats svc) in
  (response, session',
   {| engine := shareSession session' (engine svc); stats := stats' |}).

Definition homepageOptions : FetchOptions :=
  {| infiniteScroll := None; stealthMode := Some true; warmup := Some false |}.

(** [{ ...options, stealth: true, warmup: false }]. *)
Definition targetOptions (options : option BypassOptions) : FetchOptions :=
  {| infiniteScroll := match options with
                       | Some o => wantInfiniteScroll o
                       | None => None
                       end;
     stealthMode := Some true; warmup := Some false |}.

Definition executeMultiPhaseBypass (run : BypassRun) (session : Session)
    (targetUrl : string) (options : option BypassOptions) (svc : Service)
  : outcome Orchestrator.BrowserScrapingResponse * Service :=
  match guarded run 0 with
  | Rejected message => (Rejected message, svc)
  | Resolved _ =>
      let '(_, session1, svc1) :=
        fetchShared (homepageRun run) "https://www.jobs.bg" session
          homepageOptions svc in
      match guarded run 1 with
      | Rejected message => (Rejected message, svc1)
      | Resolved _ =>
          match guarded run 2 with
          | Rejected message => (Rejected message, svc1)
          | Resolved _ =>
              match guarded run 3 with
              | Rejected message => (Rejected message, svc1)
              | Resolved _ =>
                  let '(response, _, svc2) :=
                    fetchShared (targetRun run) targetUrl session1
                      (targetOptions options) svc1 in
                  (Resolved response, svc2)
              end
          end
      end
  end.

Definition bypassFailure (url message : string)
  : Orchestrator.BrowserScrapingResponse :=
  {| Orchestrator.html := ""; Orchestrator.finalUrl := url;
     Orchestrator.status := 0; Orchestrator.headers := [];
     Orchestrator.success := false; Orchestrator.error := Some message;
     Orchestrator.loadTime := 0; Orchestrator.cookies := [];
     Orchestrator.metadata := None |}.

(** [executeJobsBgBypass].  The [try] block awaits the multi-phase run
    and ends without a [return]: [None] is the [undefined] the call then
    resolves to. *)
Definition executeJobsBgBypass (run : BypassRun) (url : string)
    (options : option BypassOptions) (svc : Service)
  : option Orchestrator.BrowserScrapingResponse * Service :=
  match getSession (sessionEnv run) (bypassConfig (forceHeadless run)) (engine svc) with
  | (Rejected message, e') =>
      (Some (bypassFailure url message), {| engine := e'; stats := stats svc |})
  | (Resolved session, e') =>
      match executeMultiPhaseBypass run session url options
              {| engine := e'; stats := stats svc |} with
      | (Resolved _, svc') => (None, svc')
      | (Rejected message, svc') => (Some (bypassFailure url message), svc')
      end
  end.

(** The message of the [TypeError] that reading [response.success] raises
    when [response] is [undefined]. *)
Definition undefinedResponseMessage : string :=
  "Cannot read properties of undefined (reading 'success')".

(** The free strategy of the jobs.bg scraper:
    [execute: async (ctx) => await this.antiBypass.executeJobsBgBypass(ctx.url,
    { infiniteScroll: true, warmup: false })].  [world] gives what each
    invocation observes and the state of the engine it finds.  The
    orchestrator reads [response.success] first, which raises inside its
    [try] block when the strategy resolved to [undefined]. *)
Definition jobsBgStrategy (world : Orchestrator.ScrapingContext -> BypassRun * Service)
  : Orchestrator.ScrapingStrategy :=
  fun ctx =>
    let '(run, svc) := world ctx in
    match (executeJobsBgBypass run (Orchestrator.url ctx)
             (Some {| wantInfiniteScroll := Some true; wantWarmup := Some false |})
             svc).1 with
    | Some response => Resolved response
    | None => Rejected undefinedResponseMessage
    end.

End Bypass.

(** * Properties *)

(** ** Facts about the string primitives *)

Module JsStringFacts.
Import JsString.

Lemma startsWith_spec s p :
  startsWith s p = true <-> exists t, s = p +:+ t.
Proof.
  revert s; induction p as [|a p IH]; intros s; simpl.
  - split; [intros _; now exists s | reflexivity].
  - destruct s as [|b s]; simpl.
    + split; [discriminate | intros [t Ht]; discriminate].
    + destruct (Ascii.eqb_spec a b) as [->|Hne].
      * rewrite IH. split; intros [t Ht]; exists t.
        -- now rewrite Ht.
        -- now inversion Ht.
      * split; [discriminate | intros [t Ht]; inversion Ht; congruence].
Qed.

Lemma includes_spec hay needle :
  includes hay needle = true <->
  exists pre suf, hay = pre +:+ needle +:+ suf.
Proof.
  induction hay as [|c hay IH]; simpl.
  - rewrite orb_false_r, startsWith_spec. split.
    + intros [t Ht]. now exists EmptyString, t.
    + intros [pre [suf H]]. destruct pre; simpl in H; [now exists suf | discriminate].
  - rewrite orb_true_iff, startsWith_spec, IH. split.
    + intros [[t Ht] | [pre [suf H]]].
      * now exists EmptyString, t.
      * exists (String c pre), suf. simpl. now rewrite H.
    + intros [pre [suf H]]. destruct pre as [|d pre]; simpl in H.
      * left. now exists suf.
      * right. inversion H. now exists pre, suf.
Qed.

Lemma length_toLowerCase s : String.length (toLowerCase s) = String.length s.
Proof. induction s; simpl; congruence. Qed.

Lemma toLowerCase_app s t : toLowerCase (s +:+ t) = toLowerCase s +:+ toLowerCase t.
Proof. induction s as [|c s IH]; simpl; [reflexivity | now rewrite IH]. Qed.

Lemma lower_ascii_idem c : lower_ascii (lower_ascii c) = lower_ascii c.
Proof.
  destruct c as [[] [] [] [] [] [] [] []]; reflexivity.
Qed.

Lemma toLowerCase_idem s : toLowerCase (toLowerCase s) = toLowerCase s.
Proof. induction s; simpl; [reflexivity|]. now rewrite lower_ascii_idem, IHs. Qed.

(** A split of the lower-cased text is the image of a split of the text. *)
Lemma toLowerCase_app_inv s a b :
  toLowerCase s = a +:+ b ->
  exists a' b', s = a' +:+ b' /\ toLowerCase a' = a /\ toLowerCase b' = b.
Proof.
  revert s; induction a as [|c a IH]; intros s H; simpl in H.
  - now exists EmptyString, s.
  - destruct s as [|d s]; simpl in H; [discriminate|].
    inversion H as [[Hc Hrest]].
    destruct (IH _ Hrest) as [a' [b' [-> [Ha Hb]]]].
    exists (String d a'), b'. simpl. now rewrite Ha, Hb.
Qed.

Lemma includes_lower_iff text needle :
  includes (toLowerCase text) needle = true <-> occursNoCase text needle.
Proof.
  rewrite includes_spec. split.
  - intros [pre [suf H]].
    apply toLowerCase_app_inv in H as [pre' [rest [-> [Hpre Hrest]]]].
    apply toLowerCase_app_inv in Hrest as [word [suf' [-> [Hword Hsuf]]]].
    now exists pre', word, suf'.
  - intros [pre [word [suf [-> Hword]]]].
    exists (toLowerCase pre), (toLowerCase suf).
    now rewrite !toLowerCase_app, Hword.
Qed.

End JsStringFacts.

Module AntiBypassFacts.
Import JsString JsStringFacts AntiBypass.

Lemma hasBlockingIndicator_iff html :
  hasBlockingIndicator html = true <->
  exists indicator, In indicator blockingIndicators /\ occursNoCase html indicator.
Proof.
  unfold hasBlockingIndicator. rewrite existsb_exists.
  split; intros [indicator [Hin H]]; exists indicator; split; trivial;
    now apply includes_lower_iff.
Qed.

Lemma overridden_length html :
  jsLength html < 500 -> (50000 <? jsLength html) = false.
Proof. intros H. apply Z.ltb_ge. lia. Qed.

(** The slip in the list: the needles are compared with the lower-cased
    page, so an entry that has a capital letter can never match. *)
Example mixed_case_indicator_never_matches :
  isContentBlocked (paddedPage 600 "<h1>Access Denied</h1>") = false.
Proof. vm_compute. reflexivity. Qed.

(** C6, as the specification states it, fails: a page shorter than 500
    characters is classified as blocked although it carries no marker
    and does carry the positive content markers. *)
Lemma small_page_with_job_markers_is_blocked :
  let page := "<li class=mdc-card>Java job</li>" in
  isContentBlocked page = true /\
  markerOccurs page = false /\
  hasJobContent page = true /\
  isContentBlocked page <> claimedBlocked page.
Proof. vm_compute. repeat split; discriminate. Qed.

(** The length counts UTF-16 code units, not bytes: a Cyrillic letter
    is one unit in two bytes, a character beyond the basic plane two
    units in four bytes. *)
Example jsLength_counts_code_units :
  jsLength "Я" = 1 /\ String.length "Я" = 2%nat /\
  jsLength "😀" = 2 /\ String.length "😀" = 4%nat /\
  jsLength (repeatText 300 "Я") = 300 /\
  String.length (repeatText 300 "Я") = 600%nat.
Proof. vm_compute. repeat split; reflexivity. Qed.

Lemma hasJobContent_iff html :
  hasJobContent html = true <->
  occursNoCase html "mdc-card" /\
  (occursNoCase html "job" \/ occursNoCase html "position"
   \/ occursNoCase html "vacancy").
Proof.
  unfold hasJobContent.
  rewrite andb_true_iff, !orb_true_iff, !includes_lower_iff. tauto.
Qed.

(** C6, amended: the job-content markers are 'mdc-card' together with
    one of 'job', 'position', 'vacancy', each in any letter case.  A page
    with the job-content markers and a length of more than 50000 is never
    blocked, whatever indicator it mentions; any page of a length below
    500 is blocked, whatever content markers it has; a page outside the
    override in which a listed lower-case indicator occurs (in any letter
    case) is blocked; and a blocked page has a length below 500 or has a
    listed indicator occurring in it up to letter case.  Lengths are
    [html.length], in UTF-16 code units. *)
Theorem isContentBlocked_design (html : string) :
  (hasJobContent html = true <->
   occursNoCase html "mdc-card" /\
   (occursNoCase html "job" \/ occursNoCase html "position"
    \/ occursNoCase html "vacancy")) /\
  (hasJobContent html = true -> 50000 < jsLength html ->
   isContentBlocked html = false) /\
  (jsLength html < 500 -> isContentBlocked html = true) /\
  (forall indicator,
     In indicator blockingIndicators -> occursNoCase html indicator ->
     hasJobContent html = false \/ jsLength html <= 50000 ->
     isContentBlocked html = true) /\
  (isContentBlocked html = true ->
   jsLength html < 500 \/
   exists indicator,
     In indicator blockingIndicators /\ occursNoCase html indicator).
Proof.
  split; [apply hasJobContent_iff|].
  unfold isContentBlocked. repeat split.
  - intros Hjob Hlen. apply Z.ltb_lt in Hlen. now rewrite Hjob, Hlen.
  - intros Hlen. rewrite (overridden_length _ Hlen), andb_false_r.
    unfold hasMinimalContent. apply Z.ltb_lt in Hlen. rewrite Hlen.
    apply orb_true_r.
  - intros indicator Hin Hocc Hout.
    assert (hasBlockingIndicator html = true) as ->
      by (apply hasBlockingIndicator_iff; eauto).
    destruct Hout as [-> | Hlen]; [reflexivity|].
    apply Z.ltb_ge in Hlen. rewrite Hlen, andb_false_r. reflexivity.
  - destruct (hasJobContent html && (50000 <? jsLength html)); [discriminate|].
    intros H. apply orb_true_iff in H as [H | H].
    + right. now apply hasBlockingIndicator_iff.
    + left. now apply Z.ltb_lt.
Qed.

(** The amended statement at work on a large listing page that mentions
    an indicator, on a short challenge page, and on a page of 300
    Cyrillic letters, which is short although it takes 600 bytes. *)
Lemma isContentBlocked_design_witness :
  isContentBlocked
    (paddedPage 50000 "<li class=mdc-card>job</li><!-- forbidden -->") = false /\
  isContentBlocked "<p>rate limit exceeded</p>" = true /\
  isContentBlocked (repeatText 300 "Я") = true.
Proof.
  split; [|split].
  - apply (proj1 (proj2 (isContentBlocked_design _))); vm_compute; reflexivity.
  - apply (proj1 (proj2 (proj2 (isContentBlocked_design _)))); vm_compute; reflexivity.
  - apply (proj1 (proj2 (proj2 (isContentBlocked_design _)))); vm_compute; reflexivity.
Defined.

End AntiBypassFacts.

(** ** Facts about the credit ledger *)

Module CreditTrackerFacts.
Import Js CreditTracker.

Lemma orNum_zero_default o : orNum o 0 = default 0 o.
Proof.
  destruct o as [v|]; simpl; [|reflexivity].
  destruct (Z.eqb_spec v 0); congruence.
Qed.

Lemma orNum_positive v d : 0 < v -> orNum (Some v) d = v.
Proof.
  intros Hv. simpl. destruct (Z.eqb_spec v 0); [lia | reflexivity].
Qed.

Lemma usageOf_nonneg t key : countersNonNegative t -> 0 <= usageOf t key.
Proof.
  intros Hnn. unfold usageOf. rewrite orNum_zero_default.
  destruct (monthlyUsage t !! key) as [v|] eqn:E; simpl; [eauto | lia].
Qed.

(** *** The invariant of the counters *)

Lemma initial_nonneg now : countersNonNegative (initial now).
Proof. intros key v H. simpl in H. now rewrite lookup_empty in H. Qed.

Lemma trackUsage_nonneg now usage t :
  0 <= credits usage -> countersNonNegative t ->
  countersNonNegative (trackUsage now usage t).
Proof.
  intros Hc Hnn key v. unfold trackUsage; simpl.
  rewrite lookup_insert. case_decide as Hk.
  - intros [= <-]. pose proof (usageOf_nonneg t (usageKey (service usage) now) Hnn). lia.
  - apply Hnn.
Qed.

Lemma resetMonthlyUsage_nonneg now t :
  countersNonNegative t -> countersNonNegative (resetMonthlyUsage now t).
Proof.
  intros Hnn. unfold resetMonthlyUsage.
  destruct (_ && _); [apply (initial_nonneg now) | exact Hnn].
Qed.

(** *** Recording a spend *)

Lemma trackUsage_counter now usage t :
  usageOf (trackUsage now usage t) (usageKey (service usage) now)
  = usageOf t (usageKey (service usage) now) + credits usage.
Proof.
  unfold usageOf at 1, trackUsage; simpl.
  rewrite lookup_insert_eq, orNum_zero_default. reflexivity.
Qed.

Lemma trackUsage_other now usage t key :
  key <> usageKey (service usage) now ->
  usageOf (trackUsage now usage t) key = usageOf t key.
Proof.
  intros Hne. unfold usageOf, trackUsage; simpl.
  now rewrite lookup_insert_ne.
Qed.

(** A spend of zero credits leaves every counter where it was. *)
Lemma trackUsage_zero now usage t key :
  credits usage = 0 ->
  usageOf (trackUsage now usage t) key = usageOf t key.
Proof.
  intros H0. destruct (decide (key = usageKey (service usage) now)) as [->|Hne].
  - rewrite trackUsage_counter. lia.
  - now apply trackUsage_other.
Qed.

(** *** The budget gate *)

Lemma remaining_eq cfg now t :
  remaining (scraperapi (getServiceLimits cfg now t))
  = Z.max 0 (scraperApiLimit cfg - usageOf t (usageKey "scraperapi" now)).
Proof. reflexivity. Qed.

Lemma hasAvailableCredits_scraperapi cfg now t required :
  hasAvailableCredits cfg now t "scraperapi" required
  = (required <=? remaining (scraperapi (getServiceLimits cfg now t))).
Proof. reflexivity. Qed.

Lemma hasAvailableCredits_short cfg now t required :
  remaining (scraperapi (getServiceLimits cfg now t)) < required ->
  hasAvailableCredits cfg now t "scraperapi" required = false.
Proof.
  intros H. rewrite hasAvailableCredits_scraperapi. apply Z.leb_gt. exact H.
Qed.

(** The gate opens for the two known services only, and only when the
    remaining credits cover the request. *)
Lemma hasAvailableCredits_true_inv cfg now t service required :
  hasAvailableCredits cfg now t service required = true ->
  (service = "scraperapi" /\
   required <= remaining (scraperapi (getServiceLimits cfg now t))) \/
  (service = "scrapingdog" /\
   required <= dogRemaining (scrapingdog (getServiceLimits cfg now t))).
Proof.
unfold hasAvailableCredits.
destruct (String.eqb_spec service "scraperapi") as [-> | _].
- intros H. left. split; [reflexivity | now apply Z.leb_le].
- destruct (String.eqb_spec service "scrapingdog") as [-> | _]; [|discriminate].
  intros H. right. split; [reflexivity | now apply Z.leb_le].
Qed.

(** *** The usage percentage *)

Lemma scraperApiLimit_configured cfg api limit :
  Config.scraperapi cfg = Some api ->
  Config.freeMonthlyLimit api = Some limit ->
  0 < limit ->
  scraperApiLimit cfg = limit.
Proof.
  intros Hapi Hlim Hpos. unfold scraperApiLimit. rewrite Hapi; simpl.
  rewrite Hlim. now apply orNum_positive.
Qed.

(** C10, as the claim states it, fails: the ledger takes the credits of
    a record as they come, so a recorded spend of -30 leaves the month's
    counter at -30, the remaining credits at 1030 of 1000, and the
    percentage at -3. *)
Lemma negative_spend_gives_negative_percentage :
  let now := mkDate 2025 0 15 in
  let t := trackUsage now
             (mkCreditUsage "scraperapi" "jobs.bg" (-30) "https://www.jobs.bg" true)
             (initial (mkDate 2025 0 1)) in
  usageOf t (usageKey "scraperapi" now) = -30 /\
  remaining (scraperapi (getServiceLimits Config.shipped now t)) = 1030 /\
  (getUsagePercentage Config.shipped now t "scraperapi" == -3)%Q /\
  ~ (0 <= getUsagePercentage Config.shipped now t "scraperapi")%Q.
Proof.
  vm_compute. repeat split; try reflexivity. intros H. now apply H.
Qed.

Lemma percentage_of_used (used whole : Z) :
  0 < whole ->
  ((0 <= inject_Z used / inject_Z whole * 100)%Q <-> 0 <= used) /\
  ((inject_Z used / inject_Z whole * 100 <= 100)%Q <-> used <= whole).
Proof.
  intros Hw. destruct whole as [|w|w]; try lia.
  unfold Qle, Qdiv, Qmult, Qinv, inject_Z; simpl. split; split; nia.
Qed.

(** C10, amended: with a positive configured monthly limit, the usage
    percentage of the scraperapi service never exceeds 100, in any
    ledger state, also when the recorded usage exceeds the limit; it is
    at least 0 exactly when the month's recorded usage is not negative.
    So it lies in [0, 100] for every ledger whose counters are not
    negative, as they are when no record carries negative credits. *)
Theorem getUsagePercentage_scraperapi_bounds cfg api limit now t :
  Config.scraperapi cfg = Some api ->
  Config.freeMonthlyLimit api = Some limit ->
  0 < limit ->
  (getUsagePercentage cfg now t "scraperapi" <= 100)%Q /\
  ((0 <= getUsagePercentage cfg now t "scraperapi")%Q <->
   0 <= usageOf t (usageKey "scraperapi" now)) /\
  (countersNonNegative t ->
   (0 <= getUsagePercentage cfg now t "scraperapi" <= 100)%Q).
Proof.
  intros Hapi Hlim Hpos.
  assert ((getUsagePercentage cfg now t "scraperapi" <= 100)%Q /\
          ((0 <= getUsagePercentage cfg now t "scraperapi")%Q <->
           0 <= usageOf t (usageKey "scraperapi" now))) as [Hup Hlow].
  { unfold getUsagePercentage; simpl.
    rewrite (scraperApiLimit_configured _ _ _ Hapi Hlim Hpos).
    set (used := limit - Z.max 0 (limit - usageOf t (usageKey "scraperapi" now))).
    destruct (percentage_of_used used limit Hpos) as [Hsign Hcap].
    split; [apply Hcap; unfold used; lia|].
    rewrite Hsign. unfold used. lia. }
  split; [exact Hup|]. split; [exact Hlow|].
  intros Hnn. split; [|exact Hup].
  apply Hlow. exact (usageOf_nonneg t (usageKey "scraperapi" now) Hnn).
Qed.

(** A ledger whose recorded usage (1500) exceeds the shipped limit (1000). *)
Lemma getUsagePercentage_scraperapi_bounds_witness :
  (0 <= getUsagePercentage Config.shipped (mkDate 2025 0 15)
          (trackUsage (mkDate 2025 0 15)
             (mkCreditUsage "scraperapi" "jobs.bg" 1500 "https://www.jobs.bg" true)
             (initial (mkDate 2025 0 1)))
          "scraperapi" <= 100)%Q.
Proof.
  apply (getUsagePercentage_scraperapi_bounds Config.shipped
           (Config.mkScraperApi (Some 1000)
              (Some (<["jobs.bg" := 10]> (<["default" := 1]> ∅)))) 1000).
  - reflexivity.
  - reflexivity.
  - lia.
  - apply trackUsage_nonneg; [simpl; lia | apply initial_nonneg].
Defined.

(** *** The monthly reset *)

(** C9, as the specification states it, fails: invoked on the second
    day of February after a reset in January, the reset keeps the
    counters. *)
Lemma resetMonthlyUsage_skips_month_change_after_day_one :
  let january :=
    {| monthlyUsage := <["scraperapi_2025_0" := 990]> ∅;
       lastReset := mkDate 2025 0 1 |} in
  let now := mkDate 2025 1 2 in
  getMonth now <> getMonth (lastReset january) /\
  resetMonthlyUsage now january = january /\
  monthlyUsage (resetMonthlyUsage now january) !! "scraperapi_2025_0" = Some 990.
Proof. simpl. repeat split. discriminate. Qed.

(** C9, amended: the reset clears the counters and stamps the reset
    date when it is invoked on day 1 of a month whose number differs
    from that of the last reset; invoked on any other day it leaves the
    ledger as it is. *)
Theorem resetMonthlyUsage_first_day_only now t :
  (getDate now = 1 -> getMonth now <> getMonth (lastReset t) ->
   resetMonthlyUsage now t = {| monthlyUsage := ∅; lastReset := now |}) /\
  (getDate now <> 1 -> resetMonthlyUsage now t = t).
Proof.
  unfold resetMonthlyUsage. split.
  - intros Hday Hmonth.
    apply Z.eqb_eq in Hday. apply Z.eqb_neq in Hmonth.
    now rewrite Hday, Hmonth.
  - intros Hday. apply Z.eqb_neq in Hday. now rewrite Hday.
Qed.

Lemma resetMonthlyUsage_first_day_only_witness :
  let january :=
    {| monthlyUsage := <["scraperapi_2025_0" := 990]> ∅;
       lastReset := mkDate 2025 0 1 |} in
  resetMonthlyUsage (mkDate 2025 1 1) january
    = {| monthlyUsage := ∅; lastReset := mkDate 2025 1 1 |} /\
  resetMonthlyUsage (mkDate 2025 1 14) january = january.
Proof.
  intros january. split.
  - apply (proj1 (resetMonthlyUsage_first_day_only (mkDate 2025 1 1) january));
      simpl; [reflexivity | discriminate].
  - apply (proj2 (resetMonthlyUsage_first_day_only (mkDate 2025 1 14) january));
      simpl; discriminate.
Defined.

End CreditTrackerFacts.

(** ** Facts about the fetch orchestrator *)

Module OrchestratorFacts.
Import Js Orchestrator.

Ltac run := unfold bind, tryCatch, ret, throw, emit, settle, sleep,
              readTracker, awaitTrackUsage, extend; simpl.

Lemma extend_nil w : extend w [] = w.
Proof. destruct w; unfold extend; simpl. now rewrite app_nil_r. Qed.

Lemma extend_extend w t1 t2 : extend (extend w t1) t2 = extend w (t1 ++ t2).
Proof. unfold extend; simpl. now rewrite app_assoc. Qed.

(** *** One attempt *)

(** The body of the [try] block leaves the world alone. *)
Lemma attemptBody_world strategy checker ctx w :
  (attemptBody strategy checker ctx w).2 = w.
Proof.
  unfold attemptBody; run.
  destruct (strategy ctx) as [r|m]; simpl; [|reflexivity].
  destruct (negb (success r) || negb (JsString.truthy (html r))); simpl;
    [reflexivity|].
  destruct checker as [f|]; [destruct (f (html r))|]; reflexivity.
Qed.

Lemma attemptBody_fails strategy checker ctx w :
  attemptFails (strategy ctx) ->
  exists message, attemptBody strategy checker ctx w = (Rejected message, w).
Proof.
  unfold attemptFails, attemptBody; run.
  destruct (strategy ctx) as [r|m]; simpl; [|eauto].
  intros [H | H]; rewrite H; simpl; eauto.
  rewrite orb_true_r. eauto.
Qed.

Lemma attemptBody_blocked strategy isBlocked ctx w :
  returnsBlockedDocument strategy isBlocked ctx ->
  attemptBody strategy (Some isBlocked) ctx w = (Resolved Blocked, w).
Proof.
  intros [r [Hr [Hs [Hh Hb]]]]. unfold attemptBody; run.
  now rewrite Hr, Hs, Hh, Hb.
Qed.

(** *** One iteration of the loop *)

Lemma freeLoop_step env strategy checker rc rest attempt ctx lastErr w :
  freeLoop env strategy checker rc (S rest) attempt ctx lastErr w =
  let ctx' := countRequest ctx in
  let w1 := extend w [FreeAttempt attempt ctx'] in
  match (attemptBody strategy checker ctx' w1).1 with
  | Resolved Blocked => (Resolved (FreeGaveUp ctx' (Some blockedMessage)), w1)
  | Resolved (Succeeded response) => (Resolved (FreeSucceeded response), w1)
  | Rejected message =>
      freeLoop env strategy checker rc rest (attempt + 1) ctx' (Some message)
        (if attempt <? Config.maxAttempts rc
         then extend w1 [Slept (retryDelay rc attempt (random env attempt))]
         else w1)
  end.
Proof.
  pose proof (attemptBody_world strategy checker (countRequest ctx)
                (extend w [FreeAttempt attempt (countRequest ctx)])) as Hw.
  simpl. unfold bind at 1, emit at 1, tryCatch at 1, bind at 1. fold (extend w [FreeAttempt attempt (countRequest ctx)]).
  destruct (attemptBody _ _ _ _) as [[[r|]|m] w1]; simpl in *; subst w1.
  - reflexivity.
  - reflexivity.
  - unfold bind at 1. destruct (attempt <? Config.maxAttempts rc); reflexivity.
Qed.

(** *** The loop as a whole *)

(** The loop always settles by resolving; it only appends attempts and
    sleeps to the trace, never touches the ledger, and gives up on a
    context for the same site and address. *)
Lemma freeLoop_total env strategy checker rc iterations :
  forall attempt ctx lastErr w,
  exists free trace,
    freeLoop env strategy checker rc iterations attempt ctx lastErr w
      = (Resolved free, extend w trace) /\
    forallb isFreeEvent trace = true /\
    (forall c l, free = FreeGaveUp c l ->
                 siteName c = siteName ctx /\ url c = url ctx).
Proof.
  induction iterations as [|rest IH]; intros attempt ctx lastErr w.
  - exists (FreeGaveUp ctx lastErr), []. rewrite extend_nil. simpl.
    split; [reflexivity|]. split; [reflexivity|].
    intros c l [= <- <-]. split; reflexivity.
  - rewrite freeLoop_step. cbv zeta.
    destruct (attemptBody _ _ _ _).1 as [[r|]|m].
    + eexists _, _. split; [reflexivity|]. split; [reflexivity|].
      intros c l [=].
    + eexists _, _. split; [reflexivity|]. split; [reflexivity|].
      intros c l [= <- <-]. split; reflexivity.
    + destruct (attempt <? Config.maxAttempts rc);
        match goal with |- context [freeLoop _ _ _ _ _ ?a ?c ?l ?w0] =>
          destruct (IH a c l w0) as [free [trace [Heq [Hfree Hctx]]]] end;
        rewrite Heq, ?extend_extend; eexists _, _;
        (split; [reflexivity|]); simpl; (split; [exact Hfree | exact Hctx]).
Qed.

(** When every attempt fails, the loop runs all its iterations, and
    sleeps after each attempt but the last allowed one. *)
Lemma freeLoop_always_fails env strategy checker rc iterations :
  alwaysFails strategy ->
  forall attempt ctx lastErr w,
  exists c l trace,
    freeLoop env strategy checker rc iterations attempt ctx lastErr w
      = (Resolved (FreeGaveUp c l), extend w trace) /\
    freeAttempts trace = attemptNumbers iterations attempt /\
    sleeps trace = delaysAfter env rc (attemptNumbers iterations attempt).
Proof.
  intros Hfail.
  induction iterations as [|rest IH]; intros attempt ctx lastErr w.
  - exists ctx, lastErr, []. now rewrite extend_nil.
  - rewrite freeLoop_step. cbv zeta.
    destruct (attemptBody_fails strategy checker (countRequest ctx)
                (extend w [FreeAttempt attempt (countRequest ctx)])
                (Hfail _)) as [message ->].
    cbn [fst]. unfold delaysAfter. cbn [attemptNumbers flat_map].
    destruct (attempt <? Config.maxAttempts rc);
      match goal with |- context [freeLoop _ _ _ _ _ ?a ?c0 ?l0 ?w0] =>
        destruct (IH a c0 l0 w0) as [c [l [trace [Heq [Hatt Hsl]]]]] end;
      rewrite Heq, ?extend_extend; eexists c, l, _;
      (split; [reflexivity|]); simpl; rewrite Hatt, Hsl; split; reflexivity.
Qed.

(** *** Attempt numbers and delays *)

Lemma attemptNumbers_length iterations attempt :
  length (attemptNumbers iterations attempt) = iterations.
Proof.
  revert attempt; induction iterations as [|k IH]; intros a; simpl;
    [reflexivity | now rewrite IH].
Qed.

Lemma delaysAfter_past env rc iterations attempt :
  Config.maxAttempts rc <= attempt ->
  delaysAfter env rc (attemptNumbers iterations attempt) = [].
Proof.
  revert attempt; induction iterations as [|k IH]; intros a Ha;
    unfold delaysAfter in *; simpl; [reflexivity|].
  destruct (Z.ltb_spec a (Config.maxAttempts rc)); [lia|].
  simpl. apply IH. lia.
Qed.

(** Counting up to [maxAttempts], a sleep follows every attempt but the
    last. *)
Lemma delaysAfter_all_but_last env rc iterations attempt :
  attempt + Z.of_nat iterations = Config.maxAttempts rc ->
  delaysAfter env rc (attemptNumbers (S iterations) attempt)
  = map (fun n => retryDelay rc n (random env n))
        (attemptNumbers iterations attempt).
Proof.
  revert attempt; induction iterations as [|k IH]; intros a Ha.
  - unfold delaysAfter; simpl.
    destruct (Z.ltb_spec a (Config.maxAttempts rc)); [lia | reflexivity].
  - change (attemptNumbers (S (S k)) a)
      with (a :: attemptNumbers (S k) (a + 1)).
    unfold delaysAfter in *. cbn [flat_map].
    destruct (Z.ltb_spec a (Config.maxAttempts rc)); [|lia].
    rewrite IH by lia. reflexivity.
Qed.

Lemma retryDelay_increasing rc n r r' :
  growthExceedsJitter rc -> 1 <= n ->
  (0 <= r < 1)%Q -> (0 <= r' < 1)%Q ->
  (retryDelay rc n r < retryDelay rc (n + 1) r')%Q.
Proof.
  intros [Hbase [Hjit Hgrow]] Hn [Hr0 Hr1] [Hr0' Hr1'].
  unfold retryDelay.
  replace (n + 1 - 1) with ((n - 1) + 1) by lia.
  rewrite Qpower_plus' by lia. rewrite Qpower_1_r.
  assert (1 <= Config.exponentialBase rc ^ (n - 1))%Q as Hpow
    by (apply Qpower_1_le; [exact Hbase | lia]).
  set (p := (Config.exponentialBase rc ^ (n - 1))%Q) in *.
  set (b := Config.baseDelayMs rc) in *.
  set (m := Config.exponentialBase rc) in *.
  set (j := Config.jitterMs rc) in *.
  nra.
Qed.

Lemma delays_sorted env rc iterations attempt :
  randomInUnitInterval env -> growthExceedsJitter rc -> 1 <= attempt ->
  Sorted Qlt (map (fun n => retryDelay rc n (random env n))
                  (attemptNumbers iterations attempt)).
Proof.
  intros Hrnd Hgrow.
  revert attempt; induction iterations as [|k IH]; intros a Ha; simpl.
  - constructor.
  - constructor; [apply IH; lia|].
    destruct k as [|k']; simpl; constructor.
    now apply retryDelay_increasing.
Qed.

(** *** The paid path *)

Lemma paid_insufficient env ctx lastErr w :
  CreditTracker.hasAvailableCredits (config env) (now env) (tracker w) "scraperapi"
    (CreditTracker.getCreditCost (config env) (siteName ctx) "scraperapi") = false ->
  executeWithPaidService env ctx lastErr w
  = (Rejected
       (insufficientCreditsMessage
          (CreditTracker.getUsagePercentage (config env) (now env) (tracker w)
             "scraperapi")
          (CreditTracker.getCreditCost (config env) (siteName ctx) "scraperapi")),
     w).
Proof.
  intros Hno. unfold executeWithPaidService; run. now rewrite Hno.
Qed.

Lemma paid_failure env ctx lastErr w :
  CreditTracker.hasAvailableCredits (config env) (now env) (tracker w) "scraperapi"
    (CreditTracker.getCreditCost (config env) (siteName ctx) "scraperapi") = true ->
  paidFails (scrapeWithScraperAPI env (paidOptionsFor ctx)) ->
  executeWithPaidService env ctx lastErr w
  = (Rejected (paidFailureMessage (scrapeWithScraperAPI env (paidOptionsFor ctx))),
     {| tracker := CreditTracker.trackUsage (now env) (failedUsage ctx) (tracker w);
        events := events w ++ [PaidRequest (paidOptionsFor ctx);
                               Tracked (failedUsage ctx)] |}).
Proof.
  intros Hyes Hfail. unfold executeWithPaidService; run. rewrite Hyes; simpl.
  unfold paidFails in Hfail.
  destruct (scrapeWithScraperAPI env (paidOptionsFor ctx)) as [r|m]; simpl.
  - assert (negb (paidSuccess r) || negb (JsString.truthy (paidHtml r)) = true)
      as -> by (destruct Hfail as [-> | ->]; [reflexivity | apply orb_true_r]).
    simpl. now rewrite <- app_assoc.
  - now rewrite <- app_assoc.
Qed.

Lemma paid_success env ctx lastErr w r :
  CreditTracker.hasAvailableCredits (config env) (now env) (tracker w) "scraperapi"
    (CreditTracker.getCreditCost (config env) (siteName ctx) "scraperapi") = true ->
  scrapeWithScraperAPI env (paidOptionsFor ctx) = Resolved r ->
  paidSuccess r = true -> JsString.truthy (paidHtml r) = true ->
  executeWithPaidService env ctx lastErr w
  = (Resolved (paidToBrowserResponse ctx lastErr r),
     {| tracker :=
          CreditTracker.trackUsage (now env)
            {| CreditTracker.service := "scraperapi";
               CreditTracker.site := siteName ctx;
               CreditTracker.credits := paidCredits r;
               CreditTracker.url := url ctx;
               CreditTracker.successful := true |} (tracker w);
        events := events w ++ [PaidRequest (paidOptionsFor ctx);
                               Tracked
                                 {| CreditTracker.service := "scraperapi";
                                    CreditTracker.site := siteName ctx;
                                    CreditTracker.credits := paidCredits r;
                                    CreditTracker.url := url ctx;
                                    CreditTracker.successful := true |}] |}).
Proof.
  intros Hyes Hr Hs Hh. unfold executeWithPaidService; run.
  rewrite Hyes; simpl. rewrite Hr; simpl. rewrite Hs, Hh; simpl.
  now rewrite <- app_assoc.
Qed.

(** The paid path adds no free attempt and no sleep to the trace. *)
Lemma paid_trace env ctx lastErr w :
  exists trace : list Event,
    events (executeWithPaidService env ctx lastErr w).2 = events w ++ trace /\
    forallb (fun e => negb (isFreeEvent e)) trace = true.
Proof.
  unfold executeWithPaidService; run.
  destruct (CreditTracker.hasAvailableCredits _ _ _ _ _); simpl.
  - destruct (scrapeWithScraperAPI env (paidOptionsFor ctx)) as [r|m]; simpl.
    + destruct (negb (paidSuccess r) || negb (JsString.truthy (paidHtml r)));
        simpl; rewrite <- app_assoc; eexists; split; reflexivity.
    + rewrite <- app_assoc; eexists; split; reflexivity.
  - exists []. now rewrite app_nil_r.
Qed.

(** *** The entry point *)

Lemma executeWithFallback_unfold env context strategy options w :
  executeWithFallback env context strategy options w =
  match freePhase env context strategy options w with
  | (Resolved (FreeSucceeded response), w1) => (Resolved response, w1)
  | (Resolved (FreeGaveUp ctx lastErr), w1) =>
      if default true (enablePaidFallback options)
      then executeWithPaidService env ctx lastErr w1
      else (Resolved (freeFailureResponse ctx (retryConfigOf env options) lastErr), w1)
  | (Rejected message, w1) => (Rejected message, w1)
  end.
Proof.
  unfold executeWithFallback, bind.
  destruct (freePhase env context strategy options w) as [[[r|c l]|m] w1];
    try reflexivity.
  destruct (default true (enablePaidFallback options)); reflexivity.
Qed.

Lemma freeAttempts_app t1 t2 : freeAttempts (t1 ++ t2) = freeAttempts t1 ++ freeAttempts t2.
Proof. apply flat_map_app. Qed.

Lemma sleeps_app t1 t2 : sleeps (t1 ++ t2) = sleeps t1 ++ sleeps t2.
Proof. apply flat_map_app. Qed.

Lemma paidRequests_app t1 t2 :
  paidRequests (t1 ++ t2) = paidRequests t1 ++ paidRequests t2.
Proof. apply flat_map_app. Qed.

Lemma trackedUsages_app t1 t2 :
  trackedUsages (t1 ++ t2) = trackedUsages t1 ++ trackedUsages t2.
Proof. apply flat_map_app. Qed.

Lemma no_free_events trace :
  forallb (fun e => negb (isFreeEvent e)) trace = true ->
  freeAttempts trace = [] /\ sleeps trace = [].
Proof.
  induction trace as [|e trace IH]; simpl; [now split|].
  intros H. apply andb_true_iff in H as [He Ht].
  destruct (IH Ht) as [Ha Hs].
  destruct e; simpl in *; try discriminate; now split.
Qed.

Lemma only_free_events trace :
  forallb isFreeEvent trace = true ->
  paidRequests trace = [] /\ trackedUsages trace = [].
Proof.
  induction trace as [|e trace IH]; simpl; [now split|].
  intros H. apply andb_true_iff in H as [He Ht].
  destruct (IH Ht) as [Ha Hs].
  destruct e; simpl in *; try discriminate; now split.
Qed.

(** An event that cannot occur in the second half of a trace lies in
    the first half. *)
Lemma split_before (x : Event) t1 t2 pre post :
  t1 ++ t2 = pre ++ x :: post -> ~ In x t2 ->
  exists post1, t1 = pre ++ x :: post1 /\ post = post1 ++ t2.
Proof.
  intros Heq Hnot. apply app_eq_app in Heq as [l [[H1 H2] | [H1 H2]]].
  - destruct l as [|y l]; simpl in H2.
    + exfalso. apply Hnot. rewrite <- H2. now left.
    + injection H2 as <- ->. now exists l.
  - exfalso. apply Hnot. rewrite H2. apply in_or_app. right. now left.
Qed.

Lemma free_attempt_not_in_paid_trace k c trace :
  forallb (fun e => negb (isFreeEvent e)) trace = true ->
  ~ In (FreeAttempt k c) trace.
Proof.
  intros Hall Hin. rewrite forallb_forall in Hall.
  specialize (Hall _ Hin). discriminate.
Qed.

Lemma extend_inj w t1 t2 : extend w t1 = extend w t2 -> t1 = t2.
Proof.
  unfold extend. intros [= H]. now apply app_inv_head in H.
Qed.

(** An attempt that is served a blocked document is the last event of
    the loop, which gives up on that attempt's context with the
    blocking message. *)
Lemma freeLoop_blocked_last env strategy isBlocked rc iterations :
  forall attempt ctx lastErr w free trace,
    freeLoop env strategy (Some isBlocked) rc iterations attempt ctx lastErr w
      = (Resolved free, extend w trace) ->
    forall pre k c post,
      trace = pre ++ FreeAttempt k c :: post ->
      returnsBlockedDocument strategy isBlocked c ->
      post = [] /\ free = FreeGaveUp c (Some blockedMessage).
Proof.
  induction iterations as [|rest IH];
    intros attempt ctx lastErr w free trace Hrun pre k c post Htrace Hblocked.
  - simpl in Hrun. unfold ret in Hrun. injection Hrun as _ Hw.
    assert (extend w [] = extend w trace) as Hw'
      by (now rewrite extend_nil).
    apply extend_inj in Hw'. subst trace.
    now apply app_cons_not_nil in Hw'.
  - rewrite freeLoop_step in Hrun. cbv zeta in Hrun.
    destruct (attemptBody _ _ _ _).1 as [[r|]|m] eqn:Hbody.
    + injection Hrun as _ Hw. apply app_inv_head in Hw. subst trace.
      destruct pre as [|e pre]; simpl in Htrace.
      * injection Htrace as _ <- _.
        rewrite (attemptBody_blocked _ _ _ _ Hblocked) in Hbody. discriminate.
      * injection Htrace as _ Htrace. now apply app_cons_not_nil in Htrace.
    + injection Hrun as <- Hw. apply app_inv_head in Hw. subst trace.
      destruct pre as [|e pre]; simpl in Htrace.
      * injection Htrace as _ <- <-. now split.
      * injection Htrace as _ Htrace. now apply app_cons_not_nil in Htrace.
    + match type of Hrun with context [freeLoop _ _ _ _ _ ?a ?c0 ?l0 ?w0] =>
        destruct (freeLoop_total env strategy (Some isBlocked) rc rest a c0 l0 w0)
          as [free' [trace' [Hrec _]]] end.
      rewrite Hrec in Hrun.
      destruct (attempt <? Config.maxAttempts rc);
        rewrite ?extend_extend in Hrun; injection Hrun as <- Hw;
        apply app_inv_head in Hw; subst trace; simpl in Htrace;
        (destruct pre as [|e pre]; simpl in Htrace;
         [ injection Htrace as _ <- _;
           rewrite (attemptBody_blocked _ _ _ _ Hblocked) in Hbody; discriminate
         | injection Htrace as _ Htrace ]).
      * destruct pre as [|e' pre]; simpl in Htrace; [discriminate|].
        injection Htrace as _ Htrace.
        exact (IH _ _ _ _ _ _ Hrec _ _ _ _ Htrace Hblocked).
      * exact (IH _ _ _ _ _ _ Hrec _ _ _ _ Htrace Hblocked).
Qed.

Lemma freePhase_total env context strategy options w :
  exists free trace,
    freePhase env context strategy options w = (Resolved free, extend w trace) /\
    forallb isFreeEvent trace = true /\
    (forall c l, free = FreeGaveUp c l ->
                 siteName c = siteName context /\ url c = url context).
Proof. apply freeLoop_total. Qed.

(** *** Retry bound *)

(** C4, as the specification states it, fails: under a policy with
    base 1000 ms, multiplier 2 and jitter up to 5000 ms, a draw of 0.9
    after the first attempt and 0.1 after the second makes the second
    sleep shorter than the first. *)
Lemma jitter_can_reverse_delays :
  let env := Scenarios.envWith Config.shipped Scenarios.fallingDraw
               (Resolved Scenarios.emptyPaidResponse) in
  let options := {| retryConfig := Some Scenarios.wideJitterPolicy;
                    enablePaidFallback := None; isBlockedChecker := None |} in
  let run := executeWithFallback env Scenarios.jobsBgContext
               Scenarios.offlineStrategy options
               (freshWorld (Scenarios.ledgerAt 0)) in
  exists first second,
    sleeps (events run.2) = [first; second] /\
    (first == 5500)%Q /\ (second == 2500)%Q /\
    ~ Sorted Qlt (sleeps (events run.2)).
Proof.
  eexists _, _. split; [vm_compute; reflexivity|].
  split; [reflexivity|]. split; [reflexivity|].
  vm_compute. intros Hsorted.
  inversion Hsorted as [|? ? _ Hhd]. inversion Hhd as [|? ? Hlt].
  discriminate Hlt.
Qed.

(** C4, amended: a free strategy that fails on every invocation is
    invoked exactly [maxAttempts] times, with attempt numbers
    1 .. maxAttempts, before the fallback is evaluated; the orchestrator
    sleeps after each attempt but the last, for
    [base * multiplier^(n-1) + random * jitter]; and these delays grow
    strictly from one attempt to the next whenever the multiplier is at
    least 1 and the jitter bound is smaller than [base * (multiplier - 1)]
    (as in the shipped policy 10000 ms, 3, 2000 ms). *)
Theorem retry_bound env context strategy options w :
  let rc := retryConfigOf env options in
  alwaysFails strategy ->
  0 <= Config.maxAttempts rc ->
  exists trace : list Event,
    events (executeWithFallback env context strategy options w).2
      = events w ++ trace /\
    freeAttempts trace = attemptNumbers (Z.to_nat (Config.maxAttempts rc)) 1 /\
    Z.of_nat (length (freeAttempts trace)) = Config.maxAttempts rc /\
    sleeps trace
      = map (fun n => retryDelay rc n (random env n))
            (attemptNumbers (Z.to_nat (Config.maxAttempts rc - 1)) 1) /\
    (randomInUnitInterval env -> growthExceedsJitter rc ->
     Sorted Qlt (sleeps trace)).
Proof.
  intros rc Hfail Hmax.
  assert (delaysAfter env rc (attemptNumbers (Z.to_nat (Config.maxAttempts rc)) 1)
          = map (fun n => retryDelay rc n (random env n))
                (attemptNumbers (Z.to_nat (Config.maxAttempts rc - 1)) 1)) as Hdelays.
  { destruct (Z.eq_dec (Config.maxAttempts rc) 0) as [H0 | Hpos].
    - rewrite H0. reflexivity.
    - replace (Z.to_nat (Config.maxAttempts rc))
        with (S (Z.to_nat (Config.maxAttempts rc - 1))) by lia.
      apply delaysAfter_all_but_last. lia. }
  rewrite executeWithFallback_unfold. unfold freePhase. fold rc.
  destruct (freeLoop_always_fails env strategy (isBlockedChecker options) rc
              (Z.to_nat (Config.maxAttempts rc)) Hfail 1 context None w)
    as [c [l [trace1 [Hrun [Hatt Hsl]]]]].
  rewrite Hrun.
  assert (exists trace2 : list Event,
            events (if default true (enablePaidFallback options)
                    then executeWithPaidService env c l (extend w trace1)
                    else (Resolved (freeFailureResponse c rc l), extend w trace1)).2
            = events w ++ trace1 ++ trace2 /\
            freeAttempts trace2 = [] /\ sleeps trace2 = []) as [trace2 [Hev [Ha2 Hs2]]].
  { destruct (default true (enablePaidFallback options)).
    - destruct (paid_trace env c l (extend w trace1)) as [trace2 [Hev Hnone]].
      exists trace2. rewrite Hev. simpl. rewrite <- app_assoc.
      split; [reflexivity | now apply no_free_events].
    - exists []. simpl. rewrite app_nil_r. now split. }
  exists (trace1 ++ trace2). split; [exact Hev|].
  rewrite freeAttempts_app, sleeps_app, Ha2, Hs2, !app_nil_r, Hatt, Hsl, Hdelays.
  split; [reflexivity|]. split; [rewrite attemptNumbers_length; lia|].
  split; [reflexivity|].
  intros Hrnd Hgrow. apply delays_sorted; [exact Hrnd | exact Hgrow | lia].
Qed.

Lemma retry_bound_witness :
  exists trace : list Event,
    events (executeWithFallback
              (Scenarios.envWith Config.shipped Scenarios.halfDraw
                 (Resolved Scenarios.emptyPaidResponse))
              Scenarios.jobsBgContext Scenarios.offlineStrategy
              Scenarios.defaultOptions (freshWorld (Scenarios.ledgerAt 0))).2
      = [] ++ trace /\
    freeAttempts trace = [1; 2; 3] /\
    Z.of_nat (length (freeAttempts trace)) = 3 /\
    sleeps trace
      = map (fun n => retryDelay defaultRetryConfig n (1 # 2)%Q) [1; 2] /\
    Sorted Qlt (sleeps trace).
Proof.
  destruct (retry_bound
              (Scenarios.envWith Config.shipped Scenarios.halfDraw
                 (Resolved Scenarios.emptyPaidResponse))
              Scenarios.jobsBgContext Scenarios.offlineStrategy
              Scenarios.defaultOptions (freshWorld (Scenarios.ledgerAt 0)))
    as [trace [Hev [Hatt [Hlen [Hsl Hsorted]]]]].
  - intros ctx. exact I.
  - simpl. lia.
  - exists trace. repeat split; try assumption.
    apply Hsorted.
    + intros n. split; vm_compute; first [reflexivity | discriminate].
    + repeat split; vm_compute; first [reflexivity | discriminate].
Defined.

(** *** Blocking short-circuits the retries *)

(** C5: when a free attempt is served a document that the block
    detector classifies as blocked, no free attempt and no sleep follows
    it in the trace of the call, however many attempts the policy still
    allows: the call continues at once with the fallback decision, made
    on that attempt's context with the blocking message as last error. *)
Theorem block_short_circuits_retries
    env context strategy options isBlocked w result w' pre k c post :
  isBlockedChecker options = Some isBlocked ->
  executeWithFallback env context strategy options w = (result, w') ->
  events w' = events w ++ pre ++ FreeAttempt k c :: post ->
  returnsBlockedDocument strategy isBlocked c ->
  freeAttempts post = [] /\ sleeps post = [] /\
  (result, w')
  = (if default true (enablePaidFallback options)
     then executeWithPaidService env c (Some blockedMessage)
     else ret (freeFailureResponse c (retryConfigOf env options)
                 (Some blockedMessage)))
      (extend w (pre ++ [FreeAttempt k c])).
Proof.
  intros Hchecker Hrun Hevents Hblocked.
  rewrite executeWithFallback_unfold in Hrun.
  destruct (freePhase_total env context strategy options w)
    as [free [trace1 [Hfree [Honly _]]]].
  rewrite Hfree in Hrun.
  unfold freePhase in Hfree. rewrite Hchecker in Hfree.
  assert (exists trace2 : list Event,
            events w' = events w ++ trace1 ++ trace2 /\
            forallb (fun e => negb (isFreeEvent e)) trace2 = true)
    as [trace2 [Hev Hnone]].
  { destruct free as [r | c' l].
    - injection Hrun as _ <-. exists []. simpl. now rewrite app_nil_r.
    - destruct (default true (enablePaidFallback options)).
      + destruct (paid_trace env c' l (extend w trace1)) as [trace2 [Hev Hnone]].
        rewrite Hrun in Hev. simpl in Hev. exists trace2.
        rewrite Hev. now rewrite <- app_assoc.
      + injection Hrun as _ <-. exists []. simpl. now rewrite app_nil_r. }
  rewrite Hev in Hevents. apply app_inv_head in Hevents.
  apply split_before in Hevents as [post1 [Htrace1 Hpost]];
    [| now apply free_attempt_not_in_paid_trace].
  destruct (freeLoop_blocked_last _ _ _ _ _ _ _ _ _ _ _ Hfree _ _ _ _ Htrace1 Hblocked)
    as [-> ->].
  subst post trace1. simpl.
  destruct (no_free_events _ Hnone) as [Ha Hs].
  split; [exact Ha|]. split; [exact Hs|].
  rewrite <- Hrun. unfold ret.
  destruct (default true (enablePaidFallback options)); reflexivity.
Qed.

(** The first of three allowed attempts is served the challenge page,
    with the repository's detector as checker. *)
Lemma block_short_circuits_retries_witness :
  let env := Scenarios.envWith Config.shipped Scenarios.halfDraw
               (Resolved Scenarios.emptyPaidResponse) in
  let w := freshWorld (Scenarios.ledgerAt 0) in
  let run := executeWithFallback env Scenarios.jobsBgContext
               Scenarios.challengedStrategy (Scenarios.detectorOptions true) w in
  let post := [PaidRequest (paidOptionsFor (countRequest Scenarios.jobsBgContext));
               Tracked (failedUsage (countRequest Scenarios.jobsBgContext))] in
  freeAttempts post = [] /\ sleeps post = [] /\
  run = executeWithPaidService env (countRequest Scenarios.jobsBgContext)
          (Some blockedMessage)
          (extend w [FreeAttempt 1 (countRequest Scenarios.jobsBgContext)]).
Proof.
  intros env w run post.
  apply (block_short_circuits_retries env Scenarios.jobsBgContext
           Scenarios.challengedStrategy (Scenarios.detectorOptions true)
           AntiBypass.isContentBlocked w run.1 run.2 [] 1
           (countRequest Scenarios.jobsBgContext) post).
  - reflexivity.
  - vm_compute. reflexivity.
  - vm_compute. reflexivity.
  - exists Scenarios.challengePage. repeat split; vm_compute; reflexivity.
Defined.

(** *** The budget gate *)

(** C2: when the credits remaining for scraperapi are fewer than the
    request costs, [hasAvailableCredits] is false (it is true only for a
    known service whose remaining credits cover the request), the
    paid-fallback evaluation rejects without touching the world, and over
    the whole call no paid request is issued and the ledger is unchanged. *)
Theorem budget_gate env context strategy options w :
  let required :=
    CreditTracker.getCreditCost (config env) (siteName context) "scraperapi" in
  CreditTracker.remaining
    (CreditTracker.scraperapi
       (CreditTracker.getServiceLimits (config env) (now env) (tracker w)))
    < required ->
  CreditTracker.hasAvailableCredits (config env) (now env) (tracker w)
    "scraperapi" required = false /\
  (forall service cost,
     CreditTracker.hasAvailableCredits (config env) (now env) (tracker w)
       service cost = true ->
     (service = "scraperapi" /\
      cost <= CreditTracker.remaining
                (CreditTracker.scraperapi
                   (CreditTracker.getServiceLimits (config env) (now env)
                      (tracker w)))) \/
     (service = "scrapingdog" /\
      cost <= CreditTracker.dogRemaining
                (CreditTracker.scrapingdog
                   (CreditTracker.getServiceLimits (config env) (now env)
                      (tracker w))))) /\
  (forall lastErr, exists message,
     executeWithPaidService env context lastErr w = (Rejected message, w)) /\
  (let w' := (executeWithFallback env context strategy options w).2 in
   tracker w' = tracker w /\
   paidRequests (events w') = paidRequests (events w) /\
   trackedUsages (events w') = trackedUsages (events w) /\
   forall key,
     CreditTracker.usageOf (tracker w') key = CreditTracker.usageOf (tracker w) key).
Proof.
  intros required Hshort.
  pose proof (CreditTrackerFacts.hasAvailableCredits_short _ _ _ _ Hshort) as Hno.
  split; [exact Hno|].
  split; [intros service cost; apply CreditTrackerFacts.hasAvailableCredits_true_inv|].
  split.
  - intros lastErr. eexists. now apply paid_insufficient.
  - cbv zeta. rewrite executeWithFallback_unfold.
    destruct (freePhase_total env context strategy options w)
      as [free [trace [-> [Honly Hctx]]]].
    destruct (only_free_events _ Honly) as [Hpaid Htracked].
    assert (forall o : outcome BrowserScrapingResponse,
              let w' := (o, extend w trace).2 in
              tracker w' = tracker w /\
              paidRequests (events w') = paidRequests (events w) /\
              trackedUsages (events w') = trackedUsages (events w) /\
              forall key, CreditTracker.usageOf (tracker w') key
                          = CreditTracker.usageOf (tracker w) key) as Hkeep.
    { intros o. simpl.
      rewrite paidRequests_app, trackedUsages_app, Hpaid, Htracked, !app_nil_r.
      repeat split; reflexivity. }
    destruct free as [r | c l]; [apply Hkeep|].
    destruct (default true (enablePaidFallback options)); [|apply Hkeep].
    destruct (Hctx c l eq_refl) as [Hsite _].
    rewrite paid_insufficient; [apply Hkeep|].
    simpl. rewrite Hsite. exact Hno.
Qed.

(** The ledger at [used = limit - 1] and a request that costs 2. *)
Lemma budget_gate_witness :
  let env := Scenarios.envWith Scenarios.twoCreditConfig Scenarios.halfDraw
               (Resolved Scenarios.emptyPaidResponse) in
  let w := freshWorld (Scenarios.ledgerAt 999) in
  CreditTracker.hasAvailableCredits (config env) (now env) (tracker w)
    "scraperapi" 2 = false /\
  paidRequests (events (executeWithFallback env Scenarios.exampleContext
                          Scenarios.offlineStrategy Scenarios.defaultOptions w).2)
    = [] /\
  CreditTracker.usageOf
    (tracker (executeWithFallback env Scenarios.exampleContext
                Scenarios.offlineStrategy Scenarios.defaultOptions w).2)
    "scraperapi_2025_0" = 999.
Proof.
  intros env w.
  destruct (budget_gate env Scenarios.exampleContext Scenarios.offlineStrategy
              Scenarios.defaultOptions w) as [Hno [_ [_ [_ [Hpaid [_ Hused]]]]]].
  - vm_compute. reflexivity.
  - split; [exact Hno|]. split; [exact Hpaid|]. rewrite Hused. reflexivity.
Defined.

(** *** A failed paid call *)

(** C3: a paid attempt that completes unsuccessfully (the response
    has [success = false] or an empty body, or the call throws) is
    recorded by one [trackUsage] call with 0 credits, and no counter of
    the ledger changes. *)
Theorem failed_paid_call_never_charges env ctx lastErr w :
  CreditTracker.hasAvailableCredits (config env) (now env) (tracker w) "scraperapi"
    (CreditTracker.getCreditCost (config env) (siteName ctx) "scraperapi") = true ->
  paidFails (scrapeWithScraperAPI env (paidOptionsFor ctx)) ->
  exists message w',
    executeWithPaidService env ctx lastErr w = (Rejected message, w') /\
    paidRequests (events w') = paidRequests (events w) ++ [paidOptionsFor ctx] /\
    trackedUsages (events w') = trackedUsages (events w) ++ [failedUsage ctx] /\
    CreditTracker.credits (failedUsage ctx) = 0 /\
    CreditTracker.successful (failedUsage ctx) = false /\
    forall key,
      CreditTracker.usageOf (tracker w') key = CreditTracker.usageOf (tracker w) key.
Proof.
  intros Hyes Hfail. eexists _, _.
  split; [now apply paid_failure|]. simpl.
  rewrite paidRequests_app, trackedUsages_app. simpl.
  repeat split.
  intros key. now apply CreditTrackerFacts.trackUsage_zero.
Qed.

Lemma failed_paid_call_never_charges_witness :
  let env := Scenarios.envWith Config.shipped Scenarios.halfDraw
               (Resolved Scenarios.emptyPaidResponse) in
  exists message w',
    executeWithPaidService env Scenarios.jobsBgContext None
      (freshWorld (Scenarios.ledgerAt 120)) = (Rejected message, w') /\
    trackedUsages (events w') = [failedUsage Scenarios.jobsBgContext] /\
    CreditTracker.usageOf (tracker w') "scraperapi_2025_0" = 120.
Proof.
  intros env.
  destruct (failed_paid_call_never_charges env Scenarios.jobsBgContext None
              (freshWorld (Scenarios.ledgerAt 120)))
    as [message [w' [Hrun [_ [Htracked [_ [_ Hused]]]]]]].
  - vm_compute. reflexivity.
  - left. reflexivity.
  - exists message, w'. split; [exact Hrun|]. split; [exact Htracked|].
    rewrite Hused. reflexivity.
Defined.

(** *** Failures and the caller *)

(** C1, as the specification states it, fails: with the paid fallback
    enabled (the default), exhausted free retries throw when the budget
    is insufficient, and throw when the paid provider fails. *)
Lemma operational_failures_are_thrown :
  let env := Scenarios.envWith Config.shipped Scenarios.halfDraw
               (Resolved Scenarios.emptyPaidResponse) in
  let fetch ledger :=
    (executeWithFallback env Scenarios.jobsBgContext Scenarios.offlineStrategy
       Scenarios.defaultOptions (freshWorld ledger)).1 in
  fetch (Scenarios.ledgerAt 995)
    = Rejected "Insufficient ScraperAPI credits. Current usage: 99.5%. Required: 10 credits." /\
  fetch (Scenarios.ledgerAt 0)
    = Rejected "ScraperAPI failed: Request failed with status code 500" /\
  (forall ledger response,
     ledger = Scenarios.ledgerAt 995 \/ ledger = Scenarios.ledgerAt 0 ->
     fetch ledger <> Resolved response).
Proof.
  cbv zeta. split; [vm_compute; reflexivity|]. split; [vm_compute; reflexivity|].
  intros ledger response [-> | ->]; vm_compute; discriminate.
Qed.

(** C1, amended: once the free attempts have ended without a document
    (blocked, or all retries failed), the entry point returns a result
    with [success = false] and a readable reason when the paid fallback
    is disabled; when it is enabled, an insufficient budget and a failed
    paid call are reported by rejecting with an error whose message is
    the readable reason. *)
Theorem operational_failure_reporting
    env context strategy options w ctx lastErr w1 :
  freePhase env context strategy options w
    = (Resolved (FreeGaveUp ctx lastErr), w1) ->
  let run := executeWithFallback env context strategy options w in
  let required :=
    CreditTracker.getCreditCost (config env) (siteName ctx) "scraperapi" in
  let funded :=
    CreditTracker.hasAvailableCredits (config env) (now env) (tracker w1)
      "scraperapi" required in
  (default true (enablePaidFallback options) = false ->
   exists response,
     run = (Resolved response, w1) /\
     success response = false /\
     error response
     = Some ("Free scraping failed after "
             +:+ pretty (Config.maxAttempts (retryConfigOf env options))
             +:+ " attempts: " +:+ showNullable lastErr)) /\
  (default true (enablePaidFallback options) = true -> funded = false ->
   run = (Rejected
            (insufficientCreditsMessage
               (CreditTracker.getUsagePercentage (config env) (now env)
                  (tracker w1) "scraperapi") required),
          w1)) /\
  (default true (enablePaidFallback options) = true -> funded = true ->
   paidFails (scrapeWithScraperAPI env (paidOptionsFor ctx)) ->
   run.1 = Rejected (paidFailureMessage
                       (scrapeWithScraperAPI env (paidOptionsFor ctx)))).
Proof.
  intros Hfree run required funded. subst run.
  rewrite executeWithFallback_unfold, Hfree.
  split; [|split].
  - intros ->. eexists. split; [reflexivity|]. split; reflexivity.
  - intros -> Hno. now apply paid_insufficient.
  - intros -> Hyes Hfail. now rewrite paid_failure.
Qed.

Lemma operational_failure_reporting_witness :
  let env := Scenarios.envWith Config.shipped Scenarios.halfDraw
               (Resolved Scenarios.emptyPaidResponse) in
  exists response,
    (executeWithFallback env Scenarios.jobsBgContext Scenarios.challengedStrategy
       (Scenarios.detectorOptions false) (freshWorld (Scenarios.ledgerAt 0))).1
      = Resolved response /\
    success response = false /\
    error response
      = Some "Free scraping failed after 3 attempts: Blocking detected - requires premium service".
Proof.
  intros env.
  destruct (operational_failure_reporting env Scenarios.jobsBgContext
              Scenarios.challengedStrategy (Scenarios.detectorOptions false)
              (freshWorld (Scenarios.ledgerAt 0))
              (countRequest Scenarios.jobsBgContext) (Some blockedMessage)
              (extend (freshWorld (Scenarios.ledgerAt 0))
                 [FreeAttempt 1 (countRequest Scenarios.jobsBgContext)]))
    as [Hdisabled _].
  - vm_compute. reflexivity.
  - destruct (Hdisabled eq_refl) as [response [Hrun [Hs He]]].
    exists response. rewrite Hrun. split; [reflexivity|].
    split; [exact Hs | exact He].
Defined.

End OrchestratorFacts.

(** ** Facts about the digest and the session registry *)

Module Md5Facts.

(** The test suite of RFC 1321, and a message of more than one block. *)
Example digest_empty : Md5.digestHex "" = "d41d8cd98f00b204e9800998ecf8427e".
Proof. vm_compute. reflexivity. Qed.

Example digest_a : Md5.digestHex "a" = "0cc175b9c0f1b6a831c399e269772661".
Proof. vm_compute. reflexivity. Qed.

Example digest_abc : Md5.digestHex "abc" = "900150983cd24fb0d6963f7d28e17f72".
Proof. vm_compute. reflexivity. Qed.

Example digest_message_digest :
  Md5.digestHex "message digest" = "f96b697d7cb7938d525a2f31aaf161d0".
Proof. vm_compute. reflexivity. Qed.

Example digest_two_blocks :
  Md5.digestHex
    "12345678901234567890123456789012345678901234567890123456789012345678901234567890"
  = "57edf4a22be3c955ac49da2e2107b67a".
Proof. vm_compute. reflexivity. Qed.

(** A digest is never the empty string, nor is its 8-character prefix. *)
Lemma digest_prefix_truthy s :
  JsString.truthy (String.substring 0 8 (Md5.digestHex s)) = true.
Proof.
  unfold Md5.digestHex.
  destruct (Md5.absorb _ _ _) as [[[a b] c] d]. reflexivity.
Qed.

End Md5Facts.

Module BrowserEngineFacts.
Import Js BrowserEngine.

Lemma generateSessionId_truthy env cfg forceNew :
  JsString.truthy (generateSessionId env cfg forceNew) = true.
Proof.
  unfold generateSessionId. destruct forceNew; apply Md5Facts.digest_prefix_truthy.
Qed.

(** Without [forceNew] the id is a function of the configuration alone. *)
Lemma generateSessionId_deterministic env env' cfg :
  generateSessionId env cfg false = generateSessionId env' cfg false.
Proof. reflexivity. Qed.

Lemma orStr_generated env cfg forceNew fallback :
  orStr (Some (generateSessionId env cfg forceNew)) fallback
  = generateSessionId env cfg forceNew.
Proof. simpl. now rewrite generateSessionId_truthy. Qed.

(** *** The registry stays consistent *)

Lemma emptyEngine_consistent : registryConsistent emptyEngine.
Proof. apply map_Forall_empty. Qed.

Lemma createNewSession_generated env cfg env0 cfg0 forceNew e s e' :
  createNewSession env cfg
    (Some (generateSessionId env0 cfg0 forceNew)) e = (Resolved s, e') ->
  id s = generateSessionId env0 cfg0 forceNew /\
  config s = cfg /\
  context s = contextsCreated e /\
  contextsCreated e' = S (contextsCreated e) /\
  sessions e' = <[generateSessionId env0 cfg0 forceNew := s]> (sessions e).
Proof.
  unfold createNewSession. rewrite orStr_generated.
  destruct (if browser e then None else launchError env); [discriminate|].
  destruct (contextError env); [discriminate|].
  intros [= <- <-]. simpl. repeat split; reflexivity.
Qed.

Lemma createNewSession_consistent env cfg env0 cfg0 forceNew e s e' :
  registryConsistent e ->
  createNewSession env cfg
    (Some (generateSessionId env0 cfg0 forceNew)) e = (Resolved s, e') ->
  registryConsistent e'.
Proof.
  intros Hcons Hnew.
  destruct (createNewSession_generated _ _ _ _ _ _ _ _ Hnew)
    as [Hid [_ [_ [_ Hsessions]]]].
  unfold registryConsistent. rewrite Hsessions.
  apply map_Forall_insert_2; [exact Hid | exact Hcons].
Qed.

Lemma closeSession_consistent env sessionId e :
  registryConsistent e -> registryConsistent (closeSession env sessionId e).
Proof.
  intros Hcons. unfold closeSession.
  destruct (sessions e !! sessionId); [|exact Hcons].
  destruct (closeError env); [exact Hcons|].
  unfold registryConsistent; simpl. now apply map_Forall_delete.
Qed.

Lemma getSession_existing env cfg e session :
  sessions e !! generateSessionId env cfg false = Some session ->
  getSession env cfg e
  = (Resolved (touch env session),
     {| browser := browser e;
        sessions := <[generateSessionId env cfg false := touch env session]>
                      (sessions e);
        contextsCreated := contextsCreated e;
        contextsClosed := contextsClosed e |}).
Proof. intros H. unfold getSession. now rewrite H. Qed.

Lemma getSession_missing env cfg e :
  sessions e !! generateSessionId env cfg false = None ->
  getSession env cfg e
  = createNewSession env cfg (Some (generateSessionId env cfg false)) e.
Proof. intros H. unfold getSession. now rewrite H. Qed.

(** A session handed out by [getSession] carries the deterministic id
    and is registered under it. *)
Lemma getSession_id env cfg e s e' :
  registryConsistent e ->
  getSession env cfg e = (Resolved s, e') ->
  id s = generateSessionId env cfg false /\
  sessions e' !! generateSessionId env cfg false = Some s /\
  registryConsistent e'.
Proof.
  intros Hcons Hget.
  destruct (sessions e !! generateSessionId env cfg false) as [s0|] eqn:Hlook.
  - rewrite (getSession_existing _ _ _ _ Hlook) in Hget.
    injection Hget as <- <-. simpl.
    pose proof (Hcons _ _ Hlook) as Hid. simpl in Hid.
    split; [exact Hid|]. split; [apply lookup_insert_eq|].
    unfold registryConsistent; simpl.
    apply map_Forall_insert_2; [exact Hid | exact Hcons].
  - rewrite (getSession_missing _ _ _ Hlook) in Hget.
    destruct (createNewSession_generated _ _ _ _ _ _ _ _ Hget)
      as [Hid [_ [_ [_ Hsessions]]]].
    split; [exact Hid|]. split.
    + rewrite Hsessions. apply lookup_insert_eq.
    + eapply createNewSession_consistent; eauto.
Qed.

Lemma rotateSession_spec env sessionId e current sr e' :
  registryConsistent e ->
  sessions e !! sessionId = Some current ->
  rotateSession env sessionId e = (Resolved sr, e') ->
  id sr = generateSessionId env (config current) true /\
  config sr = config current /\
  context sr = contextsCreated e /\
  registryConsistent e'.
Proof.
  intros Hcons Hcur Hrot. unfold rotateSession in Hrot. rewrite Hcur in Hrot.
  destruct (createNewSession_generated _ _ _ _ _ _ _ _ Hrot)
    as [Hid [Hcfg [Hctx _]]].
  split; [exact Hid|]. split; [exact Hcfg|]. split.
  - rewrite Hctx. unfold closeSession. rewrite Hcur.
    destruct (closeError env); reflexivity.
  - eapply createNewSession_consistent; [|exact Hrot].
    now apply closeSession_consistent.
Qed.

(** *** Session identity *)

(** C7, as the specification states it, fails: starting from an empty
    registry, acquire, rotate the acquired id, acquire again with the
    same configuration: the last session has the id of the first. *)
Lemma acquire_after_rotate_returns_old_id :
  exists s1 e1 sr e2 s3 e3,
    getSession (Scenarios.quietEnv 1000 "0.5") jobsBgConfig emptyEngine
      = (Resolved s1, e1) /\
    rotateSession (Scenarios.quietEnv 2000 "0.25") (id s1) e1 = (Resolved sr, e2) /\
    getSession (Scenarios.quietEnv 3000 "0.75") jobsBgConfig e2
      = (Resolved s3, e3) /\
    id s1 = "8e1c2e8e" /\ id sr = "405e8f8c" /\ id s3 = "8e1c2e8e" /\
    ~ id s3 <> id s1.
Proof.
  eexists _, _, _, _, _, _.
  split; [vm_compute; reflexivity|].
  split; [vm_compute; reflexivity|].
  split; [vm_compute; reflexivity|].
  repeat split. intros H. now apply H.
Qed.

(** C7, amended: two acquires with the same configuration return
    sessions with the same id; a rotate of that id returns a session
    under a freshly generated id; and the next acquire with the same
    configuration returns a session that again has the id held before
    the rotation. *)
Theorem session_identity
    envA envB envR envC cfg e0 s1 e1 s2 e2 sr e3 s4 e4 :
  registryConsistent e0 ->
  getSession envA cfg e0 = (Resolved s1, e1) ->
  getSession envB cfg e1 = (Resolved s2, e2) ->
  rotateSession envR (id s2) e2 = (Resolved sr, e3) ->
  getSession envC cfg e3 = (Resolved s4, e4) ->
  id s2 = id s1 /\
  id sr = generateSessionId envR (config s2) true /\
  id s4 = id s1.
Proof.
  intros Hcons H1 H2 Hrot H4.
  destruct (getSession_id _ _ _ _ _ Hcons H1) as [Hid1 [_ Hcons1]].
  destruct (getSession_id _ _ _ _ _ Hcons1 H2) as [Hid2 [Hreg2 Hcons2]].
  rewrite Hid2 in Hrot.
  destruct (rotateSession_spec _ _ _ _ _ _ Hcons2 Hreg2 Hrot)
    as [Hidr [_ [_ Hcons3]]].
  destruct (getSession_id _ _ _ _ _ Hcons3 H4) as [Hid4 _].
  split; [now rewrite Hid1, Hid2|]. split; [exact Hidr|].
  now rewrite Hid1, Hid4.
Qed.

Lemma session_identity_witness :
  exists s1 s2 sr s4,
    (getSession (Scenarios.quietEnv 1000 "0.5") jobsBgConfig emptyEngine).1
      = Resolved s1 /\
    id s2 = id s1 /\
    id sr = generateSessionId (Scenarios.quietEnv 2000 "0.25") (config s2) true /\
    id s4 = id s1.
Proof.
  pose (r1 := getSession (Scenarios.quietEnv 1000 "0.5") jobsBgConfig emptyEngine).
  pose (r2 := getSession (Scenarios.quietEnv 1500 "0.5") jobsBgConfig r1.2).
  pose (s2 := touch (Scenarios.quietEnv 1500 "0.5")
                (mkSession "8e1c2e8e" jobsBgConfig 1000 1000 0 0)).
  pose (r3 := rotateSession (Scenarios.quietEnv 2000 "0.25") (id s2) r2.2).
  pose (r4 := getSession (Scenarios.quietEnv 3000 "0.75") jobsBgConfig r3.2).
  exists (mkSession "8e1c2e8e" jobsBgConfig 1000 1000 0 0), s2,
         (mkSession "405e8f8c" jobsBgConfig 2000 2000 0 1),
         (mkSession "8e1c2e8e" jobsBgConfig 3000 3000 0 2).
  split; [vm_compute; reflexivity|].
  apply (session_identity
           (Scenarios.quietEnv 1000 "0.5") (Scenarios.quietEnv 1500 "0.5")
           (Scenarios.quietEnv 2000 "0.25") (Scenarios.quietEnv 3000 "0.75")
           jobsBgConfig emptyEngine _ r1.2 _ r2.2 _ r3.2 _ r4.2).
  - apply emptyEngine_consistent.
  - vm_compute. reflexivity.
  - vm_compute. reflexivity.
  - vm_compute. reflexivity.
  - vm_compute. reflexivity.
Defined.

(** *** Reuse and idleness *)

(** C8, as the specification states it, fails: no idle-timeout is
    honoured.  Whatever the timeout, a session registered under the key
    and idle for longer is handed out again, on the same context. *)
Lemma idle_sessions_are_reused :
~ exists idleTimeout, idleTimeoutHonoured idleTimeout.
Proof.
intros [idleTimeout Hclaim].
set (env := Scenarios.quietEnv (Z.abs idleTimeout + 1) "0.5").
set (key := generateSessionId env jobsBgConfig false).
set (old := mkSession key jobsBgConfig 0 0 4 0).
set (engine := mkEngine true {[ key := old ]} 1 []).
assert (sessions engine !! key = Some old) as Hreg
  by apply lookup_singleton_eq.
refine (Hclaim env jobsBgConfig engine old _ _ Hreg _
          (getSession_existing env jobsBgConfig engine old Hreg) _).
- simpl. lia.
- reflexivity.
Qed.

(** C8, amended: an acquire whose key matches a registered session
    returns that session, on its existing context and with its
    last-activity time set to the time of the call, however long the
    session has been idle, and creates no context; a new browsing
    context is created only when no session is registered under the
    key. *)
Theorem getSession_reuse env cfg e :
  (forall session,
     sessions e !! generateSessionId env cfg false = Some session ->
     exists e',
       getSession env cfg e = (Resolved (touch env session), e') /\
       lastActivity (touch env session) = now env /\
       context (touch env session) = context session /\
       id (touch env session) = id session /\
       contextsCreated e' = contextsCreated e) /\
  (forall session' e',
     sessions e !! generateSessionId env cfg false = None ->
     getSession env cfg e = (Resolved session', e') ->
     context session' = contextsCreated e /\
     contextsCreated e' = S (contextsCreated e) /\
     lastActivity session' = now env).
Proof.
  split.
  - intros session Hreg. eexists. split; [now apply getSession_existing|].
    repeat split.
  - intros session' e' Hfree Hget.
    rewrite (getSession_missing _ _ _ Hfree) in Hget.
    destruct (createNewSession_generated _ _ _ _ _ _ _ _ Hget)
      as [_ [_ [Hctx [Hcount _]]]].
    split; [exact Hctx|]. split; [exact Hcount|].
    unfold createNewSession in Hget. rewrite orStr_generated in Hget.
    destruct (if browser e then None else launchError env); [discriminate|].
    destruct (contextError env); [discriminate|].
    now injection Hget as <- _.
Qed.

(** A session idle for a year is handed out again. *)
Lemma getSession_reuse_witness :
  exists e',
    getSession (Scenarios.quietEnv 31536000000 "0.5") jobsBgConfig
      Scenarios.engineWithOldSession
    = (Resolved (touch (Scenarios.quietEnv 31536000000 "0.5") Scenarios.oldSession),
       e') /\
    lastActivity (touch (Scenarios.quietEnv 31536000000 "0.5") Scenarios.oldSession)
    = 31536000000 /\
    context (touch (Scenarios.quietEnv 31536000000 "0.5") Scenarios.oldSession) = 0%nat.
Proof.
  destruct (proj1 (getSession_reuse (Scenarios.quietEnv 31536000000 "0.5")
                     jobsBgConfig Scenarios.engineWithOldSession)
              Scenarios.oldSession)
    as [e' [Hget [Hlast [Hctx _]]]].
  - vm_compute. reflexivity.
  - exists e'. split; [exact Hget|]. split; [exact Hlast | exact Hctx].
Defined.

End BrowserEngineFacts.

(** ** More facts about the credit ledger *)

Module LedgerReportsFacts.
Import Js CreditTracker LedgerReports.

(** *** Ledger keys *)

Lemma append_inv_head s a b : s +:+ a = s +:+ b -> a = b.
Proof. induction s as [|c s IH]; simpl; [trivial | intros [= H]; auto]. Qed.

Lemma length_append s t :
  String.length (s +:+ t) = (String.length s + String.length t)%nat.
Proof. induction s as [|c s IH]; simpl; [reflexivity | now rewrite IH]. Qed.

Lemma append_inv_tail s s' t : s +:+ t = s' +:+ t -> s = s'.
Proof.
  revert s'; induction s as [|c s IH]; intros [|c' s'] H; simpl in H.
  - reflexivity.
  - apply (f_equal String.length) in H. rewrite ?length_append in H. simpl in H.
    rewrite ?length_append in H. lia.
  - apply (f_equal String.length) in H. rewrite ?length_append in H. simpl in H.
    rewrite ?length_append in H. lia.
  - injection H as -> H. f_equal. now apply IH.
Qed.

Lemma freeOf_split c a a' b b' :
  freeOf c a -> freeOf c a' ->
  a +:+ String c b = a' +:+ String c b' -> a = a' /\ b = b'.
Proof.
  revert a'; induction a as [|x a IH]; intros [|x' a'] Ha Ha' H; simpl in *.
  - injection H as ->. now split.
  - injection H as <- _. now destruct Ha'.
  - injection H as -> _. now destruct Ha.
  - injection H as -> H. destruct Ha as [_ Ha], Ha' as [_ Ha'].
    destruct (IH _ Ha Ha' H) as [-> ->]. now split.
Qed.

Lemma pretty_N_go_free c x s :
  (forall d, pretty_N_char d <> c) -> freeOf c s -> freeOf c (pretty_N_go x s).
Proof.
  intros Hdigit. revert s.
  induction (N.lt_wf_0 x) as [x _ IH]; intros s Hs.
  destruct (N.eq_dec x 0%N) as [-> | Hx].
  - now rewrite pretty_N_go_0.
  - rewrite pretty_N_go_step by lia. apply IH.
    + apply N.div_lt; lia.
    + simpl. split; [apply Hdigit | exact Hs].
Qed.

Lemma digit_not_underscore d : pretty_N_char d <> "_"%char.
Proof. unfold pretty_N_char. repeat case_match; discriminate. Qed.

Lemma pretty_Z_free (z : Z) : freeOf "_" (pretty z).
Proof.
  assert (forall p, freeOf "_" (pretty (Npos p))) as Hpos.
  { intros p. unfold pretty, pretty_N. case_decide; [discriminate|].
    apply pretty_N_go_free; [apply digit_not_underscore | exact I]. }
  destruct z as [|p|p].
  - repeat split; discriminate.
  - apply Hpos.
  - change (pretty (Z.neg p)) with ("-" +:+ pretty (Npos p)). simpl.
    split; [discriminate | apply Hpos].
Qed.

(** At one time, distinct services have distinct keys. *)
Lemma usageKey_service_inj s s' now :
  usageKey s now = usageKey s' now -> s = s'.
Proof. unfold usageKey. apply append_inv_tail. Qed.

(** For one service, distinct periods have distinct keys. *)
Lemma usageKey_period_inj s now now' :
  usageKey s now = usageKey s now' ->
  getFullYear now = getFullYear now' /\ getMonth now = getMonth now'.
Proof.
  unfold usageKey. intros H. apply append_inv_head in H. simpl in H.
  injection H as H.
  apply freeOf_split in H as [Hy Hm]; try apply pretty_Z_free.
  split; [exact (pretty_Z_inj _ _ Hy) | exact (pretty_Z_inj _ _ Hm)].
Qed.

(** *** Accumulation *)

(** X1: after a series of [trackUsage] calls, the counter of a service has
    grown by exactly the credits recorded for that service; usages of
    other services do not touch it. *)
Theorem trackAll_counter now usages t serviceName :
  usageOf (trackAll now usages t) (usageKey serviceName now)
  = usageOf t (usageKey serviceName now) + creditsFor serviceName usages.
Proof.
  revert t; induction usages as [|u usages IH]; intros t; simpl.
  - lia.
  - unfold trackAll in *. simpl. rewrite IH.
    destruct (String.eqb_spec (service u) serviceName) as [<- | Hne].
    + rewrite CreditTrackerFacts.trackUsage_counter. lia.
    + rewrite CreditTrackerFacts.trackUsage_other; [reflexivity|].
      intros Hkey. apply usageKey_service_inj in Hkey. congruence.
Qed.

(** X2: credits recorded for scraperapi or scrapingdog in one month do not
    count in any other month or year: the limits computed there are the
    same as before the spend. *)
Theorem usage_is_per_period cfg now now' usage t :
  service usage = "scraperapi" \/ service usage = "scrapingdog" ->
  (getFullYear now, getMonth now) <> (getFullYear now', getMonth now') ->
  getServiceLimits cfg now' (trackUsage now usage t) = getServiceLimits cfg now' t.
Proof.
  intros Hservice Hperiod.
  assert (forall s, s = "scraperapi" \/ s = "scrapingdog" ->
                    usageKey s now' <> usageKey (service usage) now) as Hkeys.
  { intros s Hs Hkey.
    assert (s = service usage) as ->.
    { destruct Hs as [-> | ->], Hservice as [Hu | Hu]; rewrite Hu in *;
        try reflexivity; unfold usageKey in Hkey; simpl in Hkey; discriminate. }
    apply usageKey_period_inj in Hkey as [Hy Hm]. apply Hperiod. congruence. }
  unfold getServiceLimits.
  rewrite !CreditTrackerFacts.trackUsage_other by (apply Hkeys; auto).
  reflexivity.
Qed.

Lemma usage_is_per_period_witness :
  getServiceLimits Config.shipped (mkDate 2025 1 3)
    (trackUsage (mkDate 2025 0 31) (scraperapiUsage "jobs.bg" 990)
       (initial (mkDate 2025 0 1)))
  = getServiceLimits Config.shipped (mkDate 2025 1 3) (initial (mkDate 2025 0 1)).
Proof.
  apply usage_is_per_period.
  - left. reflexivity.
  - simpl. intros [=].
Defined.

(** *** Spending under the gate *)

(** X3: for a ledger state on which the gate admits a positive
    scraperapi spend, recording that spend on the same state leaves the
    usage within the monthly limit, and the remaining credits have
    dropped by exactly the amount spent. *)
Theorem gated_spend_never_overdraws cfg now t usage :
  service usage = "scraperapi" ->
  0 < credits usage ->
  hasAvailableCredits cfg now t "scraperapi" (credits usage) = true ->
  usageOf (trackUsage now usage t) (usageKey "scraperapi" now) <= scraperApiLimit cfg /\
  remaining (scraperapi (getServiceLimits cfg now (trackUsage now usage t)))
  = remaining (scraperapi (getServiceLimits cfg now t)) - credits usage.
Proof.
  intros Hs Hpos Hgate.
  rewrite CreditTrackerFacts.hasAvailableCredits_scraperapi in Hgate.
  apply Z.leb_le in Hgate.
  rewrite !CreditTrackerFacts.remaining_eq in *.
  pose proof (CreditTrackerFacts.trackUsage_counter now usage t) as Hcount.
  rewrite Hs in Hcount. rewrite !Hcount. lia.
Qed.

Lemma gated_spend_never_overdraws_witness :
  usageOf (trackUsage (mkDate 2025 0 15) (scraperapiUsage "jobs.bg" 10)
             (Scenarios.ledgerAt 990))
    "scraperapi_2025_0" <= 1000.
Proof.
  apply (proj1 (gated_spend_never_overdraws Config.shipped (mkDate 2025 0 15)
                  (Scenarios.ledgerAt 990) (scraperapiUsage "jobs.bg" 10)
                  eq_refl ltac:(simpl; lia) ltac:(vm_compute; reflexivity))).
Defined.

(** *** Costs *)

Lemma getCreditCost_positive cfg siteName serviceName :
  costsNonNegative cfg -> 1 <= getCreditCost cfg siteName serviceName.
Proof.
  intros Hnn. unfold getCreditCost.
  destruct (String.eqb serviceName "scraperapi"); [|lia].
  destruct (Config.scraperapi cfg) as [api|] eqn:Hapi; simpl; [|lia].
  destruct (Config.creditsPerRequest api) as [table|] eqn:Htable; simpl; [|lia].
  assert (forall key, 1 <= orNum (table !! key) 1) as Hentry.
  { intros key. destruct (table !! key) as [v|] eqn:Hv; simpl; [|lia].
    pose proof (Hnn _ _ _ _ Hapi Htable Hv).
    destruct (Z.eqb_spec v 0); lia. }
  destruct (table !! siteName) as [v|] eqn:Hv; simpl; [|apply Hentry].
  pose proof (Hnn _ _ _ _ Hapi Htable Hv).
  destruct (Z.eqb_spec v 0); [apply Hentry | lia].
Qed.

(** X4: the estimate splits the credits needed into a free part, capped by
    the monthly limit, and a paid part that is never negative; the two
    add up to the total, and the cost is 49/100000 per paid credit, zero
    exactly when the total fits into the free limit. *)
Theorem estimateMonthlyCost_split cfg requestsPerSite :
  let estimate := estimateMonthlyCost cfg requestsPerSite in
  let totalNeeded := totalCreditsNeeded cfg requestsPerSite in
  freeCreditsUsed estimate + paidCreditsNeeded estimate = totalNeeded /\
  freeCreditsUsed estimate <= scraperApiLimit cfg /\
  0 <= paidCreditsNeeded estimate /\
  (estimatedCost estimate == inject_Z (paidCreditsNeeded estimate) * (49 # 100000))%Q /\
  ((estimatedCost estimate == 0)%Q <-> totalNeeded <= scraperApiLimit cfg).
Proof.
  cbv zeta. unfold estimateMonthlyCost; simpl.
  split; [lia|]. split; [lia|]. split; [lia|]. split; [reflexivity|].
  set (paid := Z.max 0 (totalCreditsNeeded cfg requestsPerSite - scraperApiLimit cfg)).
  assert ((inject_Z paid * (49 # 100000) == 0)%Q <-> paid = 0) as ->.
  { unfold Qeq, Qmult, inject_Z; simpl. lia. }
  subst paid. lia.
Qed.

(** The total is the sum over the entries of requests times cost. *)
Lemma totalCreditsNeeded_sum cfg requestsPerSite :
  totalCreditsNeeded cfg requestsPerSite
  = foldr (fun entry acc => entry.2 * getCreditCost cfg entry.1 "scraperapi" + acc)
          0 requestsPerSite.
Proof.
  unfold totalCreditsNeeded.
  assert (forall start,
            fold_left (fun total entry =>
                         total + entry.2 * getCreditCost cfg entry.1 "scraperapi")
                      requestsPerSite start
            = start + foldr (fun entry acc =>
                               entry.2 * getCreditCost cfg entry.1 "scraperapi" + acc)
                            0 requestsPerSite) as H.
  { induction requestsPerSite as [|e rest IH]; intros start; simpl; [lia|].
    rewrite IH. lia. }
  rewrite H. lia.
Qed.

(** *** Statistics *)

Lemma totalCredits_insert m key value :
  map_fold (fun (_ : string) v sum => sum + v) 0 (<[key := value]> m)
  = map_fold (fun (_ : string) v sum => sum + v) 0 m - default 0 (m !! key) + value.
Proof.
  assert (forall (m' : gmap string Z) (j1 j2 : string) (z1 z2 y : Z),
            j1 <> j2 -> m' !! j1 = Some z1 -> m' !! j2 = Some z2 ->
            y + z2 + z1 = y + z1 + z2) as Hcomm by (intros; lia).
  destruct (m !! key) as [old|] eqn:Hold; simpl.
  - rewrite <- (insert_delete_eq m).
    rewrite map_fold_insert_L; [|apply Hcomm | apply lookup_delete_eq].
    rewrite (map_fold_delete_L _ _ key old m); [lia | apply Hcomm | exact Hold].
  - rewrite map_fold_insert_L; [lia | apply Hcomm | exact Hold].
Qed.

(** X5: every recorded spend raises the total of [getUsageStats] by exactly
    its credits, whichever service and period it is filed under. *)
Theorem totalCredits_trackUsage now now' usage t :
  statsTotalCredits (getUsageStats now' (trackUsage now usage t))
  = statsTotalCredits (getUsageStats now' t) + credits usage.
Proof.
  unfold getUsageStats, totalCredits, trackUsage; simpl.
  rewrite totalCredits_insert. unfold usageOf.
  rewrite CreditTrackerFacts.orNum_zero_default. lia.
Qed.

(** *** The scrapingdog percentage *)

(** X6: unlike the scraperapi figure, the scrapingdog percentage is not
    clamped: it is the recorded usage over the trial limit, and exceeds
    100 exactly when the usage exceeds the limit. *)
Theorem scrapingdog_percentage_unclamped cfg dog limit now t :
  Config.scrapingdog cfg = Some dog ->
  Config.freeTrialLimit dog = Some limit ->
  0 < limit ->
  let used := usageOf t (usageKey "scrapingdog" now) in
  (getUsagePercentage cfg now t "scrapingdog" == inject_Z used / inject_Z limit * 100)%Q /\
  ((100 < getUsagePercentage cfg now t "scrapingdog")%Q <-> limit < used).
Proof.
  intros Hdog Hlimit Hpos used.
  assert (scrapingDogLimit cfg = limit) as Hl.
  { unfold scrapingDogLimit. rewrite Hdog; simpl. rewrite Hlimit.
    now apply CreditTrackerFacts.orNum_positive. }
  unfold getUsagePercentage; simpl. rewrite Hl. fold used.
  split; [reflexivity|].
  destruct limit as [|p|p]; try lia.
  unfold Qlt, Qdiv, Qmult, Qinv, inject_Z; simpl. split; nia.
Qed.

Lemma scrapingdog_percentage_unclamped_witness :
  (100 < getUsagePercentage Config.shipped (mkDate 2025 0 15)
           (trackUsage (mkDate 2025 0 15)
              {| service := "scrapingdog"; site := "dev.bg"; credits := 1500;
                 url := ""; successful := true |}
              (initial (mkDate 2025 0 1)))
           "scrapingdog")%Q.
Proof.
  apply (proj2 (scrapingdog_percentage_unclamped Config.shipped
                  (Config.mkScrapingDog (Some 1000)) 1000 (mkDate 2025 0 15) _
                  eq_refl eq_refl ltac:(lia))).
  vm_compute. reflexivity.
Defined.

End LedgerReportsFacts.

(** ** Facts about the monitoring endpoints and the provider front *)

Module MonitoringFacts.
Import Js CreditTracker Monitoring.

Lemma alerts_severities usage :
  map severity (flat_map alertsFor usage) = map severityOf (List.filter isUrgent usage).
Proof.
  induction usage as [|[name data] usage IH]; simpl; [reflexivity|].
  rewrite map_app, IH. unfold isUrgent at 2. unfold alertsFor. simpl.
  destruct (status data) eqn:Hst; simpl; try reflexivity;
    unfold severityOf at 2; simpl; now rewrite Hst.
Qed.

(** X7: [generateAlerts] never returns an empty list: when no service is
    high or critical it returns the single all-clear notice, and
    otherwise one alert per high or critical service, in order, a warning
    for high and an error for critical, and no all-clear notice. *)
Theorem generateAlerts_shape usage :
  let urgent := List.filter isUrgent usage in
  generateAlerts usage <> [] /\
  (urgent = [] -> generateAlerts usage = [allClear]) /\
  (urgent <> [] ->
   map severity (generateAlerts usage) = map severityOf urgent /\
   ~ In allClear (generateAlerts usage)).
Proof.
  cbv zeta. pose proof (alerts_severities usage) as Hsev.
  unfold generateAlerts.
  destruct (flat_map alertsFor usage) as [|a alerts] eqn:Halerts.
  - split; [discriminate|]. split; [reflexivity|].
    intros Hurgent. simpl in Hsev.
    destruct (List.filter isUrgent usage); [congruence | discriminate].
  - split; [discriminate|]. split.
    + intros Hnone. rewrite Hnone in Hsev. discriminate.
    + intros _. split; [exact Hsev|].
      intros Hin. rewrite <- Halerts in Hin.
      apply in_flat_map in Hin as [[name data] [_ Hin]].
      unfold alertsFor in Hin. destruct (status data); simpl in Hin;
        try contradiction; destruct Hin as [Heq | []]; discriminate.
Qed.

Lemma toFixed1_hundred p : (p == 100)%Q -> toFixed1 p = "100.0".
Proof.
  intros Hp. unfold toFixed1.
  assert (Qle_bool 0 p = true) as -> by (apply Qle_bool_iff; rewrite Hp; discriminate).
  assert (Qfloor (p * 10 + (1 # 2)) = 1000) as ->.
  { rewrite (Qfloor_comp _ (100 * 10 + (1 # 2))%Q) by (now rewrite Hp).
    reflexivity. }
  reflexivity.
Qed.

Lemma getUsageStatus_critical p :
  getUsageStatus p = Critical <-> (95 <= p)%Q.
Proof.
  unfold getUsageStatus. rewrite <- Qle_bool_iff.
  destruct (Qle_bool 95 p); [tauto|].
  split; [|discriminate].
  destruct (Qle_bool 80 p); [discriminate|].
  destruct (Qle_bool 50 p); discriminate.
Qed.

(** X8: with a positive configured limit, scraperapi is reported critical
    exactly when at least 95% of the limit is used; once the limit is
    reached the dashboard carries the error alert for scraperapi, at
    100.0%, however far the usage exceeds the limit. *)
Theorem scraperapi_critical_threshold cfg api limit now t :
  Config.scraperapi cfg = Some api ->
  Config.freeMonthlyLimit api = Some limit ->
  0 < limit ->
  countersNonNegative t ->
  let used := usageOf t (usageKey "scraperapi" now) in
  (getUsageStatus (getUsagePercentage cfg now t "scraperapi") = Critical
   <-> 19 * limit <= 20 * used) /\
  (limit <= used ->
   In {| alertType := "credit_usage";
         message := "SCRAPERAPI usage is critical (100.0%). Consider monitoring closely.";
         severity := Error |}
      (generateAlerts (getUsagePercentagesInternal cfg now t))).
Proof.
  intros Hapi Hlimit Hpos Hnn used.
  pose proof (CreditTrackerFacts.usageOf_nonneg t (usageKey "scraperapi" now) Hnn)
    as Hused. fold used in Hused.
  assert (getUsagePercentage cfg now t "scraperapi"
          = (inject_Z (limit - Z.max 0 (limit - used)) / inject_Z limit * 100)%Q)
    as Hpct.
  { unfold getUsagePercentage; simpl.
    now rewrite (CreditTrackerFacts.scraperApiLimit_configured _ _ _ Hapi Hlimit Hpos). }
  split.
  - rewrite getUsageStatus_critical, Hpct.
    destruct limit as [|p|p]; try lia.
    unfold Qle, Qdiv, Qmult, Qinv, inject_Z; simpl. split; nia.
  - intros Hfull.
    assert (getUsagePercentage cfg now t "scraperapi" == 100)%Q as Hhundred.
    { rewrite Hpct. replace (limit - Z.max 0 (limit - used)) with limit by lia.
      destruct limit as [|p|p]; try lia.
      unfold Qeq, Qdiv, Qmult, Qinv, inject_Z; simpl. nia. }
    unfold generateAlerts, getUsagePercentagesInternal. cbn [flat_map alertsFor status].
    assert (getUsageStatus (getUsagePercentage cfg now t "scraperapi") = Critical) as ->.
    { apply getUsageStatus_critical. rewrite Hhundred. discriminate. }
    cbn [percentage app]. rewrite (toFixed1_hundred _ Hhundred).
    left. reflexivity.
Qed.

Lemma scraperapi_critical_threshold_witness :
  In {| alertType := "credit_usage";
        message := "SCRAPERAPI usage is critical (100.0%). Consider monitoring closely.";
        severity := Error |}
     (generateAlerts
        (getUsagePercentagesInternal Config.shipped (mkDate 2025 0 15)
           (trackUsage (mkDate 2025 0 15)
              (LedgerReports.scraperapiUsage "jobs.bg" 1200)
              (initial (mkDate 2025 0 1))))).
Proof.
  refine (proj2 (scraperapi_critical_threshold Config.shipped
                   (Config.mkScraperApi (Some 1000)
                      (Some (<["jobs.bg" := 10]> (<["default" := 1]> ∅))))
                   1000 (mkDate 2025 0 15)
                   (trackUsage (mkDate 2025 0 15)
                      (LedgerReports.scraperapiUsage "jobs.bg" 1200)
                      (initial (mkDate 2025 0 1)))
                   eq_refl eq_refl _ _) _).
  - lia.
  - apply CreditTrackerFacts.trackUsage_nonneg;
      [vm_compute; discriminate | apply CreditTrackerFacts.initial_nonneg].
  - vm_compute. discriminate.
Defined.

(** X9: the reset endpoint always answers with success and the message that
    the counters were reset, yet on any day but the first of a month, and
    in a month with the same number as the last reset's, the ledger it
    leaves is the ledger it found. *)
Theorem resetUsage_reports_success_without_reset now t :
  replySuccess (resetUsage now t).1 = true /\
  replyMessage (resetUsage now t).1 = Some "Usage counters reset successfully" /\
  (getDate now <> 1 \/ getMonth now = getMonth (lastReset t) ->
   (resetUsage now t).2 = t).
Proof.
  split; [reflexivity|]. split; [reflexivity|].
  unfold resetUsage, resetMonthlyUsage; simpl.
  intros [Hday | Hmonth].
  - apply Z.eqb_neq in Hday. now rewrite Hday.
  - apply Z.eqb_eq in Hmonth. rewrite Hmonth. now rewrite andb_false_r.
Qed.

End MonitoringFacts.

Module PaidScraperFacts.
Import Js PaidScraper.

(** X10: [scrapeWithFallback] returns whatever ScraperAPI resolves to, also a
    response with [success = false], without calling ScrapingDog; it
    rejects exactly when each provider is unavailable or its call
    rejects, and then always with the one fixed message: the providers'
    own errors are not passed on. *)
Theorem scrapeWithFallback_order api dog scraperApiCall dogCall :
  let run := scrapeWithFallback api dog scraperApiCall dogCall in
  (forall response,
     isAvailable api = true -> scraperApiCall = Resolved response ->
     run = (Resolved response, ["scraperapi"])) /\
  ((exists message, run.1 = Rejected message) <->
   (isAvailable api = false \/ exists e, scraperApiCall = Rejected e) /\
   (isAvailable dog = false \/ exists e, dogCall = Rejected e)) /\
  (forall message, run.1 = Rejected message -> message = exhaustedMessage).
Proof.
  cbv zeta. unfold scrapeWithFallback.
  destruct (isAvailable api), (isAvailable dog), scraperApiCall as [r|e],
    dogCall as [r'|e']; simpl;
    (split; [intros response Ha Hr; congruence|]);
    (split; [|intros message [=]; congruence]);
    (split;
     [ intros [message [=]];
       (split; [first [now left | right; eauto] | first [now left | right; eauto]])
     | intros [[Ha | [x Ha]] [Hd | [y Hd]]]; try discriminate; eauto ]).
Qed.

(** X11: whenever [calculateCredits] returns, it returns the cost that the
    ledger's gate checks ([getCreditCost]); it raises instead of
    returning only for scraperapi with a configuration that has no cost
    table, where the gate assumes a cost of 1. *)
Theorem calculateCredits_agrees_with_gate cfg siteName service :
  (forall amount,
     calculateCredits cfg siteName service = Resolved amount ->
     amount = CreditTracker.getCreditCost cfg siteName service) /\
  ((exists message, calculateCredits cfg siteName service = Rejected message) <->
   service = "scraperapi" /\
   exists api, Config.scraperapi cfg = Some api /\ Config.creditsPerRequest api = None) /\
  ((exists message, calculateCredits cfg siteName service = Rejected message) ->
   CreditTracker.getCreditCost cfg siteName service = 1).
Proof.
  unfold calculateCredits, CreditTracker.getCreditCost.
  destruct (String.eqb_spec service "scraperapi") as [-> | Hne].
  - destruct (Config.scraperapi cfg) as [api|]; simpl.
    + destruct (Config.creditsPerRequest api) as [table|] eqn:Htable; simpl.
      * split; [intros amount [= <-]; reflexivity|].
        split; [|intros [m [=]]].
        split; [intros [m [=]] | intros [_ [api' [[= <-] Hnone]]]; congruence].
      * split; [intros amount [=]|]. split; [|reflexivity].
        split; [intros _; split; [reflexivity | eauto] | eauto].
    + split; [intros amount [= <-]; reflexivity|].
      split; [|intros [m [=]]].
      split; [intros [m [=]] | intros [_ [api' [[=] _]]]].
  - split; [intros amount [= <-]; reflexivity|].
    split; [|intros [m [=]]].
    split; [intros [m [=]] | intros [Hs _]; contradiction].
Qed.

(** X12: the health check of a service never raises, whatever the provider
    calls do, so the report lists the available services in the order
    scraperapi, scrapingdog, each as healthy or unhealthy and never with
    the status 'error'. *)
Theorem health_report_never_errors api dog scraperApiCall dogCall :
  map fst (testServicesInternal api dog scraperApiCall dogCall)
  = getAvailableServices api dog /\
  Forall (fun entry => entry.2 = Healthy \/ entry.2 = Unhealthy)
         (testServicesInternal api dog scraperApiCall dogCall).
Proof.
  unfold testServicesInternal. split.
  - rewrite map_map. simpl. apply map_id.
  - apply List.Forall_forall. intros entry Hin.
    apply in_map_iff in Hin as [name [<- _]]. simpl.
    unfold testService.
    destruct (String.eqb name "scraperapi");
      [destruct scraperApiCall as [r|e]; simpl; [destruct (_ && _)|]; auto|].
    destruct (String.eqb name "scrapingdog");
      [destruct dogCall as [r|e]; simpl; [destruct (_ && _)|]; auto | auto].
Qed.

End PaidScraperFacts.

(** ** More facts about the fetch orchestrator *)

Module OrchestratorRunsFacts.
Import Js Orchestrator OrchestratorRuns OrchestratorFacts.

Lemma attemptContext_count ctx i :
  totalRequestCount (attemptContext ctx i) = totalRequestCount ctx + Z.of_nat i.
Proof.
  revert ctx; induction i as [|i IH]; intros ctx; simpl; [lia|].
  rewrite IH. simpl. lia.
Qed.

Lemma attemptBody_succeeds strategy checker ctx response w :
  succeedsWith strategy checker ctx response ->
  attemptBody strategy checker ctx w = (Resolved (Succeeded response), w).
Proof.
  intros [Hr [Hs [Hh Hc]]]. unfold attemptBody, bind, settle, ret, throw.
  rewrite Hr, Hs, Hh. simpl.
  destruct checker as [f|]; [|reflexivity].
  now rewrite (Hc f eq_refl).
Qed.

(** *** Success after failures *)

Lemma freeLoop_succeeds_after env strategy checker rc failures :
  forall iterations attempt ctx lastErr w response,
    (failures < iterations)%nat ->
    attempt + Z.of_nat failures <= Config.maxAttempts rc ->
    (forall i, (1 <= i <= failures)%nat ->
               attemptFails (strategy (attemptContext ctx i))) ->
    succeedsWith strategy checker (attemptContext ctx (S failures)) response ->
    exists trace,
      freeLoop env strategy checker rc iterations attempt ctx lastErr w
        = (Resolved (FreeSucceeded response), extend w trace) /\
      forallb isFreeEvent trace = true /\
      freeAttempts trace = attemptNumbers (S failures) attempt /\
      sleeps trace = map (fun n => retryDelay rc n (random env n))
                         (attemptNumbers failures attempt).
Proof.
  induction failures as [|failures IH];
    intros iterations attempt ctx lastErr w response Hlt Hmax Hfail Hok;
    (destruct iterations as [|rest]; [lia|]);
    rewrite freeLoop_step; cbv zeta.
  - simpl in Hok. rewrite (attemptBody_succeeds _ _ _ _ _ Hok). simpl.
    eexists. split; [reflexivity|]. repeat split.
  - destruct (attemptBody_fails strategy checker (countRequest ctx)
                (extend w [FreeAttempt attempt (countRequest ctx)])
                (Hfail 1%nat ltac:(lia))) as [message ->].
    cbn [fst].
    destruct (Z.ltb_spec attempt (Config.maxAttempts rc)); [|lia].
    destruct (IH rest (attempt + 1) (countRequest ctx) (Some message)
                (extend (extend w [FreeAttempt attempt (countRequest ctx)])
                   [Slept (retryDelay rc attempt (random env attempt))])
                response) as [trace [Hrun [Hfree [Hatt Hsl]]]].
    + lia.
    + lia.
    + intros i Hi. apply (Hfail (S i)). lia.
    + exact Hok.
    + rewrite Hrun, !extend_extend. eexists. split; [reflexivity|].
      simpl. rewrite Hfree, Hatt, Hsl. repeat split.
Qed.

(** X13: a free strategy that fails on the first [k - 1] attempts and returns
    an unblocked document on attempt [k <= maxAttempts] makes the call
    return that document after exactly [k] attempts and [k - 1] sleeps,
    without a paid request and without touching the ledger. *)
Theorem success_after_failures env context strategy options w failures response :
  let rc := retryConfigOf env options in
  Z.of_nat (S failures) <= Config.maxAttempts rc ->
  (forall i, (1 <= i <= failures)%nat ->
             attemptFails (strategy (attemptContext context i))) ->
  succeedsWith strategy (isBlockedChecker options)
    (attemptContext context (S failures)) response ->
  exists trace,
    executeWithFallback env context strategy options w
      = (Resolved response, extend w trace) /\
    freeAttempts trace = attemptNumbers (S failures) 1 /\
    length (sleeps trace) = failures /\
    paidRequests trace = [] /\ trackedUsages trace = [].
Proof.
  intros rc Hmax Hfail Hok.
  destruct (freeLoop_succeeds_after env strategy (isBlockedChecker options) rc
              failures (Z.to_nat (Config.maxAttempts rc)) 1 context None w response)
    as [trace [Hrun [Hfree [Hatt Hsl]]]]; try assumption; try lia.
  rewrite executeWithFallback_unfold. unfold freePhase. fold rc. rewrite Hrun.
  exists trace. split; [reflexivity|]. split; [exact Hatt|].
  split; [rewrite Hsl, length_map; apply attemptNumbers_length|].
  now apply only_free_events.
Qed.

Lemma success_after_failures_witness :
  exists trace,
    executeWithFallback
      (Scenarios.envWith Config.shipped Scenarios.halfDraw
         (Resolved Scenarios.emptyPaidResponse))
      Scenarios.exampleContext (recoveringStrategy 2 listingPage)
      (Scenarios.detectorOptions true) (freshWorld (Scenarios.ledgerAt 0))
    = (Resolved listingPage, extend (freshWorld (Scenarios.ledgerAt 0)) trace) /\
    freeAttempts trace = [1; 2; 3] /\
    length (sleeps trace) = 2%nat /\
    paidRequests trace = [] /\ trackedUsages trace = [].
Proof.
  apply (success_after_failures
           (Scenarios.envWith Config.shipped Scenarios.halfDraw
              (Resolved Scenarios.emptyPaidResponse))
           Scenarios.exampleContext (recoveringStrategy 2 listingPage)
           (Scenarios.detectorOptions true) (freshWorld (Scenarios.ledgerAt 0))
           2%nat listingPage).
  - vm_compute. discriminate.
  - intros i Hi. assert (i = 1 \/ i = 2)%nat as [-> | ->] by lia; exact I.
  - split; [reflexivity|]. split; [reflexivity|]. split; [reflexivity|].
    intros isBlocked [= <-]. vm_compute. reflexivity.
Defined.

(** *** The paid fallback, when it succeeds *)

(** X14: when the free attempts have ended without a document, the fallback
    is enabled, the gate admits the request and the provider returns
    content, the call returns that content with [success = true] and the
    reason for the fallback; it issues one paid request and records one
    spend, with the credits the provider reports: taking the call on its
    own, with nothing else writing to the ledger while it runs, the
    month's scraperapi counter ends exactly those credits above where the
    call found it. *)
Theorem paid_fallback_charges_reported_credits
    env context strategy options w ctx lastErr w1 paid :
  freePhase env context strategy options w
    = (Resolved (FreeGaveUp ctx lastErr), w1) ->
  default true (enablePaidFallback options) = true ->
  let required :=
    CreditTracker.getCreditCost (config env) (siteName ctx) "scraperapi" in
  let key := CreditTracker.usageKey "scraperapi" (now env) in
  CreditTracker.hasAvailableCredits (config env) (now env) (tracker w)
    "scraperapi" required = true ->
  scrapeWithScraperAPI env (paidOptionsFor ctx) = Resolved paid ->
  paidSuccess paid = true ->
  JsString.truthy (paidHtml paid) = true ->
  exists response w2,
    executeWithFallback env context strategy options w = (Resolved response, w2) /\
    success response = true /\
    html response = paidHtml paid /\
    metadata response
    = Some {| service := "scraperapi"; creditsUsed := paidCredits paid;
              fallbackReason := lastErr |} /\
    paidRequests (events w2) = paidRequests (events w) ++ [paidOptionsFor ctx] /\
    trackedUsages (events w2)
    = trackedUsages (events w)
      ++ [{| CreditTracker.service := "scraperapi";
             CreditTracker.site := siteName ctx;
             CreditTracker.credits := paidCredits paid;
             CreditTracker.url := url ctx;
             CreditTracker.successful := true |}] /\
    CreditTracker.usageOf (tracker w2) key
    = CreditTracker.usageOf (tracker w) key + paidCredits paid.
Proof.
  intros Hfree Hpaid required key Hgate Hcall Hs Hh.
  destruct (freePhase_total env context strategy options w)
    as [free [trace [Hfree' [Honly _]]]].
  rewrite Hfree in Hfree'. injection Hfree' as <- ->.
  destruct (only_free_events _ Honly) as [Hnopaid Hnotracked].
  rewrite executeWithFallback_unfold, Hfree, Hpaid.
  rewrite (paid_success env ctx lastErr (extend w trace) paid Hgate Hcall Hs Hh).
  eexists _, _. split; [reflexivity|]. simpl.
  split; [reflexivity|]. split; [reflexivity|]. split; [reflexivity|].
  rewrite !paidRequests_app, !trackedUsages_app, Hnopaid, Hnotracked. simpl.
  rewrite !app_nil_r.
  split; [reflexivity|]. split; [reflexivity|].
  pose proof (CreditTrackerFacts.trackUsage_counter (now env)
                {| CreditTracker.service := "scraperapi";
                   CreditTracker.site := siteName ctx;
                   CreditTracker.credits := paidCredits paid;
                   CreditTracker.url := url ctx;
                   CreditTracker.successful := true |} (tracker w)) as Hcount.
  simpl in Hcount. fold key in Hcount. exact Hcount.
Qed.

(** The challenge page on the first attempt, then a paid page for 10
    credits, with 990 of 1000 credits used. *)
Lemma paid_fallback_charges_reported_credits_witness :
  exists response w2,
    executeWithFallback
      (Scenarios.envWith Config.shipped Scenarios.halfDraw (Resolved paidPage))
      Scenarios.jobsBgContext Scenarios.challengedStrategy
      (Scenarios.detectorOptions true) (freshWorld (Scenarios.ledgerAt 990))
    = (Resolved response, w2) /\
    success response = true /\
    CreditTracker.usageOf (tracker w2) "scraperapi_2025_0" = 1000.
Proof.
  destruct (paid_fallback_charges_reported_credits
              (Scenarios.envWith Config.shipped Scenarios.halfDraw (Resolved paidPage))
              Scenarios.jobsBgContext Scenarios.challengedStrategy
              (Scenarios.detectorOptions true) (freshWorld (Scenarios.ledgerAt 990))
              (countRequest Scenarios.jobsBgContext) (Some blockedMessage)
              (extend (freshWorld (Scenarios.ledgerAt 990))
                 [FreeAttempt 1 (countRequest Scenarios.jobsBgContext)])
              paidPage)
    as [response [w2 [Hrun [Hs [_ [_ [_ [_ Hused]]]]]]]].
  - vm_compute. reflexivity.
  - reflexivity.
  - vm_compute. reflexivity.
  - reflexivity.
  - reflexivity.
  - vm_compute. reflexivity.
  - exists response, w2. split; [exact Hrun|]. split; [exact Hs|].
    etransitivity; [exact Hused | vm_compute; reflexivity].
Defined.

(** *** The shape of every trace *)

Lemma freeLoop_starts_with_attempt
    env strategy checker rc rest attempt ctx lastErr w free trace :
  freeLoop env strategy checker rc (S rest) attempt ctx lastErr w
    = (Resolved free, extend w trace) ->
  exists tail, trace = FreeAttempt attempt (countRequest ctx) :: tail.
Proof.
  rewrite freeLoop_step. cbv zeta.
  destruct (attemptBody _ _ _ _).1 as [[r|]|m].
  - intros H. apply (f_equal snd) in H. simpl in H.
    apply extend_inj in H. subst trace. now exists [].
  - intros H. apply (f_equal snd) in H. simpl in H.
    apply extend_inj in H. subst trace. now exists [].
  - match goal with |- context [freeLoop _ _ _ _ _ ?a ?c ?l ?w0] =>
      destruct (freeLoop_total env strategy checker rc rest a c l w0)
        as [free' [trace' [Heq' _]]] end.
    rewrite Heq'. destruct (attempt <? Config.maxAttempts rc);
      rewrite ?extend_extend; intros H; apply (f_equal snd) in H; simpl in H;
      apply extend_inj in H; subst trace; simpl; eauto.
Qed.

Lemma freeLoop_bounds env strategy checker rc iterations :
  forall attempt ctx lastErr w,
  exists free trace,
    freeLoop env strategy checker rc iterations attempt ctx lastErr w
      = (Resolved free, extend w trace) /\
    forallb isFreeEvent trace = true /\
    (length (freeAttempts trace) <= iterations)%nat /\
    (iterations = 0%nat -> trace = []) /\
    (Config.maxAttempts rc < attempt + Z.of_nat iterations ->
     (length (sleeps trace) <= length (freeAttempts trace) - 1)%nat).
Proof.
  induction iterations as [|rest IH]; intros attempt ctx lastErr w.
  - exists (FreeGaveUp ctx lastErr), []. rewrite extend_nil. simpl.
    repeat split; lia.
  - rewrite freeLoop_step. cbv zeta.
    destruct (attemptBody _ _ _ _).1 as [[r|]|m].
    + eexists _, _. split; [reflexivity|]. simpl. repeat split; lia.
    + eexists _, _. split; [reflexivity|]. simpl. repeat split; lia.
    + destruct (Z.ltb_spec attempt (Config.maxAttempts rc)) as [Hlt | Hge];
        match goal with |- context [freeLoop _ _ _ _ _ ?a ?c ?l ?w0] =>
          destruct (IH a c l w0) as [free [trace [Heq [Hfree [Hatt [Hnil Hsl]]]]]] end;
        rewrite Heq, ?extend_extend; eexists _, _;
        (split; [reflexivity|]); simpl; (split; [exact Hfree|]);
        (split; [lia|]); (split; [lia|]); intros Hlast.
      * destruct rest as [|rest']; [lia|].
        destruct (freeLoop_starts_with_attempt _ _ _ _ _ _ _ _ _ _ _ Heq)
          as [tail ->].
        specialize (Hsl ltac:(lia)). simpl in *. lia.
      * destruct rest as [|rest'].
        -- rewrite (Hnil eq_refl). simpl. lia.
        -- specialize (Hsl ltac:(lia)). lia.
Qed.

Lemma paid_shape env ctx lastErr w :
  exists trace : list Event,
    events (executeWithPaidService env ctx lastErr w).2 = events w ++ trace /\
    (trace = [] \/
     exists usage, trace = [PaidRequest (paidOptionsFor ctx); Tracked usage]).
Proof.
  unfold executeWithPaidService; run.
  destruct (CreditTracker.hasAvailableCredits _ _ _ _ _); simpl.
  - destruct (scrapeWithScraperAPI env (paidOptionsFor ctx)) as [r|m]; simpl.
    + destruct (negb (paidSuccess r) || negb (JsString.truthy (paidHtml r)));
        simpl; rewrite <- app_assoc; eexists; split; try reflexivity; eauto.
    + rewrite <- app_assoc; eexists; split; try reflexivity; eauto.
  - exists []. rewrite app_nil_r. auto.
Qed.

Lemma freeLoop_paced env strategy checker rc iterations :
  forall attempt ctx lastErr w free trace,
    attempt + Z.of_nat (S iterations) = Config.maxAttempts rc + 1 ->
    freeLoop env strategy checker rc (S iterations) attempt ctx lastErr w
      = (Resolved free, extend w trace) ->
    pacedFrom env rc attempt trace.
Proof.
  induction iterations as [|rest IH];
    intros attempt ctx lastErr w free trace Hlast Hrun;
    rewrite freeLoop_step in Hrun; cbv zeta in Hrun;
    destruct (attemptBody _ _ _ _).1 as [[r|]|m];
    try (apply (f_equal snd) in Hrun; simpl in Hrun;
         apply extend_inj in Hrun; subst trace; reflexivity).
  - destruct (Z.ltb_spec attempt (Config.maxAttempts rc)) as [Hlt | _]; [lia|].
    apply (f_equal snd) in Hrun. simpl in Hrun.
    apply extend_inj in Hrun. subst trace. reflexivity.
  - destruct (Z.ltb_spec attempt (Config.maxAttempts rc)) as [_ | Hge]; [|lia].
    match type of Hrun with context [freeLoop _ _ _ _ _ ?a ?c ?l ?w0] =>
      destruct (freeLoop_total env strategy checker rc (S rest) a c l w0)
        as [free' [trace' [Hrest _]]] end.
    pose proof Hrun as Htrace. rewrite Hrest in Htrace.
    apply (f_equal snd) in Htrace. simpl in Htrace.
    rewrite !extend_extend in Htrace. apply extend_inj in Htrace. subst trace.
    rewrite !extend_extend in Hrest.
    pose proof (IH (attempt + 1) (countRequest ctx) (Some m)
                  (extend w ([FreeAttempt attempt (countRequest ctx)]
                             ++ [Slept (retryDelay rc attempt (random env attempt))]))
                  free' trace' ltac:(lia)) as Hpaced.
    rewrite extend_extend in Hpaced. specialize (Hpaced Hrest).
    simpl. repeat split. exact Hpaced.
Qed.

(** X15: whatever the strategy, the checker, the ledger and the provider do,
    the trace of a call is a free part followed by a paid part.  The free
    part holds at most [maxAttempts] attempts; unless it is empty, it
    consists of the attempts 1, 2, ... in order, with the retry delay of
    the attempt before slept between any two of them and no sleep after
    the last.  The paid part is either nothing or one paid request
    followed by one ledger record.  No free attempt follows a paid
    request. *)
Theorem orchestrator_trace_shape env context strategy options w :
  let rc := retryConfigOf env options in
  exists free paid : list Event,
    events (executeWithFallback env context strategy options w).2
      = events w ++ free ++ paid /\
    forallb isFreeEvent free = true /\
    (length (freeAttempts free) <= Z.to_nat (Config.maxAttempts rc))%nat /\
    (length (sleeps free) <= length (freeAttempts free) - 1)%nat /\
    (free = [] \/ pacedFrom env rc 1 free) /\
    (paid = [] \/
     exists paidOptions usage, paid = [PaidRequest paidOptions; Tracked usage]).
Proof.
  intros rc. rewrite executeWithFallback_unfold. unfold freePhase. fold rc.
  destruct (freeLoop_bounds env strategy (isBlockedChecker options) rc
              (Z.to_nat (Config.maxAttempts rc)) 1 context None w)
    as [free [trace [Hrun [Hfree [Hatt [Hnil Hsl]]]]]].
  assert (length (sleeps trace) <= length (freeAttempts trace) - 1)%nat as Hsl'.
  { destruct (Z_lt_le_dec 0 (Config.maxAttempts rc)) as [Hpos | Hneg].
    - apply Hsl. lia.
    - rewrite Hnil by lia. simpl. lia. }
  assert (trace = [] \/ pacedFrom env rc 1 trace) as Hpaced.
  { destruct (Z.to_nat (Config.maxAttempts rc)) as [|rest] eqn:Hmax.
    - left. now apply Hnil.
    - right. apply (freeLoop_paced env strategy (isBlockedChecker options) rc
                      rest 1 context None w free trace); [lia | exact Hrun]. }
  rewrite Hrun. clear Hrun.
  destruct free as [r | c l].
  - exists trace, []. rewrite app_nil_r. simpl. repeat split; auto.
  - destruct (default true (enablePaidFallback options)).
    + destruct (paid_shape env c l (extend w trace)) as [paid [Hev Hshape]].
      exists trace, paid. rewrite Hev. simpl. rewrite <- app_assoc.
      split; [reflexivity|]. split; [exact Hfree|]. split; [exact Hatt|].
      split; [exact Hsl'|]. split; [exact Hpaced|].
      destruct Hshape as [-> | [usage ->]]; eauto.
    + exists trace, []. rewrite app_nil_r. simpl. repeat split; auto.
Qed.

(** *** Without the paid fallback *)

(** X16: with [enablePaidFallback = false] the call never throws: it resolves
    either to the document of a free attempt or to the failure value with
    [success = false], an empty body and the reason, and in both cases
    the ledger is untouched and no paid request is made. *)
Theorem without_fallback_never_throws env context strategy options w :
  enablePaidFallback options = Some false ->
  exists response trace,
    executeWithFallback env context strategy options w
      = (Resolved response, extend w trace) /\
    paidRequests trace = [] /\ trackedUsages trace = [] /\
    ((exists ctx, succeedsWith strategy (isBlockedChecker options) ctx response) \/
     (success response = false /\ html response = "" /\
      exists lastErr,
        error response
        = Some ("Free scraping failed after "
                +:+ pretty (Config.maxAttempts (retryConfigOf env options))
                +:+ " attempts: " +:+ showNullable lastErr))).
Proof.
  intros Hoff. rewrite executeWithFallback_unfold, Hoff. simpl.
  assert (forall iterations attempt ctx lastErr w0,
            exists free trace,
              freeLoop env strategy (isBlockedChecker options)
                (retryConfigOf env options) iterations attempt ctx lastErr w0
              = (Resolved free, extend w0 trace) /\
              forallb isFreeEvent trace = true /\
              forall r, free = FreeSucceeded r ->
                        exists c, succeedsWith strategy (isBlockedChecker options) c r)
    as Hloop.
  { induction iterations as [|rest IH]; intros attempt ctx lastErr w0.
    - exists (FreeGaveUp ctx lastErr), []. rewrite extend_nil.
      split; [reflexivity|]. split; [reflexivity|]. intros r [=].
    - rewrite freeLoop_step. cbv zeta.
      destruct (attemptBody _ _ _ _) as [[[r|]|m] w1] eqn:Hbody; cbn [fst].
      + eexists _, _. split; [reflexivity|]. split; [reflexivity|].
        intros r' [= <-]. exists (countRequest ctx).
        revert Hbody. unfold attemptBody, bind, settle, ret, throw, succeedsWith.
        destruct (strategy (countRequest ctx)) as [r0|]; [|discriminate].
        destruct (success r0) eqn:Hs; simpl; [|discriminate].
        destruct (JsString.truthy (html r0)) eqn:Hh; simpl; [|discriminate].
        destruct (isBlockedChecker options) as [f|].
        * destruct (f (html r0)) eqn:Hf; [discriminate|].
          intros [= <- _]. repeat split; try assumption.
          intros g [= <-]. exact Hf.
        * intros [= <- _]. repeat split; try assumption. intros g [=].
      + eexists _, _. split; [reflexivity|]. split; [reflexivity|]. intros r [=].
      + destruct (attempt <? Config.maxAttempts (retryConfigOf env options));
          match goal with |- context [freeLoop _ _ _ _ _ ?a ?c ?l ?w2] =>
            destruct (IH a c l w2) as [free [trace [Heq [Hfree Hsucc]]]] end;
          rewrite Heq, ?extend_extend; eexists _, _;
          (split; [reflexivity|]); simpl; (split; [exact Hfree | exact Hsucc]). }
  unfold freePhase.
  destruct (Hloop (Z.to_nat (Config.maxAttempts (retryConfigOf env options))) 1
              context None w) as [free [trace [-> [Hfree Hsucc]]]].
  destruct (only_free_events _ Hfree) as [Hp Ht].
  destruct free as [r | c l].
  - exists r, trace. split; [reflexivity|]. split; [exact Hp|]. split; [exact Ht|].
    left. now apply Hsucc.
  - eexists _, trace. split; [reflexivity|]. split; [exact Hp|]. split; [exact Ht|].
    right. simpl. repeat split. now exists l.
Qed.

Lemma without_fallback_never_throws_witness :
  exists response trace,
    executeWithFallback
      (Scenarios.envWith Config.shipped Scenarios.halfDraw
         (Resolved Scenarios.emptyPaidResponse))
      Scenarios.jobsBgContext Scenarios.offlineStrategy
      (Scenarios.detectorOptions false) (freshWorld (Scenarios.ledgerAt 0))
    = (Resolved response, extend (freshWorld (Scenarios.ledgerAt 0)) trace) /\
    paidRequests trace = [] /\ trackedUsages trace = [].
Proof.
  destruct (without_fallback_never_throws
              (Scenarios.envWith Config.shipped Scenarios.halfDraw
                 (Resolved Scenarios.emptyPaidResponse))
              Scenarios.jobsBgContext Scenarios.offlineStrategy
              (Scenarios.detectorOptions false) (freshWorld (Scenarios.ledgerAt 0))
              eq_refl) as [response [trace [Hrun [Hp [Ht _]]]]].
  exists response, trace. auto.
Defined.

(** *** An exhausted budget *)

(** X17: once the month's usage has reached the limit, and no configured cost
    is negative, the paid path rejects for every site, without a request
    to the provider and without a ledger record. *)
Theorem exhausted_budget_blocks_every_site env ctx lastErr w :
  LedgerReports.costsNonNegative (config env) ->
  CreditTracker.scraperApiLimit (config env)
  <= CreditTracker.usageOf (tracker w)
       (CreditTracker.usageKey "scraperapi" (now env)) ->
  exists message,
    executeWithPaidService env ctx lastErr w = (Rejected message, w) /\
    JsString.startsWith message "Insufficient ScraperAPI credits." = true.
Proof.
  intros Hcosts Hfull. eexists. split.
  - apply paid_insufficient.
    apply CreditTrackerFacts.hasAvailableCredits_short.
    rewrite CreditTrackerFacts.remaining_eq.
    pose proof (LedgerReportsFacts.getCreditCost_positive (config env)
                  (siteName ctx) "scraperapi" Hcosts). lia.
  - reflexivity.
Qed.

Lemma exhausted_budget_blocks_every_site_witness :
  exists message,
    executeWithPaidService
      (Scenarios.envWith Config.shipped Scenarios.halfDraw (Resolved paidPage))
      Scenarios.exampleContext None (freshWorld (Scenarios.ledgerAt 1000))
    = (Rejected message, freshWorld (Scenarios.ledgerAt 1000)) /\
    JsString.startsWith message "Insufficient ScraperAPI credits." = true.
Proof.
  apply exhausted_budget_blocks_every_site.
  - intros api table site cost [= <-] [= <-] Hcost.
    destruct (decide (site = "jobs.bg")) as [-> | Hne1].
    + rewrite lookup_insert_eq in Hcost. injection Hcost as <-. lia.
    + rewrite lookup_insert_ne in Hcost by congruence.
      destruct (decide (site = "default")) as [-> | Hne2].
      * rewrite lookup_insert_eq in Hcost. injection Hcost as <-. lia.
      * rewrite lookup_insert_ne, lookup_empty in Hcost by congruence.
        discriminate.
  - vm_compute. discriminate.
Defined.

End OrchestratorRunsFacts.

(** ** More facts about the session registry *)

Module EnginePoolFacts.
Import Js BrowserEngine EnginePool BrowserEngineFacts.

(** *** The form of session ids *)

Lemma hexDigit_isHex n : 0 <= n < 16 -> isHexDigit (Md5.hexDigit n) = true.
Proof.
  intros Hn.
  replace n with (Z.of_nat (Z.to_nat n)) by lia.
  assert (Z.to_nat n < 16)%nat as Hk by lia.
  revert Hk. generalize (Z.to_nat n) as k. intros k Hk.
  do 16 (destruct k as [|k]; [reflexivity|]). lia.
Qed.

Lemma hexByte_allHex x rest :
  allHex rest = true -> allHex (Md5.hexByte (Z.land x 0xff) +:+ rest) = true.
Proof.
  intros Hrest.
  assert (0 <= Z.land x 0xff < 256) as Hb.
  { change 0xff with (Z.ones 8). rewrite Z.land_ones by lia.
    apply Z.mod_pos_bound. lia. }
  unfold Md5.hexByte. simpl.
  assert (0 <= Z.land x 255 / 16 < 16) as Hhi
    by (split; [apply Z.div_pos; lia | apply Z.div_lt_upper_bound; lia]).
  assert (0 <= Z.land x 255 mod 16 < 16) as Hlo by (apply Z.mod_pos_bound; lia).
  change ("" +:+ rest) with rest.
  rewrite (hexDigit_isHex _ Hhi), (hexDigit_isHex _ Hlo), Hrest. reflexivity.
Qed.

Lemma substring_hexByte n x rest :
  String.substring 0 (S (S n)) (Md5.hexByte x +:+ rest)
  = Md5.hexByte x +:+ String.substring 0 n rest.
Proof. reflexivity. Qed.

Lemma substring_none s : String.substring 0 0 s = "".
Proof. destruct s; reflexivity. Qed.

Lemma length_hexByte x rest :
  String.length (Md5.hexByte x +:+ rest) = S (S (String.length rest)).
Proof. reflexivity. Qed.

Lemma digest_prefix_format s :
  String.length (String.substring 0 8 (Md5.digestHex s)) = 8%nat /\
  allHex (String.substring 0 8 (Md5.digestHex s)) = true.
Proof.
  unfold Md5.digestHex.
  destruct (Md5.absorb _ _ _) as [[[a b] c] d].
  cbn [Md5.littleEndian app Md5.hexOfBytes fold_right].
  rewrite !substring_hexByte, substring_none.
  split.
  - now rewrite !length_hexByte.
  - repeat apply hexByte_allHex. reflexivity.
Qed.

(** X18: every session id, deterministic or freshly generated, consists of
    exactly 8 lower-case hexadecimal digits. *)
Theorem sessionId_format env cfg forceNew :
  String.length (generateSessionId env cfg forceNew) = 8%nat /\
  allHex (generateSessionId env cfg forceNew) = true.
Proof.
  unfold generateSessionId. destruct forceNew; apply digest_prefix_format.
Qed.

(** *** What the key is made of *)

Lemma getSession_registers env cfg e s e' :
  getSession env cfg e = (Resolved s, e') ->
  sessions e' !! generateSessionId env cfg false = Some s.
Proof.
  intros Hget.
  destruct (sessions e !! generateSessionId env cfg false) as [s0|] eqn:Hlook.
  - rewrite (getSession_existing _ _ _ _ Hlook) in Hget.
    injection Hget as <- <-. simpl. apply lookup_insert_eq.
  - rewrite (getSession_missing _ _ _ Hlook) in Hget.
    destruct (createNewSession_generated _ _ _ _ _ _ _ _ Hget)
      as [_ [_ [_ [_ ->]]]].
    apply lookup_insert_eq.
Qed.

Lemma sameKeyFields_id envA envB cfgA cfgB :
  sameKeyFields cfgA cfgB ->
  generateSessionId envA cfgA false = generateSessionId envB cfgB false.
Proof.
  intros [Hsite [Hua [Hhead Hstealth]]].
  unfold generateSessionId, baseStr. now rewrite Hsite, Hua, Hhead, Hstealth.
Qed.

(** X19: only the site name, the user agent (absent, empty and 'default'
    being the same), the headless flag and the stealth flag (absent being
    false) enter the key.  An acquire with a configuration that agrees
    with an earlier one on these gets the earlier session back, on its
    context and with the earlier configuration: the other fields of the
    new configuration are ignored, and no context is created. *)
Theorem session_key_ignores_other_fields envA envB cfgA cfgB e0 s1 e1 s2 e2 :
  sameKeyFields cfgA cfgB ->
  getSession envA cfgA e0 = (Resolved s1, e1) ->
  getSession envB cfgB e1 = (Resolved s2, e2) ->
  config s2 = config s1 /\
  context s2 = context s1 /\
  id s2 = id s1 /\
  contextsCreated e2 = contextsCreated e1.
Proof.
  intros Hsame H1 H2.
  pose proof (getSession_registers _ _ _ _ _ H1) as Hreg.
  rewrite (sameKeyFields_id envA envB cfgA cfgB Hsame) in Hreg.
  rewrite (getSession_existing _ _ _ _ Hreg) in H2.
  injection H2 as <- <-. simpl. repeat split.
Qed.

Lemma session_key_ignores_other_fields_witness :
  exists s1 e1 s2 e2,
    getSession (Scenarios.quietEnv 1000 "0.5") jobsBgConfig emptyEngine
      = (Resolved s1, e1) /\
    getSession (Scenarios.quietEnv 2000 "0.5") lightConfig e1 = (Resolved s2, e2) /\
    config s2 = jobsBgConfig /\ context s2 = context s1.
Proof.
  pose (r1 := getSession (Scenarios.quietEnv 1000 "0.5") jobsBgConfig emptyEngine).
  pose (r2 := getSession (Scenarios.quietEnv 2000 "0.5") lightConfig r1.2).
  exists (mkSession "8e1c2e8e" jobsBgConfig 1000 1000 0 0), r1.2,
         (touch (Scenarios.quietEnv 2000 "0.5")
            (mkSession "8e1c2e8e" jobsBgConfig 1000 1000 0 0)), r2.2.
  split; [vm_compute; reflexivity|]. split; [vm_compute; reflexivity|].
  destruct (session_key_ignores_other_fields
              (Scenarios.quietEnv 1000 "0.5") (Scenarios.quietEnv 2000 "0.5")
              jobsBgConfig lightConfig emptyEngine
              (mkSession "8e1c2e8e" jobsBgConfig 1000 1000 0 0) r1.2
              (touch (Scenarios.quietEnv 2000 "0.5")
                 (mkSession "8e1c2e8e" jobsBgConfig 1000 1000 0 0)) r2.2)
    as [Hcfg [Hctx _]].
  - repeat split.
  - vm_compute. reflexivity.
  - vm_compute. reflexivity.
  - split; [exact Hcfg | exact Hctx].
Defined.

(** *** Closing *)

Lemma closeSession_lookup env sessionId e key :
  closeError env = None ->
  sessions (closeSession env sessionId e) !! key
  = if decide (key = sessionId) then None else sessions e !! key.
Proof.
  intros Hok. unfold closeSession.
  destruct (sessions e !! sessionId) as [s|] eqn:Hs.
  - rewrite Hok. simpl. case_decide as Hk.
    + subst. apply lookup_delete_eq.
    + now apply lookup_delete_ne.
  - case_decide as Hk; [now subst | reflexivity].
Qed.

(** X20: closing is safe to repeat: once a close has succeeded, closing the
    same id again changes nothing and records no second closure of the
    context, rotating it is refused with 'Session ... not found', and the
    id is free for [getSession] to create a session anew. *)
Theorem closeSession_once env env' sessionId e :
  closeError env = None ->
  let closed := closeSession env sessionId e in
  closeSession env' sessionId closed = closed /\
  sessions closed !! sessionId = None /\
  rotateSession env' sessionId closed
  = (Rejected ("Session " +:+ sessionId +:+ " not found"), closed).
Proof.
  intros Hok closed.
  assert (sessions closed !! sessionId = None) as Hgone.
  { subst closed. rewrite closeSession_lookup by exact Hok.
    now rewrite decide_True. }
  split; [|split; [exact Hgone|]].
  - unfold closeSession at 1. now rewrite Hgone.
  - unfold rotateSession. now rewrite Hgone.
Qed.

Lemma closeSession_once_witness :
  closeSession (Scenarios.quietEnv 10 "0.5") "8e1c2e8e"
    (closeSession (Scenarios.quietEnv 5 "0.5") "8e1c2e8e"
       Scenarios.engineWithOldSession)
  = closeSession (Scenarios.quietEnv 5 "0.5") "8e1c2e8e"
      Scenarios.engineWithOldSession.
Proof.
  apply (proj1 (closeSession_once (Scenarios.quietEnv 5 "0.5")
                  (Scenarios.quietEnv 10 "0.5") "8e1c2e8e"
                  Scenarios.engineWithOldSession eq_refl)).
Defined.

Lemma closeSession_failing reason sessionId e :
  closeSession (closingEnv (Some reason)) sessionId e = e.
Proof. unfold closeSession. simpl. now destruct (sessions e !! sessionId). Qed.

Lemma closeAll_lookup closeFailure (ids : list string) e key :
  sessions (foldr (fun sessionId acc =>
                     closeSession (closingEnv (closeFailure sessionId)) sessionId acc)
                  e ids) !! key
  = if decide (key ∈ ids /\ closeFailure key = None) then None
    else sessions e !! key.
Proof.
  induction ids as [|i ids IH]; cbn [foldr].
  - rewrite decide_False by (intros [H _]; inversion H). reflexivity.
  - destruct (closeFailure i) as [reason|] eqn:Hi.
    + rewrite closeSession_failing, IH.
      repeat case_decide; try reflexivity; exfalso;
        rewrite ?elem_of_cons in *; intuition congruence.
    + rewrite closeSession_lookup by reflexivity. rewrite IH.
      repeat case_decide; try reflexivity; exfalso;
        rewrite ?elem_of_cons in *; intuition congruence.
Qed.

(** X21: after [closeAllSessions] the registry holds exactly the sessions
    whose close raised.  When no close raises it is empty
    ([activeSessions = 0]), and calling [closeAllSessions] again changes
    nothing. *)
Theorem closeAllSessions_empties closeFailure e :
  (forall key,
     sessions (closeAllSessions closeFailure e) !! key
     = match closeFailure key with
       | None => None
       | Some _ => sessions e !! key
       end) /\
  ((forall key, closeFailure key = None) ->
   sessions (closeAllSessions closeFailure e) = ∅ /\
   activeSessions (closeAllSessions closeFailure e) = 0%nat /\
   forall again,
     closeAllSessions again (closeAllSessions closeFailure e)
     = closeAllSessions closeFailure e).
Proof.
  assert (forall key,
            sessions (closeAllSessions closeFailure e) !! key
            = match closeFailure key with
              | None => None
              | Some _ => sessions e !! key
              end) as Hlookup.
  { intros key. unfold closeAllSessions. rewrite closeAll_lookup.
    destruct (closeFailure key) as [reason|] eqn:Hk.
    - rewrite decide_False by (intros [_ [=]]). reflexivity.
    - destruct (sessions e !! key) as [s|] eqn:Hs.
      + rewrite decide_True; [reflexivity|]. split; [|reflexivity].
        apply list_elem_of_In, in_map_iff. exists (key, s). split; [reflexivity|].
        apply list_elem_of_In, elem_of_map_to_list. exact Hs.
      + case_decide; reflexivity. }
  split; [exact Hlookup|].
  intros Hok.
  assert (sessions (closeAllSessions closeFailure e) = ∅) as Hempty.
  { apply map_empty. intros key. rewrite Hlookup, Hok. reflexivity. }
  split; [exact Hempty|]. split.
  - unfold activeSessions. rewrite Hempty. apply map_size_empty.
  - intros again. unfold closeAllSessions at 1. rewrite Hempty.
    rewrite map_to_list_empty. reflexivity.
Qed.

(** *** Contexts of registered sessions *)

Lemma poolSound_empty : poolSound emptyEngine.
Proof.
  split.
  - apply emptyEngine_consistent.
  - intros key session H. simpl in H. now rewrite lookup_empty in H.
  - intros k1 k2 s1 s2 H. simpl in H. now rewrite lookup_empty in H.
  - split; [constructor | intros c []].
Qed.

Lemma poolSound_ext e e' :
  sessions e' = sessions e -> contextsCreated e' = contextsCreated e ->
  contextsClosed e' = contextsClosed e -> poolSound e -> poolSound e'.
Proof.
  intros Hs Hc Hd [Hids Hlive Hapart Hclosed].
  split; unfold registryConsistent; rewrite ?Hs, ?Hc, ?Hd; assumption.
Qed.

Lemma poolSound_insert_fresh e key session b :
  poolSound e -> id session = key -> context session = contextsCreated e ->
  poolSound {| browser := b; sessions := <[key := session]> (sessions e);
               contextsCreated := S (contextsCreated e);
               contextsClosed := contextsClosed e |}.
Proof.
  intros [Hids Hlive Hapart [Hnodup Hbound]] Hid Hctx. split; simpl.
  - apply map_Forall_insert_2; assumption.
  - intros k s. rewrite lookup_insert. case_decide as Hk.
    + intros [= <-]. rewrite Hctx. split; [lia|].
      intros Hin. apply Hbound in Hin. lia.
    + intros Hs. destruct (Hlive _ _ Hs). split; [lia | assumption].
  - intros k1 k2 s1 s2. rewrite !lookup_insert.
    repeat case_decide; subst; try congruence.
    + intros [= <-] Hs2 Heq. destruct (Hlive _ _ Hs2). lia.
    + intros Hs1 [= <-] Heq. destruct (Hlive _ _ Hs1). lia.
    + apply Hapart.
  - split; [assumption|]. intros c Hin. apply Hbound in Hin. lia.
Qed.

Lemma poolSound_touch env e key session :
  poolSound e -> sessions e !! key = Some session ->
  poolSound {| browser := browser e;
               sessions := <[key := touch env session]> (sessions e);
               contextsCreated := contextsCreated e;
               contextsClosed := contextsClosed e |}.
Proof.
  intros [Hids Hlive Hapart Hclosed] Hreg. split; simpl.
  - apply map_Forall_insert_2; [exact (Hids _ _ Hreg) | assumption].
  - intros k s. rewrite lookup_insert. case_decide as Hk.
    + intros [= <-]. subst. exact (Hlive _ _ Hreg).
    + apply Hlive.
  - intros k1 k2 s1 s2. rewrite !lookup_insert.
    repeat case_decide; subst; try congruence.
    + intros [= <-] Hs2 Heq. exact (Hapart _ _ _ _ Hreg Hs2 Heq).
    + intros Hs1 [= <-] Heq. exact (Hapart _ _ _ _ Hs1 Hreg Heq).
    + apply Hapart.
  - assumption.
Qed.

Lemma poolSound_closeSession env sessionId e :
  poolSound e -> poolSound (closeSession env sessionId e).
Proof.
  intros Hsound. pose proof Hsound as [Hids Hlive Hapart [Hnodup Hbound]].
  unfold closeSession.
  destruct (sessions e !! sessionId) as [s|] eqn:Hs; [|exact Hsound].
  destruct (closeError env); [exact Hsound|].
  destruct (Hlive _ _ Hs) as [Hlt Hopen]. split; simpl.
  - now apply map_Forall_delete.
  - intros k s'. rewrite lookup_delete. case_decide as Hk; [discriminate|].
    intros Hs'. destruct (Hlive _ _ Hs') as [Hlt' Hopen']. split; [exact Hlt'|].
    intros [Heq | Hin]; [|contradiction].
    apply Hk. symmetry. exact (Hapart _ _ _ _ Hs' Hs (eq_sym Heq)).
  - intros k1 k2 s1 s2. rewrite !lookup_delete.
    repeat case_decide; try discriminate. apply Hapart.
  - split; [constructor; [now rewrite list_elem_of_In | assumption]|].
    intros c [<- | Hin]; [exact Hlt | now apply Hbound].
Qed.

Lemma poolSound_createNewSession env cfg env0 cfg0 forceNew e :
  poolSound e ->
  poolSound (createNewSession env cfg
               (Some (generateSessionId env0 cfg0 forceNew)) e).2.
Proof.
  intros Hsound. unfold createNewSession. rewrite orStr_generated.
  destruct (if browser e then None else launchError env); [exact Hsound|].
  destruct (contextError env); simpl.
  - now apply (poolSound_ext e).
  - now apply poolSound_insert_fresh.
Qed.

Lemma poolSound_getSession env cfg e :
  poolSound e -> poolSound (getSession env cfg e).2.
Proof.
  intros Hsound. unfold getSession.
  destruct (sessions e !! generateSessionId env cfg false) as [s|] eqn:Hs.
  - now apply poolSound_touch.
  - now apply poolSound_createNewSession.
Qed.

Lemma poolSound_rotateSession env sessionId e :
  poolSound e -> poolSound (rotateSession env sessionId e).2.
Proof.
  intros Hsound. unfold rotateSession.
  destruct (sessions e !! sessionId); [|exact Hsound].
  apply poolSound_createNewSession. now apply poolSound_closeSession.
Qed.

Lemma poolSound_closeAll closeFailure e :
  poolSound e -> poolSound (closeAllSessions closeFailure e).
Proof.
  intros Hsound. unfold closeAllSessions.
  induction (map fst (map_to_list (sessions e))) as [|i ids IH]; simpl;
    [exact Hsound | now apply poolSound_closeSession].
Qed.

(** X22: whatever sequence of acquire, close, rotate and close-all calls is
    made on an engine that starts empty, and whichever of them fail, the
    registry stays sound: every entry is filed under its own id, sits on
    a context that exists and has not been closed, no two entries share a
    context, and no context is closed twice.  In particular a session that
    [getSession] then hands out is on an open context of its own. *)
Theorem pool_stays_sound calls :
  poolSound (performAll calls emptyEngine) /\
  forall env cfg session e',
    getSession env cfg (performAll calls emptyEngine) = (Resolved session, e') ->
    ~ In (context session) (contextsClosed e') /\
    forall key other,
      sessions e' !! key = Some other ->
      context other = context session -> key = id session.
Proof.
  assert (forall e, poolSound e -> poolSound (performAll calls e)) as Hall.
  { unfold performAll. induction calls as [|call calls IH]; intros e Hsound;
      simpl; [exact Hsound|].
    apply IH. destruct call; simpl.
    - now apply poolSound_getSession.
    - now apply poolSound_closeSession.
    - now apply poolSound_rotateSession.
    - now apply poolSound_closeAll. }
  pose proof (Hall _ poolSound_empty) as Hsound.
  split; [exact Hsound|].
  intros env cfg session e' Hget.
  pose proof (poolSound_getSession env cfg _ Hsound) as Hsound'.
  rewrite Hget in Hsound'. simpl in Hsound'.
  destruct (getSession_id _ _ _ _ _ (soundIds _ Hsound) Hget) as [Hid [Hreg _]].
  destruct Hsound' as [_ Hlive Hapart _].
  split; [exact (proj2 (Hlive _ _ Hreg))|].
  intros key other Hother Hctx.
  rewrite Hid. exact (Hapart _ _ _ _ Hother Hreg Hctx).
Qed.

(** *** Rotation *)

(** X23: a rotation that succeeds returns a session on a context created for
    it, different from the context of the session it replaces, and
    registered under the new id.  When closing the old context succeeded,
    that context is closed and the old id is no longer registered (unless
    the new id happens to equal it); when closing raised, the old session
    stays registered under the old id, on its context, which is still
    open. *)
Theorem rotateSession_replaces env sessionId e current rotated e' :
  poolSound e ->
  sessions e !! sessionId = Some current ->
  rotateSession env sessionId e = (Resolved rotated, e') ->
  context rotated = contextsCreated e /\
  context rotated <> context current /\
  sessions e' !! id rotated = Some rotated /\
  (closeError env = None ->
   In (context current) (contextsClosed e') /\
   (id rotated <> sessionId -> sessions e' !! sessionId = None)) /\
  (closeError env <> None -> id rotated <> sessionId ->
   sessions e' !! sessionId = Some current /\
   ~ In (context current) (contextsClosed e')).
Proof.
  intros Hsound Hcur Hrot.
  destruct (Hsound.(soundLive _) _ _ Hcur) as [Hlt Hopen].
  unfold rotateSession in Hrot. rewrite Hcur in Hrot.
  destruct (createNewSession_generated _ _ _ _ _ _ _ _ Hrot)
    as [Hid [_ [Hctx [_ Hsessions]]]].
  assert (contextsCreated (closeSession env sessionId e) = contextsCreated e) as Hsame.
  { unfold closeSession. rewrite Hcur. destruct (closeError env); reflexivity. }
  assert (contextsClosed e' = contextsClosed (closeSession env sessionId e)) as Hclosed.
  { revert Hrot. unfold createNewSession. rewrite orStr_generated.
    destruct (if browser _ then None else launchError env); [discriminate|].
    destruct (contextError env); [discriminate|]. now intros [= _ <-]. }
  rewrite Hsame in Hctx.
  split; [exact Hctx|]. split; [lia|].
  split; [rewrite Hsessions, Hid; apply lookup_insert_eq|].
  split.
  - intros Hok. split.
    + rewrite Hclosed. unfold closeSession. rewrite Hcur, Hok. now left.
    + intros Hne. rewrite Hsessions, lookup_insert_ne by congruence.
      rewrite closeSession_lookup by exact Hok. now rewrite decide_True.
  - intros Hfail Hne.
    assert (closeSession env sessionId e = e) as Hkept.
    { unfold closeSession. rewrite Hcur.
      destruct (closeError env); [reflexivity | contradiction]. }
    rewrite Hkept in *. split.
    + rewrite Hsessions, lookup_insert_ne by congruence. exact Hcur.
    + now rewrite Hclosed.
Qed.

Lemma rotateSession_replaces_witness :
  exists rotated e',
    rotateSession (Scenarios.quietEnv 2000 "0.25") "8e1c2e8e"
      (getSession (Scenarios.quietEnv 1000 "0.5") jobsBgConfig emptyEngine).2
    = (Resolved rotated, e') /\
    context rotated = 1%nat /\
    In 0%nat (contextsClosed e').
Proof.
  pose (e1 := (getSession (Scenarios.quietEnv 1000 "0.5") jobsBgConfig emptyEngine).2).
  pose (r := rotateSession (Scenarios.quietEnv 2000 "0.25") "8e1c2e8e" e1).
  destruct (rotateSession_replaces (Scenarios.quietEnv 2000 "0.25") "8e1c2e8e" e1
              (mkSession "8e1c2e8e" jobsBgConfig 1000 1000 0 0)
              (mkSession "405e8f8c" jobsBgConfig 2000 2000 0 1) r.2)
    as [Hctx [_ [_ [Hclosed _]]]].
  - apply poolSound_getSession, poolSound_empty.
  - vm_compute. reflexivity.
  - vm_compute. reflexivity.
  - exists (mkSession "405e8f8c" jobsBgConfig 2000 2000 0 1), r.2.
    split; [vm_compute; reflexivity|]. split; [reflexivity|].
    exact (proj1 (Hclosed eq_refl)).
Defined.

End EnginePoolFacts.

(** ** Properties of the scroll loop *)

Module InfiniteScrollFacts.
Import Js InfiniteScroll.

Lemma countOps_app f t1 t2 : countOps f (t1 ++ t2) = (countOps f t1 + countOps f t2)%nat.
Proof. unfold countOps. now rewrite List.filter_app, List.length_app. Qed.

Lemma countOps_one f op : countOps f [op] = if f op then 1%nat else 0%nat.
Proof. unfold countOps. simpl. now destruct (f op). Qed.

Lemma countOps_nil f : countOps f [] = 0%nat.
Proof. reflexivity. Qed.

Ltac count :=
  rewrite ?countOps_app, ?countOps_one, ?countOps_nil;
  cbn [isRead isBottom isMouseMove].

Lemma perform_steady page op trace :
  (forall k, pageError page k = None) ->
  perform page op trace = (Resolved tt, trace ++ [op]).
Proof. intros H. unfold perform. now rewrite H. Qed.

Lemma readHeight_steady page trace :
  (forall k, pageError page k = None) ->
  readHeight page trace
  = (Resolved (scrollHeight page (countOps isRead trace)), trace ++ [ReadHeight]).
Proof. intros H. unfold readHeight. now rewrite H. Qed.

Lemma third_step n :
  (S n / 3 = n / 3 + (if (S n mod 3 =? 0) then 1 else 0))%nat.
Proof.
  pose proof (Nat.div_mod_eq n 3) as Hn.
  pose proof (Nat.div_mod_eq (S n) 3) as Hs.
  assert (n mod 3 < 3)%nat as Bn by (apply Nat.mod_upper_bound; lia).
  assert (S n mod 3 < 3)%nat as Bs by (apply Nat.mod_upper_bound; lia).
  destruct (Nat.eqb_spec (S n mod 3) 0) as [H0 | H0]; lia.
Qed.

(** Every pass of the loop performs the same five operations, and a
    sixth on each third pass. *)
Lemma scrollLoop_steady page :
  (forall k, pageError page k = None) ->
  forall remaining attempts trace,
    (attempts + remaining = maxAttempts)%nat ->
    countOps isRead trace = S attempts ->
    countOps isBottom trace = attempts ->
    countOps isMouseMove trace = (attempts / 3)%nat ->
    (forall k, (k < attempts)%nat -> previousOf page k <> scrollHeight page k) ->
    exists passes trace',
      scrollLoop page remaining (previousOf page attempts)
        (scrollHeight page attempts) attempts trace
      = (Resolved passes, trace') /\
      (passes <= maxAttempts)%nat /\
      countOps isRead trace' = S passes /\
      countOps isBottom trace' = passes /\
      countOps isMouseMove trace' = (passes / 3)%nat /\
      (forall k, (k < passes)%nat -> previousOf page k <> scrollHeight page k) /\
      ((passes < maxAttempts)%nat ->
       previousOf page passes = scrollHeight page passes).
Proof.
  intros Hsteady.
  induction remaining as [|rest IH];
    intros attempts trace Hsum Hread Hbottom Hmouse Hdiffer.
  - exists attempts, trace. simpl.
    destruct (Z.eqb_spec (previousOf page attempts) (scrollHeight page attempts));
      (split; [reflexivity|]); repeat split; auto; lia.
  - cbn [scrollLoop].
    destruct (Z.eqb_spec (previousOf page attempts) (scrollHeight page attempts))
      as [Heq | Hne].
    { exists attempts, trace. split; [reflexivity|]. repeat split; auto; lia. }
    unfold bind.
    rewrite !perform_steady, readHeight_steady by exact Hsteady.
    count. rewrite Hread.
    replace (S attempts + 0 + 0 + 0 + 0)%nat with (S attempts) by lia.
    set (trace1 := ((((trace ++ _) ++ _) ++ _) ++ _) ++ [ReadHeight]).
    assert (countOps isRead trace1 = S (S attempts)) as Hread1.
    { unfold trace1. count. lia. }
    assert (countOps isBottom trace1 = S attempts) as Hbottom1.
    { unfold trace1. count. lia. }
    assert (countOps isMouseMove trace1 = (attempts / 3)%nat) as Hmouse1.
    { unfold trace1. count. lia. }
    assert (forall k, (k < S attempts)%nat ->
                      previousOf page k <> scrollHeight page k) as Hdiffer1.
    { intros k Hk. destruct (Nat.eq_dec k attempts) as [-> | Hother];
        [exact Hne | apply Hdiffer; lia]. }
    pose proof (third_step attempts) as Hthird.
    destruct (S attempts mod 3 =? 0)%nat; cbv iota.
    + rewrite perform_steady by exact Hsteady.
      apply (IH (S attempts)); try assumption; try lia.
      * count. lia.
      * count. lia.
      * count. lia.
    + unfold ret. apply (IH (S attempts)); try assumption; lia.
Qed.

(** Whatever the page does, the loop makes at most fifteen passes. *)
Lemma scrollLoop_passes page remaining :
  forall previous current attempts trace,
    (countOps isBottom (scrollLoop page remaining previous current attempts trace).2
     <= countOps isBottom trace + remaining)%nat.
Proof.
  induction remaining as [|rest IH]; intros previous current attempts trace; simpl.
  - destruct (previous =? current); simpl; lia.
  - destruct (previous =? current); [simpl; lia|].
    unfold bind, perform, readHeight, ret.
    repeat match goal with
           | |- context [pageError page ?k] => destruct (pageError page k)
           | |- context [if ?c then _ else _] => destruct c
           end;
      cbn [snd fst];
      try (etransitivity; [apply IH|]);
      count; lia.
Qed.

(** X24: on a page where no operation raises, the scroll resolves after at
    most fifteen passes.  It reads the height once before the loop and
    once per pass, moves the pointer on every third pass, makes a pass
    exactly as long as the height just read differs from the one before
    (0 before the first reading), and when it stops short of fifteen
    passes the last two readings agree.  In particular a page whose first
    reading is 0 is not scrolled at all.  Whatever the page does, no run
    makes more than fifteen passes. *)
Theorem performInfiniteScroll_passes page :
  (countOps isBottom (performInfiniteScroll page []).2 <= maxAttempts)%nat /\
  ((forall k, pageError page k = None) ->
   exists trace,
     performInfiniteScroll page [] = (Resolved tt, trace) /\
     let passes := countOps isBottom trace in
     countOps isRead trace = S passes /\
     countOps isMouseMove trace = (passes / 3)%nat /\
     (forall k, (k < passes)%nat -> previousOf page k <> scrollHeight page k) /\
     ((passes < maxAttempts)%nat ->
      previousOf page passes = scrollHeight page passes) /\
     (scrollHeight page 0 = 0 -> passes = 0%nat)).
Proof.
  split.
  - unfold performInfiniteScroll, bind, readHeight. simpl length.
    destruct (pageError page 0); [cbn [snd]; count; unfold maxAttempts; lia|].
    pose proof (scrollLoop_passes page maxAttempts 0
                  (scrollHeight page (countOps isRead [])) 0%nat ([] ++ [ReadHeight]))
      as Hbound.
    destruct (scrollLoop page maxAttempts 0 _ 0%nat _) as [[passes | message] trace];
      cbn [snd] in Hbound |- *; [|exact Hbound].
    unfold perform.
    repeat match goal with
           | |- context [pageError page ?k] => destruct (pageError page k)
           end; cbn [snd]; count; unfold maxAttempts in *; revert Hbound; count; lia.
  - intros Hsteady.
    unfold performInfiniteScroll, bind.
    rewrite readHeight_steady by exact Hsteady.
    destruct (scrollLoop_steady page Hsteady maxAttempts 0%nat ([] ++ [ReadHeight]))
      as [passes [trace [Hrun [Hle [Hread [Hbottom [Hmouse [Hdiffer Hstable]]]]]]]];
      try reflexivity; try (intros k Hk; lia).
    change (countOps isRead []) with 0%nat.
    change (previousOf page 0) with 0 in Hrun. rewrite Hrun.
    rewrite !perform_steady by exact Hsteady.
    eexists. split; [reflexivity|].
    cbv zeta. count. rewrite Hread, Hbottom, Hmouse, !Nat.add_0_r.
    repeat split; auto.
    intros Hzero. destruct passes as [|p]; [reflexivity|].
    exfalso. apply (Hdiffer 0%nat); [lia | now rewrite Hzero].
Qed.

Lemma performInfiniteScroll_passes_witness :
  exists trace,
    performInfiniteScroll (steady (fun k => Z.of_nat (Nat.min k 4) * 900 + 1200)) []
    = (Resolved tt, trace) /\
    countOps isBottom trace = 5%nat /\
    countOps isMouseMove trace = 1%nat.
Proof.
  destruct (proj2 (performInfiniteScroll_passes
                     (steady (fun k => Z.of_nat (Nat.min k 4) * 900 + 1200)))
              (fun _ => eq_refl))
    as [trace [Hrun [_ [Hmouse _]]]].
  exists trace. split; [exact Hrun|].
  assert (trace = (performInfiniteScroll
                     (steady (fun k => Z.of_nat (Nat.min k 4) * 900 + 1200)) []).2)
    as -> by now rewrite Hrun.
  split; vm_compute; reflexivity.
Defined.

End InfiniteScrollFacts.

(** ** Properties of [fetchPage] and [getStats] *)

Module PageFetchFacts.
Import Js BrowserEngine PageFetch.

Lemma fetchPage_cases run url session options stats :
  (exists response html cookies,
     tryBlock run session options = Resolved (response, html, cookies) /\
     Orchestrator.success (fetchPage run url session options stats).1.1 = true /\
     (fetchPage run url session options stats).2
     = {| totalRequests := totalRequests stats + 1;
          totalLoadTime := totalLoadTime stats + (clock run 2%nat - clock run 0%nat);
          successfulRequests := successfulRequests stats + 1 |}) \/
  (exists message,
     tryBlock run session options = Rejected message /\
     (fetchPage run url session options stats).1.1
     = fetchFailure url message (clock run 2%nat - clock run 0%nat) /\
     (fetchPage run url session options stats).2
     = {| totalRequests := totalRequests stats + 1;
          totalLoadTime := totalLoadTime stats + (clock run 2%nat - clock run 0%nat);
          successfulRequests := successfulRequests stats |}).
Proof.
  unfold fetchPage.
  destruct (tryBlock run session options) as [[[response html] cookies] | message].
  - left. exists response, html, cookies. repeat split.
  - right. exists message. repeat split.
Qed.

Lemma tryBlock_sideSteps run session options prelude selector :
  tryBlock (withSideSteps run prelude selector) session options
  = tryBlock run session options.
Proof.
  unfold tryBlock, withSideSteps; simpl.
  destruct (String.eqb (siteName (config session)) "jobs.bg"); [|reflexivity].
  destruct (selectorFound run), selector; reflexivity.
Qed.

(** X25: every call of [fetchPage] is counted as a request and bumps the
    request count of the session it was given, whether it succeeds or
    not; it is counted as successful exactly when the response says
    [success]; a failed fetch answers with an empty page, status 0, the
    requested URL and the message of the error; a navigation that
    resolves to nothing is such a failure.  Neither a failure of the
    stealth prelude nor of the wait for the job cards changes the
    outcome. *)
Theorem fetchPage_accounting run url session options stats :
  let fetched := fetchPage run url session options stats in
  let response := fetched.1.1 in
  totalRequests fetched.2 = totalRequests stats + 1 /\
  requestCount fetched.1.2 = requestCount session + 1 /\
  lastActivity fetched.1.2 = clock run 3%nat /\
  id fetched.1.2 = id session /\
  successfulRequests fetched.2
  = successfulRequests stats + (if Orchestrator.success response then 1 else 0) /\
  totalLoadTime fetched.2 = totalLoadTime stats + Orchestrator.loadTime response /\
  (Orchestrator.success response = false ->
   Orchestrator.html response = "" /\ Orchestrator.status response = 0 /\
   Orchestrator.finalUrl response = url /\ Orchestrator.error response <> None) /\
  (waited run = Resolved tt -> navigated run = Resolved None ->
   Orchestrator.success response = false /\
   Orchestrator.error response = Some "No response received from page navigation") /\
  (forall prelude selector,
     fetchPage (withSideSteps run prelude selector) url session options stats
     = fetched).
Proof.
  intros fetched response.
  assert (forall prelude selector,
            fetchPage (withSideSteps run prelude selector) url session options stats
            = fetched) as Hsame.
  { intros prelude selector. unfold fetched, fetchPage.
    now rewrite tryBlock_sideSteps. }
  unfold response, fetched, fetchPage in *. clear fetched response.
  destruct (tryBlock run session options) as [[[nav html] cookies] | message] eqn:Htry;
    simpl; repeat split; try discriminate; try lia; try exact Hsame;
    intros; unfold tryBlock in Htry;
    repeat match goal with H : _ run = _ |- _ => rewrite H in Htry end;
    simpl in Htry; congruence.
Qed.

Lemma fetchPage_accounting_witness :
  let run := {| clock := fun k => 1000 + 250 * Z.of_nat k;
                stealthPrelude := Rejected "page crashed";
                waited := Resolved tt; navigated := Resolved None;
                loadState := Resolved tt; mouseMoved := Resolved tt;
                selectorFound := Resolved tt;
                scrollPage := InfiniteScroll.steady (fun _ => 0);
                content := Resolved "<html></html>"; pageUrl := "about:blank";
                cookiesRead := Resolved [] |} in
  let fetched := fetchPage run "https://www.jobs.bg" Scenarios.oldSession
                   {| infiniteScroll := None; stealthMode := Some true;
                      warmup := None |} noStats in
  Orchestrator.html fetched.1.1 = "" /\
  Orchestrator.error fetched.1.1 = Some "No response received from page navigation" /\
  totalRequests fetched.2 = 1.
Proof.
  intros run fetched.
  destruct (fetchPage_accounting run "https://www.jobs.bg" Scenarios.oldSession
              {| infiniteScroll := None; stealthMode := Some true;
                 warmup := None |} noStats)
    as [Htotal [_ [_ [_ [_ [_ [Hfailed [Hnull _]]]]]]]].
  destruct (Hnull eq_refl eq_refl) as [Hs He].
  split; [exact (proj1 (Hfailed Hs))|]. split; [exact He | exact Htotal].
Defined.

(** *** Statistics *)

Lemma fetchPage_stats_step f st :
  (fetchPage (fetchRun f) (fetchUrl f) (fetchSession f) (fetchOptions f) st).2
  = {| totalRequests := totalRequests st + 1;
       totalLoadTime := totalLoadTime st + elapsed f;
       successfulRequests :=
         successfulRequests st
         + (if Orchestrator.success (responseOf f) then 1 else 0) |}.
Proof.
  unfold responseOf, elapsed, fetchPage.
  destruct (tryBlock (fetchRun f) (fetchSession f) (fetchOptions f))
    as [[[nav html] cookies] | message]; simpl; f_equal; lia.
Qed.

Lemma sumZ_cons x l : sumZ (x :: l) = x + sumZ l.
Proof. reflexivity. Qed.

Lemma statsAfter_totals fetches :
  forall st,
    totalRequests (statsAfter fetches st)
    = totalRequests st + Z.of_nat (length fetches) /\
    totalLoadTime (statsAfter fetches st)
    = totalLoadTime st + sumZ (map elapsed fetches) /\
    successfulRequests (statsAfter fetches st)
    = successfulRequests st + successes fetches.
Proof.
  unfold statsAfter, successes.
  induction fetches as [|f fetches IH]; intros st.
  - simpl. repeat split; lia.
  - cbn [fold_left]. rewrite fetchPage_stats_step.
    destruct (IH {| totalRequests := totalRequests st + 1;
                    totalLoadTime := totalLoadTime st + elapsed f;
                    successfulRequests :=
                      successfulRequests st
                      + (if Orchestrator.success (responseOf f) then 1 else 0) |})
      as [Ht [Hl Hs]].
    rewrite Ht, Hl, Hs. cbn [totalRequests totalLoadTime successfulRequests].
    cbn [length map List.filter]. rewrite sumZ_cons.
    destruct (Orchestrator.success (responseOf f)); cbn [length];
      repeat split; lia.
Qed.

Lemma successes_bounds fetches :
  0 <= successes fetches <= Z.of_nat (length fetches).
Proof.
  unfold successes. pose proof (List.filter_length_le
    (fun f => Orchestrator.success (responseOf f)) fetches). lia.
Qed.

Lemma mathRound_mono x y : (x <= y)%Q -> mathRound x <= mathRound y.
Proof. intros H. apply Qfloor_resp_le. lra. Qed.

Lemma mathRound_inject z : mathRound (inject_Z z) = z.
Proof.
  unfold mathRound.
  pose proof (Qfloor_le (inject_Z z + (1 # 2))) as Hle.
  pose proof (Qlt_floor (inject_Z z + (1 # 2))) as Hlt.
  set (n := Qfloor (inject_Z z + (1 # 2))) in *.
  assert (inject_Z n < inject_Z (z + 1))%Q as Hup
    by (rewrite (inject_Z_plus z 1); change (inject_Z 1) with 1%Q; lra).
  assert (inject_Z z < inject_Z (n + 1))%Q as Hdown by lra.
  rewrite <- Zlt_Qlt in Hup, Hdown. lia.
Qed.

Lemma mathRound_near x :
  (x - (1 # 2) < inject_Z (mathRound x) /\ inject_Z (mathRound x) <= x + (1 # 2))%Q.
Proof.
  unfold mathRound.
  pose proof (Qfloor_le (x + (1 # 2))) as Hle.
  pose proof (Qlt_floor (x + (1 # 2))) as Hlt.
  rewrite inject_Z_plus in Hlt. change (inject_Z 1) with 1%Q in Hlt.
  split; lra.
Qed.

Lemma ratio_bounds a b lo hi :
  0 < b -> lo * b <= a <= hi * b ->
  (inject_Z lo <= inject_Z a / inject_Z b /\ inject_Z a / inject_Z b <= inject_Z hi)%Q.
Proof.
  intros Hb [Hlo Hhi].
  assert (0 < inject_Z b)%Q as Hpos by (change 0%Q with (inject_Z 0); now rewrite <- Zlt_Qlt).
  split.
  - apply Qle_shift_div_l; [exact Hpos|].
    rewrite <- inject_Z_mult, <- Zle_Qle. exact Hlo.
  - apply Qle_shift_div_r; [exact Hpos|].
    rewrite <- inject_Z_mult, <- Zle_Qle. exact Hhi.
Qed.

(** X26: after any sequence of fetches the statistics count every fetch,
    and the report gives a success rate that is a whole number of
    hundredths between 0 and 1, within half a hundredth of the true share
    of successful fetches; before the first fetch both the rate and the
    average are 0, and no division by zero happens. *)
Theorem getStats_successRate e fetches :
  let report := getStats e (statsAfter fetches noStats) in
  reportedRequests report = Z.of_nat (length fetches) /\
  activeSessions report = size (sessions e) /\
  (exists percent,
     0 <= percent <= 100 /\ successRate report = (inject_Z percent / 100)%Q) /\
  (fetches = [] -> (successRate report == 0)%Q /\ averageLoadTime report = 0) /\
  (fetches <> [] ->
   let share := (inject_Z (successes fetches)
                 / inject_Z (Z.of_nat (length fetches)))%Q in
   share - (1 # 200) <= successRate report /\
   successRate report <= share + (1 # 200))%Q.
Proof.
  intros report.
  destruct (statsAfter_totals fetches noStats) as [Ht [_ Hs]].
  cbn [noStats totalRequests successfulRequests] in Ht, Hs.
  rewrite Z.add_0_l in Ht, Hs.
  pose proof (successes_bounds fetches) as Hbounds.
  unfold report, getStats.
  cbn [reportedRequests activeSessions successRate averageLoadTime].
  rewrite Ht, Hs.
  split; [reflexivity|]. split; [reflexivity|].
  destruct fetches as [|f rest].
  - split; [|split; [intros _; split; reflexivity | congruence]].
    exists 0. split; [lia | reflexivity].
  - set (total := Z.of_nat (length (f :: rest))) in *.
    assert (0 < total) as Hpos by (unfold total; simpl; lia).
    destruct (Z.ltb_spec 0 total) as [_ | Hno]; [|lia].
    set (share := (inject_Z (successes (f :: rest)) / inject_Z total)%Q).
    destruct (ratio_bounds (successes (f :: rest)) total 0 1 Hpos ltac:(lia))
      as [Hlow Hhigh].
    fold share in Hlow, Hhigh.
    change (inject_Z 0) with 0%Q in Hlow. change (inject_Z 1) with 1%Q in Hhigh.
    destruct (mathRound_near (share * 100)) as [Hnear1 Hnear2].
    split; [|split; [discriminate|]].
    + exists (mathRound (share * 100)). split; [|reflexivity].
      assert (mathRound 0 <= mathRound (share * 100)) as H0
        by (apply mathRound_mono; lra).
      assert (mathRound (share * 100) <= mathRound 100) as H100
        by (apply mathRound_mono; lra).
      change (mathRound 0) with 0 in H0. change (mathRound 100) with 100 in H100.
      lia.
    + intros _. cbv zeta. fold share. split.
      * apply Qle_shift_div_l; lra.
      * apply Qle_shift_div_r; lra.
Qed.

(** X27: when every fetch took between [lo] and [hi] milliseconds on the
    clock, the average load time that is reported lies between them too. *)
Theorem getStats_averageLoadTime e fetches lo hi :
  fetches <> [] ->
  Forall (fun f => lo <= elapsed f <= hi) fetches ->
  lo <= averageLoadTime (getStats e (statsAfter fetches noStats)) <= hi.
Proof.
  intros Hsome Hall.
  destruct (statsAfter_totals fetches noStats) as [Ht [Hl _]].
  cbn [noStats totalRequests totalLoadTime] in Ht, Hl.
  rewrite Z.add_0_l in Ht, Hl.
  assert (lo * Z.of_nat (length fetches) <= sumZ (map elapsed fetches)
          <= hi * Z.of_nat (length fetches)) as Hsum.
  { clear Hsome Ht Hl. induction Hall as [|f rest Hf _ IH]; [simpl; lia|].
    cbn [length map]. rewrite sumZ_cons. nia. }
  unfold getStats. cbn [averageLoadTime]. rewrite Ht, Hl.
  assert (0 < Z.of_nat (length fetches)) as Hpos
    by (destruct fetches; [congruence | simpl; lia]).
  destruct (Z.ltb_spec 0 (Z.of_nat (length fetches))) as [_ | Hno]; [|lia].
  destruct (ratio_bounds _ _ lo hi Hpos Hsum) as [Hlow Hhigh].
  pose proof (mathRound_mono _ _ Hlow) as H1.
  pose proof (mathRound_mono _ _ Hhigh) as H2.
  rewrite mathRound_inject in H1, H2. split; assumption.
Qed.

Lemma getStats_averageLoadTime_witness :
  let run (took : Z) (page : outcome string) :=
    {| clock := fun k => 5000 + took * Z.of_nat (Nat.div k 2);
       stealthPrelude := Resolved tt;
       waited := Resolved tt;
       navigated := Resolved (Some {| navStatus := 200; navHeaders := [] |});
       loadState := Resolved tt; mouseMoved := Resolved tt;
       selectorFound := Resolved tt;
       scrollPage := InfiniteScroll.steady (fun _ => 0);
       content := page; pageUrl := "https://www.jobs.bg/";
       cookiesRead := Resolved [] |} in
  let fetch took page :=
    {| fetchRun := run took page; fetchUrl := "https://www.jobs.bg";
       fetchSession := Scenarios.oldSession;
       fetchOptions := {| infiniteScroll := None; stealthMode := None;
                          warmup := None |} |} in
  let fetches := [fetch 900 (Resolved "<ul></ul>");
                  fetch 1500 (Rejected "Navigation timeout");
                  fetch 1250 (Resolved "<ul></ul>")] in
  900 <= averageLoadTime (getStats emptyEngine (statsAfter fetches noStats)) <= 1500.
Proof.
  intros run fetch fetches.
  apply (getStats_averageLoadTime emptyEngine fetches 900 1500).
  - discriminate.
  - repeat constructor; vm_compute; discriminate.
Defined.

End PageFetchFacts.

(** ** Properties of the jobs.bg bypass *)

Module BypassFacts.
Import Js JsString BrowserEngine PageFetch Bypass.

Lemma fetchShared_requests run url session options svc :
  totalRequests (stats (fetchShared run url session options svc).2)
  = totalRequests (stats svc) + 1.
Proof.
  unfold fetchShared, fetchPage.
  destruct (tryBlock run session options) as [[[nav html] cookies] | message];
    reflexivity.
Qed.

Lemma executeMultiPhaseBypass_requests run session url options svc :
  match executeMultiPhaseBypass run session url options svc with
  | (Resolved _, svc') =>
      totalRequests (stats svc') = totalRequests (stats svc) + 2
  | (Rejected _, svc') =>
      totalRequests (stats svc) <= totalRequests (stats svc')
      <= totalRequests (stats svc) + 1
  end.
Proof.
  unfold executeMultiPhaseBypass.
  destruct (guarded run 0); [|lia].
  pose proof (fetchShared_requests (homepageRun run) "https://www.jobs.bg"
                session homepageOptions svc) as Hhome.
  destruct (fetchShared (homepageRun run) "https://www.jobs.bg" session
              homepageOptions svc) as [[homepage session1] svc1].
  cbn [snd] in Hhome.
  destruct (guarded run 1); [|lia].
  destruct (guarded run 2); [|lia].
  destruct (guarded run 3); [|lia].
  pose proof (fetchShared_requests (targetRun run) url session1
                (targetOptions options) svc1) as Htarget.
  destruct (fetchShared (targetRun run) url session1 (targetOptions options) svc1)
    as [[response session2] svc2].
  cbn [snd] in Htarget. lia.
Qed.

Lemma executeJobsBgBypass_cases run url options svc :
  (exists message,
     (executeJobsBgBypass run url options svc).1 = Some (bypassFailure url message) /\
     totalRequests (stats svc)
     <= totalRequests (stats (executeJobsBgBypass run url options svc).2)
     <= totalRequests (stats svc) + 1) \/
  ((executeJobsBgBypass run url options svc).1 = None /\
   totalRequests (stats (executeJobsBgBypass run url options svc).2)
   = totalRequests (stats svc) + 2).
Proof.
  unfold executeJobsBgBypass.
  destruct (getSession (sessionEnv run) (bypassConfig (forceHeadless run)) (engine svc))
    as [[session | message] e'].
  - pose proof (executeMultiPhaseBypass_requests run session url options
                  {| engine := e'; stats := stats svc |}) as Hrequests.
    destruct (executeMultiPhaseBypass run session url options _)
      as [[response | message] svc']; cbn [stats] in Hrequests.
    + right. split; [reflexivity | exact Hrequests].
    + left. exists message. split; [reflexivity | exact Hrequests].
  - left. exists message. split; [reflexivity | simpl; lia].
Qed.

(** X28: the bypass never hands a fetched page to its caller.  Whenever it
    answers with a response, that response is the failure record (no
    page, status 0, the requested URL, the message of the error), and at
    most the homepage fetch was made; when all phases ran, both fetches
    were made and counted, and the call resolves to no value at all, the
    response of the final fetch being dropped. *)
Theorem executeJobsBgBypass_never_returns_page run url options svc :
  let result := executeJobsBgBypass run url options svc in
  match result.1 with
  | Some response =>
      Orchestrator.success response = false /\
      Orchestrator.html response = "" /\
      Orchestrator.status response = 0 /\
      Orchestrator.finalUrl response = url /\
      Orchestrator.error response <> None /\
      totalRequests (stats svc) <= totalRequests (stats result.2)
      <= totalRequests (stats svc) + 1
  | None =>
      totalRequests (stats result.2) = totalRequests (stats svc) + 2
  end.
Proof.
  intros result. unfold result.
  destruct (executeJobsBgBypass_cases run url options svc)
    as [[message [-> Hrequests]] | [-> Hrequests]].
  - repeat split; try discriminate; apply Hrequests.
  - exact Hrequests.
Qed.

Lemma append_assoc a b c : (a +:+ b) +:+ c = a +:+ b +:+ c.
Proof.
  induction a as [|x a IH]; [reflexivity|].
  change (String x ((a +:+ b) +:+ c) = String x (a +:+ b +:+ c)).
  now rewrite IH.
Qed.

Lemma includes_closed_browser message :
  includes message "Target page, context or browser has been closed" = true ->
  includes message "browser has been closed" = true.
Proof.
  rewrite !JsStringFacts.includes_spec. intros [pre [suf ->]].
  exists (pre +:+ "Target page, context or "), suf.
  rewrite append_assoc. reflexivity.
Qed.

(** X29: a guarded page operation yields [null] when the page is closed or
    the operation raises an error that mentions a closed browser or
    context, passes the operation's value on otherwise, and rethrows,
    with the same message, exactly the errors that mention neither; the
    first of the three patterns tested adds nothing to the other two. *)
Theorem safePageOperation_outcomes {T} closed (operation : outcome T) :
  (forall message,
     isConnectionError message
     = includes message "browser has been closed"
       || includes message "context has been closed") /\
  (forall message,
     safePageOperation closed operation = Rejected message <->
     closed = false /\ operation = Rejected message /\
     includes message "browser has been closed" = false /\
     includes message "context has been closed" = false) /\
  (forall value,
     safePageOperation closed operation = Resolved (Some value) <->
     closed = false /\ operation = Resolved value).
Proof.
  assert (forall message,
            isConnectionError message
            = includes message "browser has been closed"
              || includes message "context has been closed") as Hshort.
  { intros message. unfold isConnectionError.
    pose proof (includes_closed_browser message) as Himplied.
    destruct (includes message "Target page, context or browser has been closed");
      [rewrite Himplied by reflexivity|]; reflexivity. }
  split; [exact Hshort|].
  unfold safePageOperation. split.
  - intros message. destruct closed; [intuition discriminate|].
    destruct operation as [value | failure].
    + intuition discriminate.
    + rewrite Hshort.
      destruct (includes failure "browser has been closed") eqn:Hb;
        destruct (includes failure "context has been closed") eqn:Hc; simpl;
        split;
        try (intros [= <-]; auto);
        try (intros [_ [[= <-] [Hb' Hc']]]; congruence).
  - intros value. destruct closed; [intuition discriminate|].
    destruct operation as [v | failure].
    + split; [intros [= <-]; auto | intros [_ [= <-]]; reflexivity].
    + destruct (isConnectionError failure); intuition discriminate.
Qed.

Lemma jobsBgStrategy_alwaysFails world :
  Orchestrator.alwaysFails (jobsBgStrategy world).
Proof.
  intros ctx. unfold jobsBgStrategy.
  destruct (world ctx) as [run svc].
  destruct (executeJobsBgBypass_cases run (Orchestrator.url ctx)
              (Some {| wantInfiniteScroll := Some true; wantWarmup := Some false |})
              svc) as [[message [-> _]] | [-> _]]; simpl; auto.
Qed.

(** X30: with the bypass as the free strategy, as the jobs.bg scraper sets
    it up, no free attempt ever succeeds: whatever the browser does, the
    orchestrator makes every attempt its policy allows and then either
    goes on to the paid service or, with the fallback disabled, answers
    with the failure record. *)
Theorem jobsBg_free_attempts_never_succeed env context world options w :
  let strategy := jobsBgStrategy world in
  let rc := Orchestrator.retryConfigOf env options in
  exists c l trace,
    Orchestrator.freePhase env context strategy options w
    = (Resolved (Orchestrator.FreeGaveUp c l), Orchestrator.extend w trace) /\
    Orchestrator.freeAttempts trace
    = Orchestrator.attemptNumbers (Z.to_nat (Config.maxAttempts rc)) 1 /\
    Orchestrator.executeWithFallback env context strategy options w
    = if default true (Orchestrator.enablePaidFallback options)
      then Orchestrator.executeWithPaidService env c l (Orchestrator.extend w trace)
      else (Resolved (Orchestrator.freeFailureResponse c rc l),
            Orchestrator.extend w trace).
Proof.
  intros strategy rc.
  destruct (OrchestratorFacts.freeLoop_always_fails env strategy
              (Orchestrator.isBlockedChecker options) rc
              (Z.to_nat (Config.maxAttempts rc))
              (jobsBgStrategy_alwaysFails world) 1 context None w)
    as [c [l [trace [Hrun [Hattempts _]]]]].
  exists c, l, trace.
  assert (Orchestrator.freePhase env context strategy options w
          = (Resolved (Orchestrator.FreeGaveUp c l), Orchestrator.extend w trace))
    as Hphase by exact Hrun.
  split; [exact Hphase|]. split; [exact Hattempts|].
  rewrite OrchestratorFacts.executeWithFallback_unfold, Hphase. reflexivity.
Qed.

End BypassFacts.
